(** * Sequential merge orchestrator: [scripts/workflow/merge_all_prs.py]

    A shallow embedding of the merge session controller, its readiness
    checks, the check poller and the trunk health verifier, followed by the
    properties of the session that the design document states.

    Conventions of the embedding.
    - A JSON object read with [dict.get] is a record whose optional fields
      are [option string]; [None] stands for a key that is absent. The
      details of a pull request may also be the empty dictionary, which
      [not details] tells from the others.
    - The [gh] and [git] subprocesses are answered by a host, an arbitrary
      oracle with its own state; [json.loads] of a command's output is part
      of the answer ([None] is a [JSONDecodeError]). The host also says
      whether the directory of the report can be written.
    - Every subprocess call, sleep and log line is appended to a trace. A
      log line is kept as its template and arguments, without timestamp and
      colour; the rules of "=" signs and the blank lines are left out; the
      plan table, the report file and the summary are one event each, with
      the data they print; so is the traceback of an exception that
      nothing catches, after which the process ends with status 1.
    - The wall clock is counted in whole seconds; a subprocess call takes
      the time the host says, [time.sleep] takes the time it is given, and
      reading the clock takes none. The script reads a float: two readings
      with nothing but computation between them differ by a fraction of a
      second there and by nothing here. The script therefore exceeds a
      timeout of zero minutes before its first query; what is proved of
      the first test of the timeout is stated for a negative timeout or
      for one of at least a minute.
    - The lists [merged] and [skipped] hold references (positions in
      [prs]) to the dictionaries of [prs]: the three lists share them. *)

From stdpp Require Import base list strings pretty.
From Stdlib Require Import ZArith Lia Sorted Permutation.

Open Scope Z_scope.

(** ** Strings as Python uses them

    A string is a sequence of characters, one element each; the
    characters are those below 256. *)

Module Py.

(** [s == lit] *)
Definition eq_str (s lit : string) : bool := String.eqb s lit.

(** [d.get(key) == lit]: an absent key gives [None], which equals no
    string. *)
Definition get_eq (o : option string) (lit : string) : bool :=
  match o with
  | Some s => eq_str s lit
  | None => false
  end.

(** [d.get(key) in (lit1, lit2, ...)] *)
Definition get_in (o : option string) (lits : list string) : bool :=
  existsb (get_eq o) lits.

(** Truth value of a string: the empty string is false. *)
Definition truthy (s : string) : bool := negb (eq_str s "").

(** [c.isspace()], for a character below 256: the ASCII white space and
    separators, the next-line control and the no-break space. *)
Definition is_space (c : Ascii.ascii) : bool :=
  let n := Ascii.N_of_ascii c in
  ((9 <=? n) && (n <=? 13) || (28 <=? n) && (n <=? 32) || (n =? 133) || (n =? 160))%N.

Fixpoint lstrip (s : string) : string :=
  match s with
  | String c s' => if is_space c then lstrip s' else s
  | EmptyString => EmptyString
  end.

Fixpoint rev_onto (s acc : string) : string :=
  match s with
  | String c s' => rev_onto s' (String c acc)
  | EmptyString => acc
  end.

Definition rev (s : string) : string := rev_onto s EmptyString.

(** [s.strip()] *)
Definition strip (s : string) : string := rev (lstrip (rev (lstrip s))).

(** [c.lower()], for a character below 256: the letters A to Z and the
    capital letters of Latin-1 (192 to 222, but the multiplication sign). *)
Definition lower_char (c : Ascii.ascii) : Ascii.ascii :=
  let n := Ascii.N_of_ascii c in
  if ((65 <=? n) && (n <=? 90) || (192 <=? n) && (n <=? 222) && negb (n =? 215))%N
  then Ascii.ascii_of_N (n + 32) else c.

(** [s.lower()] *)
Fixpoint lower (s : string) : string :=
  match s with
  | String c s' => String (lower_char c) (lower s')
  | EmptyString => EmptyString
  end.

(** [needle in hay] *)
Definition contains (needle hay : string) : bool :=
  match String.index 0 needle hay with
  | Some _ => true
  | None => false
  end.

(** [s[:n]] for [n >= 0] *)
Definition take (n : nat) (s : string) : string := String.substring 0 n s.

(** [sep.join(parts)] *)
Definition join (sep : string) (parts : list string) : string :=
  String.concat sep parts.

(** [str(n)] for an integer. *)
Definition str (n : Z) : string := pretty n.

(** Truth value of a list: the empty list is false. *)
Definition nonempty {A : Type} (l : list A) : bool :=
  match l with
  | [] => false
  | _ :: _ => true
  end.

(** [l[:n]] for any integer [n]: a negative bound counts from the end. *)
Definition slice_to {A : Type} (n : Z) (l : list A) : list A :=
  if 0 <=? n then firstn (Z.to_nat n) l
  else firstn (Z.to_nat (Z.of_nat (length l) + n)) l.

End Py.

(** ** Data *)

(** A pull request as [gh pr list --json ...] returns it, with the two keys
    the session adds: [reason] on a skip and [result] on a merge. *)
Module PR.
Record t : Type := mk {
  number : Z;
  title : string;
  headRefName : string;
  labels : list string;
  reason : option string;
  result : option string
}.

Definition set_reason (msg : string) (pr : t) : t :=
  mk (number pr) (title pr) (headRefName pr) (labels pr) (Some msg) (result pr).

Definition set_result (res : string) (pr : t) : t :=
  mk (number pr) (title pr) (headRefName pr) (labels pr) (reason pr) (Some res).
End PR.

(** An answer of [gh pr view --json ...] that is not the empty dictionary,
    with the keys the session looks up. Where a dictionary may be empty it
    is an [option Details.t], and [None] is [{}]: that is what [not
    details] tests. *)
Module Details.
Record t : Type := mk {
  isDraft : bool;
  state : option string;
  mergeStateStatus : option string;
  mergeable : option string;
  reviewDecision : option string
}.

(** What the lookups of the session find in the empty dictionary [{}]:
    no key. *)
Definition empty : t := mk false None None None None.
End Details.

(** An entry of [gh pr checks --json name,state,conclusion]. *)
Module CheckRun.
Record t : Type := mk {
  name : string;
  state : option string;
  conclusion : option string
}.
End CheckRun.

(** An entry of [gh run list --json status,conclusion,name]. *)
Module Run.
Record t : Type := mk {
  status : option string;
  conclusion : option string;
  name : option string
}.
End Run.

(** Command line arguments. *)
Record Args : Type := mkArgs {
  label : string;
  session : option string;
  base : string;
  limit : option Z;
  timeout : Z;
  dry_run : bool;
  verbose : bool;
  report_dir : string
}.

(** ** Subprocesses *)

Inductive GhCmd : Type :=
| GhAuthStatus
| GhPrList (state base : string) (label : option string)
| GhPrView (pr_number : Z)
| GhPrChecks (pr_number : Z)
| GhPrUpdateBranch (pr_number : Z)      (* --rebase *)
| GhPrMerge (pr_number : Z)             (* --squash --delete-branch *)
| GhRunList (branch : string).          (* --limit 1 *)

Inductive GitCmd : Type :=
| GitStatusPorcelain
| GitFetchOrigin
| GitRevParse (ref : string).

Inductive Cmd : Type :=
| Gh (c : GhCmd)
| Git (c : GitCmd).

(** What [stdout] holds, after [json.loads] where the caller parses it:
    [None] where [json.loads] raises [JSONDecodeError]. The details of a
    pull request are a dictionary, which may be empty. *)
Definition GhOut (c : GhCmd) : Type :=
  match c with
  | GhPrList _ _ _ => option (list PR.t)
  | GhPrView _ => option (option Details.t)
  | GhPrChecks _ => option (list CheckRun.t)
  | GhRunList _ => option (list Run.t)
  | GhAuthStatus | GhPrUpdateBranch _ | GhPrMerge _ => string
  end.

Definition Out (c : Cmd) : Type :=
  match c with
  | Gh g => GhOut g
  | Git _ => string
  end.

(** [(returncode, stdout, stderr)] *)
Record Completed (A : Type) : Type := mkCompleted {
  returncode : Z;
  stdout : A;
  stderr : string
}.
Arguments mkCompleted {A} _ _ _.
Arguments returncode {A} _.
Arguments stdout {A} _.
Arguments stderr {A} _.

(** The code host, the local repository and the file system, seen from
    the script. [writable dir w] says whether the directory [dir] can be
    created and a file written in it: [Path.mkdir] and [Path.write_text]
    raise [OSError] otherwise. *)
Class Host (W : Type) : Type := {
  respond : forall c : Cmd, W -> Completed (Out c) * W;
  duration : Cmd -> W -> N;
  writable : string -> W -> bool
}.

(** ** Trace *)

Inductive Level : Type := info | success | warn | error.

(** The lines that [log] prints, by template. *)
Inductive Msg : Type :=
| MsgDryRunMode                           (* DRY RUN MODE - No changes will be made *)
| MsgPreflight                            (* Running preflight checks... *)
| MsgNotAuthenticated                     (* gh CLI not authenticated. Run: gh auth login *)
| MsgAuthenticated                        (* [OK] gh CLI authenticated *)
| MsgTreeNotClean                         (* Working tree is not clean. ... *)
| MsgTreeClean                            (* [OK] Working tree clean *)
| MsgFetchFailed                          (* Failed to fetch from origin *)
| MsgFetched                              (* [OK] Fetched latest from origin *)
| MsgDiscovering (label : string)         (* Discovering PRs with label '{label}'... *)
| MsgFailedToList (stderr : string)       (* Failed to list PRs: {stderr} *)
| MsgFailedToParseList                    (* Failed to parse PR list: {stdout} *)
| MsgNoMatching                           (* No matching PRs found *)
| MsgLimiting (limit : Z) (found : nat)   (* Limiting to {limit} PRs (found {found}) *)
| MsgProcessing (pr_number : Z) (i total : nat)
                                          (* Processing PR #{pr_number} ({i}/{total}) *)
| MsgTitle (title : string)               (* {title} *)
| MsgNoDetails                            (* Failed to get PR details *)
| MsgDraft                                (* PR is a draft - skipping *)
| MsgAlreadyMerged                        (* PR already merged - skipping *)
| MsgMergeState (merge_state mergeable : string)
                                          (* Merge state: {..}, Mergeable: {..} *)
| MsgBehind                               (* Branch is behind - updating... *)
| MsgUpdateFailed (msg : string)          (* Failed to update branch: {msg} *)
| MsgConflicts                            (* Merge conflicts detected - cannot proceed *)
| MsgUnexpectedState (merge_state : string)
                                          (* Unexpected merge state: {merge_state} *)
| MsgReviewFailed (msg : string)          (* Review check failed: {msg} *)
| MsgWaitingForChecks                     (* Waiting for status checks... *)
| MsgWaiting (pending : list string) (remaining : Z)
                                          (* Waiting for checks: {..} ({..}s remaining) *)
| MsgChecksFailed (msg : string)          (* Checks failed: {msg} *)
| MsgMerging                              (* Merging PR... *)
| MsgMergeFailed (msg : string)           (* Merge failed: {msg} *)
| MsgVerifying (base : string)            (* Verifying {base} health... *)
| MsgNoWorkflows (base : string)          (* No CI workflows found for {base} *)
| MsgStillRunning (name status : string)  (* CI still running: {name} ({status}) *)
| MsgUnhealthy (msg : string)             (* Main branch unhealthy after merge: {msg} *)
| MsgStopping                             (* STOPPING - main branch may be broken! *)
| MsgOk (msg : string)                    (* [OK] {msg}, or {msg} after a branch update *)
| MsgContinuing                           (* Continuing to next PR... *)
| MsgGenerating                           (* Generating merge session report... *)
| MsgReportPath                           (* Report: {report_path} *)
| MsgSkippedHeader.                       (* Skipped PRs: *)

(** What the script does that can be seen from outside. *)
Inductive Event : Type :=
| EvRun (c : Cmd)
| EvSleep (seconds : Z)
| EvLog (msg : Msg) (level : Level)
| EvPlan (numbers : list Z)
| EvReport (discovered : nat) (merged_rows skipped_rows : list (Z * string))
| EvSummary (merged_count skipped_count : nat)
| EvSkipped (rows : list (Z * string))
| EvTraceback.

(** ** Session state and the monad of the script *)

Section Script.

Context {W : Type} `{Host W}.

(** The host, the clock, the trace, and the three lists of [main]. *)
Record St : Type := mkSt {
  world : W;
  clock : Z;
  trace : list Event;
  prs : list PR.t;
  merged : list nat;
  skipped : list nat
}.

(** A computation either produces a value and a new state, or nothing
    (it has run out of fuel, or it has followed a dangling reference). *)
Definition M (A : Type) : Type := St -> option (A * St).

Definition ret {A : Type} (a : A) : M A := fun st => Some (a, st).

Definition bind {A B : Type} (m : M A) (k : A -> M B) : M B :=
  fun st =>
    match m st with
    | Some (a, st') => k a st'
    | None => None
    end.

Definition fail {A : Type} : M A := fun _ => None.

End Script.

Arguments St W : clear implicits.
Arguments M W A : clear implicits.

Notation "'let*' x ':=' m 'in' k" := (bind m (fun x => k))
  (at level 10, x name, m at level 100, k at level 200).
Notation "m1 ';;;' m2" := (bind m1 (fun _ => m2))
  (at level 100, m2 at level 200, right associativity).

Section Primitives.

Context {W : Type} `{Host W}.

Definition emit (e : Event) : M W unit :=
  fun st => Some (tt, mkSt (world st) (clock st) (trace st ++ [e])
                           (prs st) (merged st) (skipped st)).

(** [log(msg, level)] *)
Definition log (msg : Msg) (level : Level) : M W unit := emit (EvLog msg level).

(** [subprocess.run(cmd, capture_output=True, text=True)] *)
Definition subprocess_run (c : Cmd) : M W (Completed (Out c)) :=
  fun st =>
    let '(answer, w') := respond c (world st) in
    Some (answer, mkSt w' (clock st + Z.of_N (duration c (world st)))
                       (trace st ++ [EvRun c])
                       (prs st) (merged st) (skipped st)).

Definition run_gh (c : GhCmd) : M W (Completed (GhOut c)) := subprocess_run (Gh c).

Definition run_git (c : GitCmd) : M W (Completed string) := subprocess_run (Git c).

(** [time.time()], in whole seconds. *)
Definition time_time : M W Z := fun st => Some (clock st, st).

(** [time.sleep(seconds)] *)
Definition time_sleep (seconds : Z) : M W unit :=
  fun st => Some (tt, mkSt (world st) (clock st + seconds)
                           (trace st ++ [EvSleep seconds])
                           (prs st) (merged st) (skipped st)).

(** The local variables of [main]. *)
Definition set_prs (l : list PR.t) : M W unit :=
  fun st => Some (tt, mkSt (world st) (clock st) (trace st) l (merged st) (skipped st)).

Definition get_prs : M W (list PR.t) := fun st => Some (prs st, st).
Definition get_merged : M W (list nat) := fun st => Some (merged st, st).
Definition get_skipped : M W (list nat) := fun st => Some (skipped st, st).

Definition init_lists : M W unit :=
  fun st => Some (tt, mkSt (world st) (clock st) (trace st) (prs st) [] []).

(** [pr[key]] through the reference [i]. *)
Definition deref (i : nat) : M W PR.t :=
  fun st => match prs st !! i with
            | Some pr => Some (pr, st)
            | None => None
            end.

(** [pr['reason'] = msg] *)
Definition set_reason (i : nat) (msg : string) : M W unit :=
  fun st => Some (tt, mkSt (world st) (clock st) (trace st)
                           (alter (PR.set_reason msg) i (prs st))
                           (merged st) (skipped st)).

(** [pr['result'] = res] *)
Definition set_result (i : nat) (res : string) : M W unit :=
  fun st => Some (tt, mkSt (world st) (clock st) (trace st)
                           (alter (PR.set_result res) i (prs st))
                           (merged st) (skipped st)).

(** [skipped.append(pr)] *)
Definition skipped_append (i : nat) : M W unit :=
  fun st => Some (tt, mkSt (world st) (clock st) (trace st) (prs st)
                           (merged st) (skipped st ++ [i])).

(** [merged.append(pr)] *)
Definition merged_append (i : nat) : M W unit :=
  fun st => Some (tt, mkSt (world st) (clock st) (trace st) (prs st)
                           (merged st ++ [i]) (skipped st)).

Fixpoint mapM {A B : Type} (f : A -> M W B) (l : list A) : M W (list B) :=
  match l with
  | [] => ret []
  | a :: l' => let* b := f a in let* bs := mapM f l' in ret (b :: bs)
  end.

(** ** Preflight *)

Definition check_gh_auth : M W bool :=
  let* p := run_gh GhAuthStatus in
  ret (returncode p =? 0).

Definition check_clean_working_tree : M W bool :=
  let* p := run_git GitStatusPorcelain in
  ret ((returncode p =? 0) && Py.eq_str (Py.strip (stdout p)) "").

Definition fetch_origin : M W bool :=
  let* p := run_git GitFetchOrigin in
  ret (returncode p =? 0).

(** ** Discovery *)

(** [any(lbl.get("name", "") == session for lbl in pr.get("labels", []))] *)
Definition has_label (session : string) (pr : PR.t) : bool :=
  existsb (fun lbl => Py.eq_str lbl session) (PR.labels pr).

(** [list.sort(key=...)] is stable: an element goes in front of the first
    one whose key is not smaller. *)
Fixpoint insert_by_number (pr : PR.t) (l : list PR.t) : list PR.t :=
  match l with
  | [] => [pr]
  | q :: l' =>
      if PR.number pr <=? PR.number q then pr :: q :: l'
      else q :: insert_by_number pr l'
  end.

Definition sort_by_number (l : list PR.t) : list PR.t :=
  foldr insert_by_number [] l.

Definition get_open_prs (label : string) (session : option string) (base : string)
  : M W (list PR.t) :=
  let* p := run_gh (GhPrList "open" base (if Py.truthy label then Some label else None)) in
  if negb (returncode p =? 0) then
    log (MsgFailedToList (stderr p)) error ;;; ret []
  else
    match stdout p with
    | None => log MsgFailedToParseList error ;;; ret []
    | Some found =>
        let found :=
          match session with
          | Some s => if Py.truthy s then filter (fun pr => has_label s pr = true) found
                      else found
          | None => found
          end in
        ret (sort_by_number found)
    end.

(** The value is a dictionary: [None], that is [{}], when the command
    fails or its output cannot be parsed, and what was parsed otherwise. *)
Definition get_pr_details (pr_number : Z) : M W (option Details.t) :=
  let* p := run_gh (GhPrView pr_number) in
  if negb (returncode p =? 0) then ret None
  else
    match stdout p with
    | None => ret None
    | Some parsed => ret parsed
    end.

(** ** Checks *)

Definition is_pending (c : CheckRun.t) : bool :=
  Py.get_eq (CheckRun.state c) "PENDING" || Py.get_eq (CheckRun.state c) "IN_PROGRESS".

Definition is_failure (c : CheckRun.t) : bool :=
  Py.get_in (CheckRun.conclusion c) ["FAILURE"; "ERROR"; "CANCELLED"; "TIMED_OUT"].

(** The part of [get_check_status] after the query and the parse. *)
Definition aggregate (checks : list CheckRun.t) : string * list CheckRun.t :=
  match checks with
  | [] => ("SUCCESS", [])
  | _ =>
      let has_pending := existsb is_pending checks in
      let has_failure := existsb is_failure checks in
      if has_failure then ("FAILURE", checks)
      else if has_pending then ("PENDING", checks)
      else ("SUCCESS", checks)
  end.

Definition get_check_status (pr_number : Z) : M W (string * list CheckRun.t) :=
  let* p := run_gh (GhPrChecks pr_number) in
  if negb (returncode p =? 0) then ret ("UNKNOWN", [])
  else
    match stdout p with
    | None => ret ("UNKNOWN", [])
    | Some checks => ret (aggregate checks)
    end.

Definition poll_interval : Z := 30.

Definition timeout_message (timeout_minutes : Z) : string :=
  "Timeout after " +:+ Py.str timeout_minutes +:+ " minutes waiting for checks".

Definition failed_message (checks : list CheckRun.t) : string :=
  "Checks failed: " +:+
  Py.join ", " (map CheckRun.name
    (filter (fun c => Py.get_in (CheckRun.conclusion c) ["FAILURE"; "ERROR"] = true) checks)).

(** The [while True] loop of [wait_for_checks]; [fuel] bounds the number
    of polls. *)
Fixpoint wait_loop (fuel : nat) (pr_number start_time timeout_minutes : Z)
    (verbose : bool) : M W (bool * string) :=
  match fuel with
  | O => fail
  | S fuel' =>
      let timeout_seconds := timeout_minutes * 60 in
      let* now := time_time in
      let elapsed := now - start_time in
      if timeout_seconds <? elapsed then
        ret (false, timeout_message timeout_minutes)
      else
        let* sc := get_check_status pr_number in
        let '(status, checks) := sc in
        if Py.eq_str status "SUCCESS" then ret (true, "All checks passed"%string)
        else if Py.eq_str status "FAILURE" then ret (false, failed_message checks)
        else
          (if verbose then
             log (MsgWaiting
                    (map CheckRun.name
                       (filter (fun c => Py.get_in (CheckRun.state c)
                                           ["PENDING"; "IN_PROGRESS"] = true) checks))
                    (timeout_seconds - elapsed)) info
           else ret tt) ;;;
          time_sleep poll_interval ;;;
          wait_loop fuel' pr_number start_time timeout_minutes verbose
  end.

(** Every poll but the last sleeps [poll_interval] seconds, so this many
    polls are never used up (see [wait_for_checks_returns]). *)
Definition polls (timeout_minutes : Z) : nat :=
  Z.to_nat (timeout_minutes * 60 / poll_interval) + 2.

Definition wait_for_checks (pr_number timeout_minutes : Z) (verbose : bool)
  : M W (bool * string) :=
  let* start_time := time_time in
  wait_loop (polls timeout_minutes) pr_number start_time timeout_minutes verbose.

End Primitives.

Section Session.

Context {W : Type} `{Host W}.

(** ** Readiness *)

Definition update_pr_branch (pr_number : Z) : M W (bool * string) :=
  let* p := run_gh (GhPrUpdateBranch pr_number) in
  if returncode p =? 0 then ret (true, "Branch updated successfully"%string)
  else if Py.contains "conflict" (Py.lower (stderr p)) then
    ret (false, "Merge conflicts detected - manual resolution required"%string)
  else ret (false, "Failed to update branch: " +:+ stderr p).

Definition check_review_approval (pr : Details.t) : bool * string :=
  let decision := default ""%string (Details.reviewDecision pr) in
  if Py.eq_str decision "APPROVED" then (true, "PR approved"%string)
  else if Py.eq_str decision "CHANGES_REQUESTED" then
    (false, "Changes requested - needs update and re-approval"%string)
  else if Py.eq_str decision "REVIEW_REQUIRED" then
    (false, "Review required - needs approval"%string)
  else (true, "No review requirement or already approved"%string).

Definition merge_pr (pr_number : Z) (dry_run : bool) : M W (bool * string) :=
  if dry_run then ret (true, "[DRY RUN] Would merge PR"%string)
  else
    let* p := run_gh (GhPrMerge pr_number) in
    if returncode p =? 0 then ret (true, "PR merged successfully"%string)
    else ret (false, "Merge failed: " +:+ stderr p).

(** ** Trunk health *)

Definition commit_suffix (commit_sha : string) : string :=
  " (commit: " +:+ commit_sha +:+ ")".

Definition verify_main_health (base : string) (verbose : bool) : M W (bool * string) :=
  fetch_origin ;;;
  let* head := run_git (GitRevParse ("origin/" +:+ base)) in
  if negb (returncode head =? 0) then ret (false, "Failed to get main HEAD"%string)
  else
    let commit_sha := Py.take 7 (Py.strip (stdout head)) in
    let* p := run_gh (GhRunList base) in
    if negb (returncode p =? 0) then
      (if verbose then log (MsgNoWorkflows base) warn else ret tt) ;;;
      ret (true, "No CI verification" +:+ commit_suffix commit_sha)
    else
      match stdout p with
      | None => ret (true, "Could not parse CI status" +:+ commit_suffix commit_sha)
      | Some [] => ret (true, "No recent CI runs" +:+ commit_suffix commit_sha)
      | Some (latest :: _) =>
          let status := default ""%string (Run.status latest) in
          let conclusion := default ""%string (Run.conclusion latest) in
          let name := default "unknown"%string (Run.name latest) in
          if Py.eq_str status "completed" then
            if Py.eq_str conclusion "success" then
              ret (true, "CI passed: " +:+ name +:+ commit_suffix commit_sha)
            else
              ret (false, "CI failed: " +:+ name +:+ " - " +:+ conclusion
                            +:+ commit_suffix commit_sha)
          else
            (if verbose then log (MsgStillRunning name status) info else ret tt) ;;;
            ret (true, "CI in progress: " +:+ name +:+ commit_suffix commit_sha)
      end.

(** ** Report and summary *)

Definition merged_row (i : nat) : M W (Z * string) :=
  let* pr := deref i in
  ret (PR.number pr, default "merged"%string (PR.result pr)).

Definition skipped_row (i : nat) : M W (Z * string) :=
  let* pr := deref i in
  ret (PR.number pr, default "unknown"%string (PR.reason pr)).

(** [report_dir.mkdir(parents=True, exist_ok=True)] followed by
    [report_path.write_text(...)]: the value says whether they return. *)
Definition write_text (report_dir : string) : M W bool :=
  fun st => Some (writable report_dir (world st), st).

(** The report is written to a file in [report_dir]; the trace keeps its
    tables. The value is [false] when the file cannot be written, where
    the source raises [OSError]. *)
Definition generate_report (report_dir : string) : M W bool :=
  let* prs := get_prs in
  let* merged := get_merged in
  let* skipped := get_skipped in
  let* merged_rows := mapM merged_row merged in
  let* skipped_rows := mapM skipped_row skipped in
  let* written := write_text report_dir in
  if written then emit (EvReport (length prs) merged_rows skipped_rows) ;;; ret true
  else ret false.

Definition print_merge_plan (prs : list PR.t) : M W unit :=
  emit (EvPlan (map PR.number prs)).

(** ** The body of the merge loop *)

(** How a block of the loop body ends: it falls through to the next
    block, it ends the iteration ([continue]), or it ends the loop
    ([break]). *)
Inductive Flow (A : Type) : Type :=
| Proceed (a : A)
| Continue
| Break.
Arguments Proceed {A} a.
Arguments Continue {A}.
Arguments Break {A}.

Definition and_then {A B : Type} (m : M W (Flow A)) (k : A -> M W (Flow B))
  : M W (Flow B) :=
  let* f := m in
  match f with
  | Proceed a => k a
  | Continue => ret Continue
  | Break => ret Break
  end.

(** [pr['reason'] = msg; skipped.append(pr)] *)
Definition skip (i : nat) (msg : string) : M W unit :=
  set_reason i msg ;;; skipped_append i.

(** Lines 558-578: fresh details, drafts, merged pull requests. *)
Definition triage (i : nat) (pr_number : Z) : M W (Flow Details.t) :=
  let* fetched := get_pr_details pr_number in
  match fetched with
  | None =>
      log MsgNoDetails error ;;;
      skip i "Failed to fetch PR details" ;;;
      ret Continue
  | Some details =>
      if Details.isDraft details then
        log MsgDraft warn ;;;
        skip i "PR is a draft" ;;;
        ret Continue
      else if Py.get_eq (Details.state details) "MERGED" then
        log MsgAlreadyMerged info ;;;
        skip i "Already merged" ;;;
        ret Continue
      else ret (Proceed details)
  end.

(** Lines 580-610: the merge state, with a branch update when behind. *)
Definition settle_merge_state (args : Args) (i : nat) (pr_number : Z)
    (details : Details.t) : M W (Flow Details.t) :=
  let merge_state := default "UNKNOWN"%string (Details.mergeStateStatus details) in
  let mergeable := default "UNKNOWN"%string (Details.mergeable details) in
  (if verbose args then log (MsgMergeState merge_state mergeable) info else ret tt) ;;;
  and_then
    (if Py.eq_str merge_state "BEHIND" then
       log MsgBehind info ;;;
       let* updated := update_pr_branch pr_number in
       let '(ok, msg) := updated in
       if negb ok then
         log (MsgUpdateFailed msg) error ;;;
         skip i msg ;;;
         ret Break
       else
         log (MsgOk msg) success ;;;
         time_sleep 3 ;;;
         let* fetched := get_pr_details pr_number in
         let details := default Details.empty fetched in
         ret (Proceed
                (details, default "UNKNOWN"%string (Details.mergeStateStatus details)))
     else ret (Proceed (details, merge_state)))
    (fun refreshed =>
       let '(details, merge_state) := refreshed in
       if Py.eq_str merge_state "DIRTY" || Py.eq_str mergeable "CONFLICTING" then
         log MsgConflicts error ;;;
         skip i "Merge conflicts - manual resolution required" ;;;
         ret Break
       else
         (if negb (Py.eq_str merge_state "CLEAN" || Py.eq_str merge_state "HAS_HOOKS")
          then log (MsgUnexpectedState merge_state) warn else ret tt) ;;;
         ret (Proceed details)).

(** Lines 612-619: reviews. *)
Definition review_gate (i : nat) (details : Details.t) : M W (Flow unit) :=
  let '(approved, msg) := check_review_approval details in
  if negb approved then
    log (MsgReviewFailed msg) error ;;;
    skip i msg ;;;
    ret Break
  else
    log (MsgOk msg) success ;;;
    ret (Proceed tt).

(** Lines 621-629: status checks. *)
Definition checks_gate (args : Args) (i : nat) (pr_number : Z) : M W (Flow unit) :=
  log MsgWaitingForChecks info ;;;
  let* waited := wait_for_checks pr_number (timeout args) (verbose args) in
  let '(checks_ok, msg) := waited in
  if negb checks_ok then
    log (MsgChecksFailed msg) error ;;;
    skip i msg ;;;
    ret Break
  else
    log (MsgOk msg) success ;;;
    ret (Proceed tt).

(** Lines 631-641: the merge. *)
Definition merge_gate (args : Args) (i : nat) (pr_number : Z) : M W (Flow unit) :=
  log MsgMerging info ;;;
  let* done := merge_pr pr_number (dry_run args) in
  let '(ok, msg) := done in
  if negb ok then
    log (MsgMergeFailed msg) error ;;;
    skip i msg ;;;
    ret Break
  else
    log (MsgOk msg) success ;;;
    set_result i (if negb (dry_run args) then "merged" else "would merge") ;;;
    merged_append i ;;;
    ret (Proceed tt).

(** Lines 643-653: the trunk after the merge. [i] counts from 1 here. *)
Definition health_gate (args : Args) (i total : nat) : M W (Flow unit) :=
  log (MsgVerifying (base args)) info ;;;
  let* verified := verify_main_health (base args) (verbose args) in
  let '(healthy, msg) := verified in
  if negb healthy then
    log (MsgUnhealthy msg) error ;;;
    log MsgStopping error ;;;
    ret Break
  else
    log (MsgOk msg) success ;;;
    (if verbose args && (i <? total)%nat then log MsgContinuing info else ret tt) ;;;
    ret (Proceed tt).

(** Lines 558-629: everything that is decided before the merge. *)
Definition readiness (args : Args) (i : nat) (pr_number : Z) : M W (Flow unit) :=
  and_then (triage i pr_number) (fun details =>
  and_then (settle_merge_state args i pr_number details) (fun details =>
  and_then (review_gate i details) (fun _ =>
  checks_gate args i pr_number))).

(** One iteration, for the pull request at position [idx] of [prs]. *)
Definition process_pr (args : Args) (total idx : nat) : M W (Flow unit) :=
  let* pr := deref idx in
  let pr_number := PR.number pr in
  let pr_title := PR.title pr in
  log (MsgProcessing pr_number (S idx) total) info ;;;
  log (MsgTitle pr_title) info ;;;
  and_then (readiness args idx pr_number) (fun _ =>
  and_then (merge_gate args idx pr_number) (fun _ =>
  health_gate args (S idx) total)).

(** [for i, pr in enumerate(prs, 1)], over the positions still to visit.
    The value is the number of iterations that were started. *)
Fixpoint merge_loop (args : Args) (total : nat) (todo : list nat) : M W nat :=
  match todo with
  | [] => ret O
  | idx :: todo' =>
      let* flow := process_pr args total idx in
      match flow with
      | Break => ret 1%nat
      | _ => let* n := merge_loop args total todo' in ret (S n)
      end
  end.

(** ** The session *)

(** Lines 679-685. *)
Definition exit_code (merged skipped : list nat) : Z :=
  if Py.nonempty skipped && negb (Py.nonempty merged) then 1
  else if Py.nonempty skipped then 2
  else 0.

(** Lines 535-538. *)
Definition apply_limit (limit : option Z) (prs : list PR.t) : bool * list PR.t :=
  match limit with
  | Some n =>
      if negb (n =? 0) && (n <? Z.of_nat (length prs))
      then (true, Py.slice_to n prs)
      else (false, prs)
  | None => (false, prs)
  end.

(** Lines 655-685: the report, the summary and the exit status. Nothing
    catches the [OSError] of a report that cannot be written: the
    interpreter prints the traceback and the process ends with status 1,
    before the summary and the exit status of lines 679-685. *)
Definition conclude (report_dir : string) (started : nat) : M W (Z * nat) :=
  log MsgGenerating info ;;;
  let* written := generate_report report_dir in
  if negb written then emit EvTraceback ;;; ret (1, started)
  else
    log MsgReportPath success ;;;
    let* merged := get_merged in
    let* skipped := get_skipped in
    emit (EvSummary (length merged) (length skipped)) ;;;
    (if Py.nonempty skipped then
       log MsgSkippedHeader warn ;;;
       let* rows := mapM skipped_row skipped in
       emit (EvSkipped rows)
     else ret tt) ;;;
    ret (exit_code merged skipped, started).

(** Lines 527-653 and the call of [conclude]: discovery and the loop. The
    value is the exit status and the number of iterations started. *)
Definition merge_session (args : Args) : M W (Z * nat) :=
  log (MsgDiscovering (label args)) info ;;;
  let* found := get_open_prs (label args) (session args) (base args) in
  match found with
  | [] => log MsgNoMatching warn ;;; ret (0, O)
  | _ =>
      let '(limited, queue) := apply_limit (limit args) found in
      (if limited then log (MsgLimiting (default 0 (limit args)) (length found)) info
       else ret tt) ;;;
      set_prs queue ;;;
      print_merge_plan queue ;;;
      init_lists ;;;
      let* started := merge_loop args (length queue) (seq 0 (length queue)) in
      conclude (report_dir args) started
  end.

(** Lines 490-525 and the call of the session: a failed preflight check
    exits with status 1 before anything is discovered. *)
Definition main (args : Args) : M W (Z * nat) :=
  (if dry_run args then log MsgDryRunMode warn else ret tt) ;;;
  log MsgPreflight info ;;;
  let* authenticated := check_gh_auth in
  if negb authenticated then log MsgNotAuthenticated error ;;; ret (1, O)
  else
    log MsgAuthenticated success ;;;
    let* clean := check_clean_working_tree in
    if negb clean then log MsgTreeNotClean error ;;; ret (1, O)
    else
      log MsgTreeClean success ;;;
      let* fetched := fetch_origin in
      if negb fetched then log MsgFetchFailed error ;;; ret (1, O)
      else
        log MsgFetched success ;;;
        merge_session args.

End Session.

Arguments Proceed {A} a.
Arguments Continue {A}.
Arguments Break {A}.

(** ** The rows of the merge plan

    [print_merge_plan] prints one row for each pull request of the queue,
    between two rules of 70 characters. A string is a sequence of
    characters here. *)

Fixpoint spaces (n : nat) : string :=
  match n with
  | O => EmptyString
  | S n' => String Ascii.Space (spaces n')
  end.

(** [f"{s:<width}"] *)
Definition ljust (width : nat) (s : string) : string :=
  s +:+ spaces (width - String.length s).

(** [s[:keep] + ".." if len(s) > width else s] *)
Definition abbreviate (width keep : nat) (s : string) : string :=
  if (width <? String.length s)%nat then Py.take keep s +:+ ".." else s.

(** The row of a pull request; [state] is its [mergeStateStatus] key. *)
Definition plan_row (pr : PR.t) (state : option string) : string :=
  ljust 6 ("#" +:+ Py.str (PR.number pr)) +:+ " "
  +:+ ljust 35 (abbreviate 35 33 (PR.title pr)) +:+ " "
  +:+ ljust 15 (abbreviate 15 13 (PR.headRefName pr)) +:+ " "
  +:+ ljust 10 (default "UNKNOWN"%string state).

(** ** Scripted hosts

    A host whose state is the number of commands it has answered so far and
    whose answers are a function of that number and of the command; every
    command takes [lag] seconds, and every directory can be written. *)

Definition scripted (script : nat -> forall c : Cmd, Completed (Out c)) (lag : N)
  : Host nat :=
  {| respond c w := (script w c, S w); duration _ _ := lag; writable _ _ := true |}.

(** The same host on a file system where nothing can be written. *)
Definition read_only (script : nat -> forall c : Cmd, Completed (Out c)) (lag : N)
  : Host nat :=
  {| respond c w := (script w c, S w); duration _ _ := lag; writable _ _ := false |}.

(** A session starts with an empty trace; the lists are not assigned yet. *)
Definition initial {W : Type} (w : W) (now : Z) : St W := mkSt w now [] [] [] [].

Definition clean_details : Details.t :=
  Details.mk false (Some "OPEN"%string) (Some "CLEAN"%string)
             (Some "MERGEABLE"%string) (Some "APPROVED"%string).

Definition pr_of (n : Z) : PR.t := PR.mk n "change" "feature" ["workflow-ready"%string] None None.

(** Every command succeeds: an empty list of pull requests, clean approved
    details, no checks, no workflow runs. *)
Definition calm (c : Cmd) : Completed (Out c) :=
  match c with
  | Gh g =>
      match g return Completed (GhOut g) with
      | GhAuthStatus => mkCompleted 0 ""%string ""%string
      | GhPrList _ _ _ => mkCompleted 0 (Some []) ""%string
      | GhPrView _ => mkCompleted 0 (Some (Some clean_details)) ""%string
      | GhPrChecks _ => mkCompleted 0 (Some []) ""%string
      | GhPrUpdateBranch _ => mkCompleted 0 ""%string ""%string
      | GhPrMerge _ => mkCompleted 0 ""%string ""%string
      | GhRunList _ => mkCompleted 0 (Some []) ""%string
      end
  | Git _ => mkCompleted 0 ""%string ""%string
  end.

(** [calm], with these pull requests listed, these details for every pull
    request, these checks and these workflow runs. *)
Definition serving (listed : list PR.t) (details : Z -> Details.t)
    (checks : list CheckRun.t) (runs : list Run.t) (c : Cmd) : Completed (Out c) :=
  match c with
  | Gh g =>
      match g return Completed (GhOut g) with
      | GhPrList _ _ _ => mkCompleted 0 (Some listed) ""%string
      | GhPrView n => mkCompleted 0 (Some (Some (details n))) ""%string
      | GhPrChecks _ => mkCompleted 0 (Some checks) ""%string
      | GhRunList _ => mkCompleted 0 (Some runs) ""%string
      | g' => calm (Gh g')
      end
  | Git g => calm (Git g)
  end.

Definition default_args : Args :=
  mkArgs "workflow-ready" None "main" None 30 false false "workflow/_reports".

Definition with_dry_run (a : Args) : Args :=
  mkArgs (label a) (session a) (base a) (limit a) (timeout a) true (verbose a) (report_dir a).

(** *** Hosts of the examples *)

Definition behind_details : Details.t :=
  Details.mk false (Some "OPEN"%string) (Some "BEHIND"%string)
             (Some "MERGEABLE"%string) None.

Definition dirty_details : Details.t :=
  Details.mk false (Some "OPEN"%string) (Some "DIRTY"%string)
             (Some "CONFLICTING"%string) None.

Definition draft_details : Details.t :=
  Details.mk true (Some "OPEN"%string) (Some "CLEAN"%string)
             (Some "MERGEABLE"%string) None.

Definition failed_run : Run.t :=
  Run.mk (Some "completed"%string) (Some "failure"%string) (Some "ci"%string).

Definition red_and_running : list CheckRun.t :=
  [CheckRun.mk "build" (Some "COMPLETED"%string) (Some "FAILURE"%string);
   CheckRun.mk "lint" (Some "PENDING"%string) None].

(** One pull request, behind its base branch. *)
Definition behind_host (_ : nat) : forall c : Cmd, Completed (Out c) :=
  serving [pr_of 7] (fun _ => behind_details) [] [].

(** Two clean pull requests; the latest workflow run on the trunk failed. *)
(** A host with one open pull request, ready to be merged. *)
Definition one_clean (_ : nat) : forall c : Cmd, Completed (Out c) :=
  serving [pr_of 5] (fun _ => clean_details) [] [].

(** The default arguments with [--report-dir /dev/null/reports], a
    directory that cannot be created. *)
Definition unwritable_args : Args :=
  mkArgs "workflow-ready" None "main" None 30 false false "/dev/null/reports".

Definition broken_trunk (_ : nat) : forall c : Cmd, Completed (Out c) :=
  serving [pr_of 5; pr_of 6] (fun _ => clean_details) [] [failed_run].

(** No workflow run at all, and [git rev-parse] fails. *)
Definition headless (_ : nat) (c : Cmd) : Completed (Out c) :=
  match c return Completed (Out c) with
  | Git (GitRevParse _) => mkCompleted 128 ""%string "fatal: bad revision"%string
  | c' => calm c'
  end.

(** One clean pull request; the query for its checks never gets through. *)
Definition unreachable_checks (_ : nat) (c : Cmd) : Completed (Out c) :=
  match c return Completed (Out c) with
  | Gh (GhPrChecks _) => mkCompleted 1 None "connection reset"%string
  | c' => serving [pr_of 5] (fun _ => clean_details) [] [] c'
  end.

(** Four drafts. *)
(** A host whose answer to the query for the details is the empty
    dictionary [{}], with exit status 0. *)
Definition no_keys (_ : nat) (c : Cmd) : Completed (Out c) :=
  match c with
  | Gh g =>
      match g return Completed (GhOut g) with
      | GhPrList _ _ _ => mkCompleted 0 (Some [pr_of 5; pr_of 6]) ""%string
      | GhPrView _ => mkCompleted 0 (Some None) ""%string
      | g' => calm (Gh g')
      end
  | Git g => calm (Git g)
  end.

Definition all_drafts (_ : nat) : forall c : Cmd, Completed (Out c) :=
  serving [pr_of 101; pr_of 102; pr_of 103; pr_of 104] (fun _ => draft_details) [] [].

(** Three pull requests listed out of order. *)
(** A host with four open pull requests, which lists those that carry the
    label of the query: #9 and #8 are ready and belong to session a, #7 is
    ready and belongs to no session, #6 belongs to session a and is not
    ready. *)
Definition tagged (_ : nat) (c : Cmd) : Completed (Out c) :=
  match c with
  | Gh g =>
      match g return Completed (GhOut g) with
      | GhPrList _ _ asked =>
          mkCompleted 0
            (Some (List.filter
                     (fun pr => match asked with
                                | Some l => existsb (String.eqb l) (PR.labels pr)
                                | None => true
                                end)
                     [PR.mk 9 "change" "feature" ["workflow-ready"; "session:a"]%string
                        None None;
                      PR.mk 7 "change" "feature" ["workflow-ready"]%string None None;
                      PR.mk 6 "change" "feature" ["session:a"]%string None None;
                      PR.mk 8 "change" "feature" ["workflow-ready"; "session:a"]%string
                        None None]))
            ""%string
      | g' => calm (Gh g')
      end
  | Git g => calm (Git g)
  end.

(** The default arguments with [--session session:a]. *)
Definition session_a : Args :=
  mkArgs "workflow-ready" (Some "session:a"%string) "main" None 30 false false
    "workflow/_reports".

Definition unordered (_ : nat) : forall c : Cmd, Completed (Out c) :=
  serving [pr_of 9; pr_of 7; pr_of 8] (fun _ => clean_details) [] [].

(** The scenario of the design: 101 is clean, 102 is behind until its
    branch is updated (the twelfth command), 103 has conflicts. *)
Definition scenario (answered : nat) : forall c : Cmd, Completed (Out c) :=
  serving [pr_of 101; pr_of 102; pr_of 103; pr_of 104]
    (fun n => if n =? 102 then (if (answered <=? 11)%nat then behind_details
                                else clean_details)
              else if n =? 103 then dirty_details
              else clean_details) [] [].

Definition with_limit (n : Z) (a : Args) : Args :=
  mkArgs (label a) (session a) (base a) (Some n) (timeout a) (dry_run a) (verbose a)
         (report_dir a).

Definition with_timeout (minutes : Z) (a : Args) : Args :=
  mkArgs (label a) (session a) (base a) (limit a) minutes (dry_run a) (verbose a)
         (report_dir a).

(** A host whose repository status is a no-break space and a line feed. *)
Definition no_break_status (_ : nat) (c : Cmd) : Completed (Out c) :=
  match c with
  | Git GitStatusPorcelain =>
      mkCompleted 0 (String (Ascii.ascii_of_N 160) (String (Ascii.ascii_of_N 10) EmptyString))
        ""%string
  | c' => calm c'
  end.

(** [gh auth status] fails. *)
Definition unauthenticated (_ : nat) (c : Cmd) : Completed (Out c) :=
  match c return Completed (Out c) with
  | Gh GhAuthStatus => mkCompleted 1 ""%string "not logged in"%string
  | c' => serving [pr_of 5] (fun _ => clean_details) [] [] c'
  end.

(** The listing command fails. *)
Definition unlisted (_ : nat) (c : Cmd) : Completed (Out c) :=
  match c return Completed (Out c) with
  | Gh (GhPrList _ _ _) => mkCompleted 1 None "HTTP 502"%string
  | c' => calm c'
  end.

(** One pull request with conflicts. *)
Definition dirty_host (_ : nat) : forall c : Cmd, Completed (Out c) :=
  serving [pr_of 7] (fun _ => dirty_details) [] [].

(** One pull request, behind its base branch; the update of its branch
    fails on a conflict. *)
Definition update_refused (_ : nat) (c : Cmd) : Completed (Out c) :=
  match c return Completed (Out c) with
  | Gh (GhPrUpdateBranch _) =>
      mkCompleted 1 ""%string "CONFLICT (content): Merge conflict in README.md"%string
  | c' => serving [pr_of 7] (fun _ => behind_details) [] [] c'
  end.


(** One clean pull request; the merge command fails. *)
Definition merge_refused (_ : nat) (c : Cmd) : Completed (Out c) :=
  match c return Completed (Out c) with
  | Gh (GhPrMerge _) => mkCompleted 1 ""%string "not mergeable"%string
  | c' => serving [pr_of 7] (fun _ => clean_details) [] [] c'
  end.

(** A state in which the queue has been assigned and nothing else has
    happened. *)
Definition queued (queue : list PR.t) : St nat := mkSt 0%nat 0 [] queue [] [].

(** ** Vocabulary of the statements *)

Section Vocabulary.

Context {W : Type} `{Host W}.

(** [m] run from [st] returns, and its value and final state satisfy [Q]. *)
Definition wp {A : Type} (m : M W A) (Q : A -> St W -> Prop) (st : St W) : Prop :=
  exists a st', m st = Some (a, st') /\ Q a st'.

(** Events that may occur anywhere in an iteration but at its head: no
    "Processing" line, and no merge command in a dry run. *)
Definition tame (dry : bool) (e : Event) : Prop :=
  match e with
  | EvRun (Gh (GhPrMerge _)) => dry = false
  | EvLog (MsgProcessing _ _ _) _ => False
  | _ => True
  end.

(** [st'] comes after [st] and differs from it by the host, the clock and
    the trace only. *)
Definition ext (dry : bool) (st st' : St W) : Prop :=
  prs st' = prs st /\ merged st' = merged st /\ skipped st' = skipped st /\
  clock st <= clock st' /\
  exists evs, trace st' = trace st ++ evs /\ Forall (tame dry) evs.

(** [m] always returns and touches nothing but the host, the clock and the
    trace. *)
Definition quiet (dry : bool) {A : Type} (m : M W A) : Prop :=
  forall st, wp m (fun _ st' => ext dry st st') st.

(** The pull request numbers of the "Processing" lines of a trace. *)
Definition visited (tr : list Event) : list Z :=
  flat_map (fun e => match e with
                     | EvLog (MsgProcessing n _ _) _ => [n]
                     | _ => []
                     end) tr.

(** No merge command in a dry run. *)
Definition safe (dry : bool) (e : Event) : Prop :=
  match e with
  | EvRun (Gh (GhPrMerge _)) => dry = false
  | _ => True
  end.

(** What a pull request is, apart from what the session writes on it. *)
Definition ident (pr : PR.t) : Z * string * string * list string :=
  (PR.number pr, PR.title pr, PR.headRefName pr, PR.labels pr).

(** The numbers of the pull requests at these positions. *)
Definition numbers_at (l : list PR.t) (idxs : list nat) : list Z :=
  omap (fun i => PR.number <$> l !! i) idxs.

(** [st'] comes after [st]: the positions [dm] were appended to [merged]
    and [ds] to [skipped], the queue holds the same pull requests, and no
    reason was written unless a position was skipped. *)
Definition after (dry : bool) (st st' : St W) (dm ds : list nat) : Prop :=
  merged st' = merged st ++ dm /\ skipped st' = skipped st ++ ds /\
  map ident (prs st') = map ident (prs st) /\
  (ds = [] -> map PR.reason (prs st') = map PR.reason (prs st)) /\
  clock st <= clock st' /\
  exists evs, trace st' = trace st ++ evs /\ Forall (tame dry) evs.

(** A block of the loop body for position [i]: when it falls through it
    has appended [on_proceed] to [merged], otherwise it has appended [i] to
    [skipped]. *)
Definition gate (dry : bool) (i : nat) (on_proceed : list nat) {A : Type}
    (f : Flow A) (st st' : St W) : Prop :=
  match f with
  | Proceed _ => after dry st st' on_proceed []
  | _ => after dry st st' [] [i]
  end.

Definition gated (dry : bool) (i : nat) (on_proceed : list nat) {A : Type}
    (m : M W (Flow A)) : Prop :=
  forall st, wp m (fun f st' => gate dry i on_proceed f st st') st.

(** A whole iteration puts [i] in exactly one of the two lists. *)
Definition visit (dry : bool) (i : nat) {A : Type} (m : M W A) : Prop :=
  forall st, wp m (fun _ st' => after dry st st' [i] [] \/ after dry st st' [] [i]) st.

(** The loop over [todo], started in [st], has run [k] iterations and
    stopped in [st']. *)
Definition looped (dry : bool) (todo : list nat) (st : St W) (k : nat) (st' : St W)
  : Prop :=
  (k <= length todo)%nat /\
  exists dm ds evs,
    merged st' = merged st ++ dm /\ skipped st' = skipped st ++ ds /\
    dm ++ ds ≡ₚ take k todo /\
    map ident (prs st') = map ident (prs st) /\
    clock st <= clock st' /\
    trace st' = trace st ++ evs /\
    visited evs = numbers_at (prs st) (take k todo) /\
    Forall (safe dry) evs.

(** The label that the discovery query asks for: none when the label
    filter is the empty string. *)
Definition label_option (label : string) : option string :=
  if decide (label = ""%string) then None else Some label.

(** The answer of the host in state [w] to the discovery query of [main]:
    open pull requests on the base branch, with the label when one is
    given. *)
Definition listing (args : Args) (w : W) : Completed (option (list PR.t)) :=
  fst (respond (Gh (GhPrList "open" (base args) (label_option (label args)))) w).

(** The pull requests of an answer: none when the command failed or its
    output could not be parsed. *)
Definition listed (p : Completed (option (list PR.t))) : list PR.t :=
  if returncode p =? 0 then default [] (stdout p) else [].

(** A pull request passes the session filter: no session label is asked
    for (none, or the empty string), or the pull request carries it. *)
Definition in_session (session : option string) (pr : PR.t) : Prop :=
  match session with
  | Some s => s = ""%string \/ s ∈ PR.labels pr
  | None => True
  end.

#[global] Instance in_session_dec session pr : Decision (in_session session pr).
Proof. destruct session as [s|]; simpl; apply _. Defined.

(** Ascending by number. *)
Definition by_number (a b : PR.t) : Prop := PR.number a <= PR.number b.

(** What [get_open_prs] makes of an answer. *)
Definition open_prs_of (session : option string) (p : Completed (option (list PR.t)))
  : list PR.t :=
  sort_by_number (filter (in_session session) (listed p)).

(** The queue that [main] makes of an answer. *)
Definition queue_of (args : Args) (p : Completed (option (list PR.t))) : list PR.t :=
  snd (apply_limit (limit args) (open_prs_of (session args) p)).

(** The exit status of a session that discovered [found] and stopped in
    [st']: a report is written only when something was discovered, and a
    report that cannot be written ends the run with status 1. *)
Definition outcome (args : Args) (found : list PR.t) (st' : St W) : Z :=
  match found with
  | [] => 0
  | _ => if writable (report_dir args) (world st')
         then exit_code (merged st') (skipped st') else 1
  end.


(** A session started in [st] has returned the exit status [r.1] after
    [r.2] iterations and stopped in [st']. *)
Definition concluded (args : Args) (st : St W) (r : Z * nat) (st' : St W) : Prop :=
  let queue := queue_of args (listing args (world st)) in
  map ident (prs st') = map ident queue /\
  (r.2 <= length queue)%nat /\
  merged st' ++ skipped st' ≡ₚ seq 0 r.2 /\
  r.1 = outcome args (open_prs_of (session args) (listing args (world st))) st' /\
  clock st <= clock st' /\
  exists evs,
    trace st'
    = trace st ++ EvLog (MsgDiscovering (label args)) info
        :: EvRun (Gh (GhPrList "open" (base args) (label_option (label args))))
        :: evs /\
    visited evs = take r.2 (map PR.number queue) /\
    Forall (safe (dry_run args)) evs.

(** Nothing has been assigned to the lists of [main] yet. *)
Definition fresh (st : St W) : Prop :=
  prs st = [] /\ merged st = [] /\ skipped st = [].

(** *** The aggregate rule of the check poller, in the words of the design *)

(** The conclusion of a check is one of FAILURE, ERROR, CANCELLED,
    TIMED_OUT. *)
Definition failed (c : CheckRun.t) : Prop :=
  CheckRun.conclusion c = Some "FAILURE"%string \/ CheckRun.conclusion c = Some "ERROR"%string \/
  CheckRun.conclusion c = Some "CANCELLED"%string \/ CheckRun.conclusion c = Some "TIMED_OUT"%string.

(** The state of a check is PENDING or IN_PROGRESS. *)
Definition pending (c : CheckRun.t) : Prop :=
  CheckRun.state c = Some "PENDING"%string \/ CheckRun.state c = Some "IN_PROGRESS"%string.

Definition aggregate_rule (checks : list CheckRun.t) (status : string) : Prop :=
  (checks = [] -> status = "SUCCESS"%string) /\
  (checks <> [] -> Exists failed checks -> status = "FAILURE"%string) /\
  (checks <> [] -> ~ Exists failed checks -> Exists pending checks ->
   status = "PENDING"%string) /\
  (checks <> [] -> ~ Exists failed checks -> ~ Exists pending checks ->
   status = "SUCCESS"%string).

(** The answer of the host in state [w] to the query for the checks of a
    pull request. *)
Definition checks_answer (pr_number : Z) (w : W) : Completed (option (list CheckRun.t)) :=
  fst (respond (Gh (GhPrChecks pr_number)) w).

(** The query for the checks fails: the command fails or its output cannot
    be parsed. *)
Definition query_fails (pr_number : Z) (w : W) : Prop :=
  returncode (checks_answer pr_number w) <> 0 \/ stdout (checks_answer pr_number w) = None.

(** *** The review decisions, in the words of the design *)

Definition blocking (details : Details.t) : Prop :=
  Details.reviewDecision details = Some "CHANGES_REQUESTED"%string \/
  Details.reviewDecision details = Some "REVIEW_REQUIRED"%string.

Definition approved_or_undecided (details : Details.t) : Prop :=
  Details.reviewDecision details = Some "APPROVED"%string \/
  Details.reviewDecision details = None \/
  Details.reviewDecision details = Some ""%string.

(** *** The conditions that skip an item and go on *)

(** What [get_pr_details] returns in the host state [w]: [None] is the
    empty dictionary, of a failed fetch or of an empty answer. *)
Definition details_answer (pr_number : Z) (w : W) : option Details.t :=
  let p := fst (respond (Gh (GhPrView pr_number)) w) in
  if returncode p =? 0 then default None (stdout p) else None.

(** The answer of the host in state [w] to the query for the details of
    a pull request. *)
Definition view_answer (pr_number : Z) (w : W)
  : Completed (option (option Details.t)) :=
  fst (respond (Gh (GhPrView pr_number)) w).

(** An answer that gives no details: the command failed, its output
    could not be parsed, or it parsed to the empty dictionary. *)
Definition no_details (p : Completed (option (option Details.t))) : Prop :=
  returncode p <> 0 \/ stdout p = None \/ stdout p = Some None.

(** An answer that gives these details. *)
Definition has_details (p : Completed (option (option Details.t)))
    (details : Details.t) : Prop :=
  returncode p = 0 /\ stdout p = Some (Some details).

(** The three conditions, each with the reason it records: the draft
    flag is looked at before the state. *)
Inductive nonfatal : Completed (option (option Details.t)) -> string -> Prop :=
| fetch_failed p :
    no_details p -> nonfatal p "Failed to fetch PR details"
| is_draft p details :
    has_details p details ->
    Details.isDraft details = true -> nonfatal p "PR is a draft"
| already_merged p details :
    has_details p details ->
    Details.isDraft details = false ->
    Details.state details = Some "MERGED"%string ->
    nonfatal p "Already merged".

(** [st] with one more event. *)
Definition logged (e : Event) (st : St W) : St W :=
  mkSt (world st) (clock st) (trace st ++ [e]) (prs st) (merged st) (skipped st).

(** [st] after a subprocess has run. *)
Definition ran (c : Cmd) (st : St W) : St W :=
  mkSt (snd (respond c (world st))) (clock st + Z.of_N (duration c (world st)))
       (trace st ++ [EvRun c]) (prs st) (merged st) (skipped st).

(** [st] after [pr['reason'] = msg; skipped.append(pr)] at position [i]. *)
Definition skipping (i : nat) (msg : string) (st : St W) : St W :=
  mkSt (world st) (clock st) (trace st)
       (alter (PR.set_reason msg) i (prs st)) (merged st) (skipped st ++ [i]).

(** [st] after [pr['result'] = res; merged.append(pr)] at position [i]. *)
Definition merging (i : nat) (res : string) (st : St W) : St W :=
  mkSt (world st) (clock st) (trace st)
       (alter (PR.set_result res) i (prs st)) (merged st ++ [i]) (skipped st).

(** [st] after [time.sleep(seconds)]. *)
Definition slept (seconds : Z) (st : St W) : St W :=
  mkSt (world st) (clock st + seconds) (trace st ++ [EvSleep seconds])
       (prs st) (merged st) (skipped st).

(** What [get_check_status] makes of an answer. *)
Definition status_of (p : Completed (option (list CheckRun.t))) : string * list CheckRun.t :=
  if negb (returncode p =? 0) then ("UNKNOWN"%string, [])
  else match stdout p with
       | None => ("UNKNOWN"%string, [])
       | Some checks => aggregate checks
       end.

(** The poller returned [(ok, msg)] in [st'] because of a set of checks
    that the host returned to its last query. *)
Definition decided_by_checks (pr_number : Z) (ok : bool) (msg : string) (st' : St W)
  : Prop :=
  exists st1 checks,
    returncode (checks_answer pr_number (world st1)) = 0 /\
    stdout (checks_answer pr_number (world st1)) = Some checks /\
    st' = ran (Gh (GhPrChecks pr_number)) st1 /\
    (ok = true /\ (aggregate checks).1 = "SUCCESS"%string \/
     ok = false /\ (aggregate checks).1 = "FAILURE"%string /\ msg = failed_message checks).

(** *** Preflight *)

(** The states of the host after each preflight command. *)
Definition after_auth (w : W) : W := snd (respond (Gh GhAuthStatus) w).

Definition after_status (w : W) : W :=
  snd (respond (Git GitStatusPorcelain) (after_auth w)).

Definition after_preflight (w : W) : W :=
  snd (respond (Git GitFetchOrigin) (after_status w)).

(** The three preflight checks of a run started in the host state [w]
    pass: [gh] is authenticated, the working tree is clean, the fetch
    succeeds. *)
Definition preflight_passes (w : W) : Prop :=
  returncode (fst (respond (Gh GhAuthStatus) w)) = 0 /\
  returncode (fst (respond (Git GitStatusPorcelain) (after_auth w))) = 0 /\
  Py.strip (stdout (fst (respond (Git GitStatusPorcelain) (after_auth w)))) = ""%string /\
  returncode (fst (respond (Git GitFetchOrigin) (after_status w))) = 0.

(** The state in which [main], started in [st], begins the discovery when
    the preflight checks pass. *)
Definition preflighted (args : Args) (st : St W) : St W :=
  logged (EvLog MsgFetched success)
    (ran (Git GitFetchOrigin)
       (logged (EvLog MsgTreeClean success)
          (ran (Git GitStatusPorcelain)
             (logged (EvLog MsgAuthenticated success)
                (ran (Gh GhAuthStatus)
                   (logged (EvLog MsgPreflight info)
                      (if dry_run args then logged (EvLog MsgDryRunMode warn) st
                       else st))))))).

(** *** Trunk health *)

(** The answers of the host to the commands of [verify_main_health], when
    it is called in the host state [w]: the fetch comes first, then the
    head of the trunk, then the latest workflow run. *)
Definition head_answer (base : string) (w : W) : Completed string :=
  fst (respond (Git (GitRevParse ("origin/" +:+ base))) (snd (respond (Git GitFetchOrigin) w))).

Definition runs_answer (base : string) (w : W) : Completed (option (list Run.t)) :=
  fst (respond (Gh (GhRunList base))
         (snd (respond (Git (GitRevParse ("origin/" +:+ base)))
                 (snd (respond (Git GitFetchOrigin) w))))).

(** The most recent run of an answer, if the command succeeded, its output
    could be parsed and it lists a run. *)
Definition latest_run (p : Completed (option (list Run.t))) : option Run.t :=
  if returncode p =? 0 then
    match stdout p with
    | Some (latest :: _) => Some latest
    | _ => None
    end
  else None.

Definition completed (r : Run.t) : Prop := Run.status r = Some "completed"%string.

Definition succeeded (r : Run.t) : Prop := Run.conclusion r = Some "success"%string.

(** [verify_main_health] judges the trunk unhealthy. *)
Definition unhealthy (base : string) (w : W) : Prop :=
  returncode (head_answer base w) <> 0 \/
  exists latest, latest_run (runs_answer base w) = Some latest /\
                 completed latest /\ ~ succeeded latest.

(** *** More vocabulary *)

(** The white space of Unicode below 256: tab, line feed, vertical tab,
    form feed, carriage return, the four separators, the space, the
    next-line control and the no-break space. *)
Definition whitespace (c : Ascii.ascii) : Prop :=
  Ascii.N_of_ascii c ∈ [9; 10; 11; 12; 13; 28; 29; 30; 31; 32; 133; 160]%N.

(** A string of white space only. *)
Fixpoint blank (s : string) : Prop :=
  match s with
  | EmptyString => True
  | String c s' => whitespace c /\ blank s'
  end.

(** The event is a subprocess run on pull requests or workflow runs, that
    is any [gh] command but the authentication check. *)
Definition touches_host (e : Event) : Prop :=
  match e with
  | EvRun (Gh GhAuthStatus) => False
  | EvRun (Gh _) => True
  | _ => False
  end.

(** The listing command fails or its output cannot be parsed. *)
Definition listing_fails (p : Completed (option (list PR.t))) : Prop :=
  returncode p <> 0 \/ stdout p = None.

(** [st] after the two lines that open the iteration of the pull request
    [pr] at position [idx]. *)
Definition entering (pr : PR.t) (idx total : nat) (st : St W) : St W :=
  logged (EvLog (MsgTitle (PR.title pr)) info)
    (logged (EvLog (MsgProcessing (PR.number pr) (S idx) total) info) st).

(** The blocks of the iteration that follow the review block. *)
Definition from_checks (args : Args) (total idx : nat) (pr_number : Z) : M W (Flow unit) :=
  and_then (checks_gate args idx pr_number) (fun _ =>
  and_then (merge_gate args idx pr_number) (fun _ =>
  health_gate args (S idx) total)).

(** The blocks of the iteration that follow the merge state block. *)
Definition from_review (args : Args) (total idx : nat) (pr_number : Z)
    (details : Details.t) : M W (Flow unit) :=
  and_then (review_gate idx details) (fun _ => from_checks args total idx pr_number).

(** The event is a log line. *)
Definition is_log (e : Event) : Prop :=
  match e with
  | EvLog _ _ => True
  | _ => False
  end.

(** [st'] is [st] with more log lines. *)
Definition only_logged (st st' : St W) : Prop :=
  world st' = world st /\ clock st' = clock st /\ prs st' = prs st /\
  merged st' = merged st /\ skipped st' = skipped st /\
  exists evs, trace st' = trace st ++ evs /\ Forall is_log evs.

(** The snapshot shows a conflict: merge state DIRTY, or mergeable
    CONFLICTING. *)
Definition in_conflict (details : Details.t) : Prop :=
  Details.mergeStateStatus details = Some "DIRTY"%string \/
  Details.mergeable details = Some "CONFLICTING"%string.

(** The snapshot shows a branch behind its base. *)
Definition behind (details : Details.t) : Prop :=
  Details.mergeStateStatus details = Some "BEHIND"%string.

(** [needle] occurs in [hay]. *)
Definition occurs_in (needle hay : string) : Prop :=
  exists k, String.substring k (String.length needle) hay = needle.

(** The answers of the host in state [w] to the branch update and to the
    merge of a pull request. *)
Definition update_answer (pr_number : Z) (w : W) : Completed string :=
  fst (respond (Gh (GhPrUpdateBranch pr_number)) w).

Definition merge_answer (pr_number : Z) (w : W) : Completed string :=
  fst (respond (Gh (GhPrMerge pr_number)) w).

(** [st] when the merge state block starts the branch update. *)
Definition updating (args : Args) (details : Details.t) (st : St W) : St W :=
  logged (EvLog MsgBehind info)
    (if verbose args
     then logged (EvLog (MsgMergeState "BEHIND"
                           (default "UNKNOWN"%string (Details.mergeable details))) info) st
     else st).

(** [st] after a branch update that succeeded, the pause and the second
    fetch of the details. *)
Definition updated (pr_number : Z) (st : St W) : St W :=
  ran (Gh (GhPrView pr_number))
    (slept 3
       (logged (EvLog (MsgOk "Branch updated successfully") success)
          (ran (Gh (GhPrUpdateBranch pr_number)) st))).

(** The event is a query for the checks of a pull request. *)
Definition is_checks_query (e : Event) : bool :=
  match e with
  | EvRun (Gh (GhPrChecks _)) => true
  | _ => false
  end.

(** The number of queries for checks in a trace. *)
Definition queries (tr : list Event) : nat :=
  length (filter (fun e => is_checks_query e = true) tr).

(** The conclusion of a check is FAILURE or ERROR. *)
Definition named_in_failure (c : CheckRun.t) : Prop :=
  CheckRun.conclusion c = Some "FAILURE"%string \/ CheckRun.conclusion c = Some "ERROR"%string.

(** *** The notes of the session *)

(** What [merge_gate] writes on a pull request it merges. *)
Definition result_of (args : Args) : string :=
  if negb (dry_run args) then "merged" else "would merge".

(** Every skipped position carries a reason, and every merged position
    carries the result [res]. *)
Definition annotated (res : string) (st : St W) : Prop :=
  (forall i pr, i ∈ skipped st -> prs st !! i = Some pr -> is_Some (PR.reason pr)) /\
  (forall i pr, i ∈ merged st -> prs st !! i = Some pr -> PR.result pr = Some res).

(** The event, if it is a command on one pull request, is on one of the
    pull requests [ns]. *)
Definition about (ns : list Z) (e : Event) : Prop :=
  match e with
  | EvRun (Gh (GhPrView n)) => n ∈ ns
  | EvRun (Gh (GhPrChecks n)) => n ∈ ns
  | EvRun (Gh (GhPrUpdateBranch n)) => n ∈ ns
  | EvRun (Gh (GhPrMerge n)) => n ∈ ns
  | _ => True
  end.

(** Whenever [m] returns, from a state whose queue has the numbers [ns]:
    the queue still has these numbers, the notes are still complete, and
    the commands it has run on single pull requests are on [ns]. *)
Definition keeps (res : string) (ns : list Z) {A : Type} (m : M W A) : Prop :=
  forall st a st',
    map PR.number (prs st) = ns ->
    m st = Some (a, st') ->
    map PR.number (prs st') = ns /\
    (annotated res st -> annotated res st') /\
    exists evs, trace st' = trace st ++ evs /\ Forall (about ns) evs.

(** Whenever [m] returns, from a state in which no queue is assigned and
    no command on a single pull request has run: the notes are complete
    and every such command was on a pull request of the queue. *)
Definition settled (res : string) {A : Type} (m : M W A) : Prop :=
  forall st a st',
    prs st = [] -> annotated res st -> Forall (about []) (trace st) ->
    m st = Some (a, st') ->
    annotated res st' /\ Forall (about (map PR.number (prs st'))) (trace st').

(** *** Fatal and lenient skips *)






End Vocabulary.

(** ** The monad *)

Section Laws.

Context {W : Type} `{Host W}.

Lemma wp_ret {A : Type} (a : A) (Q : A -> St W -> Prop) st :
  Q a st -> wp (ret a) Q st.
Proof. intros HQ. exists a, st. done. Qed.

Lemma wp_bind {A B : Type} (m : M W A) (k : A -> M W B) (Q : B -> St W -> Prop) st :
  wp m (fun a st' => wp (k a) Q st') st -> wp (bind m k) Q st.
Proof.
  intros (a & st1 & Hm & b & st2 & Hk & HQ).
  exists b, st2. unfold bind. rewrite Hm. done.
Qed.

Lemma wp_mono {A : Type} (m : M W A) (Q Q' : A -> St W -> Prop) st :
  wp m Q st -> (forall a st', Q a st' -> Q' a st') -> wp m Q' st.
Proof. intros (a & st1 & Hm & HQ) Himp. exists a, st1. auto. Qed.

Lemma wp_run {A : Type} (m : M W A) (Q : A -> St W -> Prop) st a st' :
  wp m Q st -> m st = Some (a, st') -> Q a st'.
Proof. intros (a0 & st0 & Hm & HQ) Heq. congruence. Qed.

Lemma ext_refl dry (st : St W) : ext dry st st.
Proof.
  repeat split; try lia. exists []. by rewrite app_nil_r.
Qed.

Lemma ext_trans dry (st1 st2 st3 : St W) :
  ext dry st1 st2 -> ext dry st2 st3 -> ext dry st1 st3.
Proof.
  intros (Hp & Hm & Hs & Hc & evs & Ht & Hf) (Hp' & Hm' & Hs' & Hc' & evs' & Ht' & Hf').
  repeat split; try congruence; try lia.
  exists (evs ++ evs'). split.
  - by rewrite Ht', Ht, app_assoc.
  - by apply Forall_app.
Qed.

Lemma quiet_ret dry {A : Type} (a : A) : quiet (W:=W) dry (ret a).
Proof. intros st. apply wp_ret, ext_refl. Qed.

Lemma quiet_bind dry {A B : Type} (m : M W A) (k : A -> M W B) :
  quiet dry m -> (forall a, quiet dry (k a)) -> quiet dry (bind m k).
Proof.
  intros Hm Hk st. apply wp_bind.
  eapply wp_mono; [apply Hm|]. intros a st1 H1. cbv beta.
  eapply wp_mono; [apply Hk|]. intros b st2 H2.
  exact (ext_trans _ _ _ _ H1 H2).
Qed.

Lemma quiet_emit dry (e : Event) : tame dry e -> quiet (W:=W) dry (emit e).
Proof.
  intros He st. eexists tt, _. split; [reflexivity|].
  repeat split; simpl; try lia. exists [e]. split; [done|]. by constructor.
Qed.

Lemma quiet_log dry msg level : tame dry (EvLog msg level) -> quiet (W:=W) dry (log msg level).
Proof. apply quiet_emit. Qed.

Lemma quiet_subprocess_run dry (c : Cmd) :
  tame dry (EvRun c) -> quiet dry (subprocess_run c).
Proof.
  intros Hc st. unfold wp, subprocess_run.
  destruct (respond c (world st)) as [answer w'] eqn:E.
  eexists answer, _. split; [reflexivity|].
  repeat split; simpl; try lia. exists [EvRun c]. split; [done|]. by constructor.
Qed.

Lemma quiet_run_gh dry (c : GhCmd) :
  tame dry (EvRun (Gh c)) -> quiet (W:=W) dry (run_gh c).
Proof. exact (quiet_subprocess_run dry (Gh c)). Qed.

Lemma quiet_run_git dry (c : GitCmd) : quiet (W:=W) dry (run_git c).
Proof. exact (quiet_subprocess_run dry (Git c) I). Qed.

Lemma quiet_time_sleep dry seconds : 0 <= seconds -> quiet (W:=W) dry (time_sleep seconds).
Proof.
  intros Hs st. eexists tt, _. split; [reflexivity|].
  repeat split; simpl; try lia. exists [EvSleep seconds]. split; [done|].
  by constructor.
Qed.

Lemma quiet_time_time dry : quiet (W:=W) dry time_time.
Proof. intros st. eexists _, st. split; [reflexivity|]. apply ext_refl. Qed.

Lemma quiet_get_prs dry : quiet (W:=W) dry get_prs.
Proof. intros st. eexists _, st. split; [reflexivity|]. apply ext_refl. Qed.

Lemma quiet_get_merged dry : quiet (W:=W) dry get_merged.
Proof. intros st. eexists _, st. split; [reflexivity|]. apply ext_refl. Qed.

Lemma quiet_get_skipped dry : quiet (W:=W) dry get_skipped.
Proof. intros st. eexists _, st. split; [reflexivity|]. apply ext_refl. Qed.

End Laws.

(** Steps through a computation made of quiet parts. *)
Ltac quiet_step :=
  lazymatch goal with
  | |- quiet _ (bind _ _) => apply quiet_bind; [|intros ?]
  | |- quiet _ (ret _) => apply quiet_ret
  | |- quiet _ (log _ _) => apply quiet_log; exact I
  | |- quiet _ (emit _) => apply quiet_emit; exact I
  | |- quiet _ (run_gh _) => apply quiet_run_gh; first [exact I | reflexivity]
  | |- quiet _ (run_git _) => apply quiet_run_git
  | |- quiet _ (time_sleep _) => apply quiet_time_sleep; unfold poll_interval; lia
  | |- quiet _ time_time => apply quiet_time_time
  | |- quiet _ get_prs => apply quiet_get_prs
  | |- quiet _ get_merged => apply quiet_get_merged
  | |- quiet _ get_skipped => apply quiet_get_skipped
  | |- quiet _ (if ?b then _ else _) => destruct b
  | |- quiet _ (match ?x with _ => _ end) => destruct x
  end.

Ltac quiet_auto := repeat quiet_step.

Section Quiet.

Context {W : Type} `{Host W}.

Lemma quiet_check_gh_auth dry : quiet (W:=W) dry check_gh_auth.
Proof. unfold check_gh_auth. quiet_auto. Qed.

Lemma quiet_check_clean_working_tree dry : quiet (W:=W) dry check_clean_working_tree.
Proof. unfold check_clean_working_tree. quiet_auto. Qed.

Lemma quiet_fetch_origin dry : quiet (W:=W) dry fetch_origin.
Proof. unfold fetch_origin. quiet_auto. Qed.

Lemma quiet_get_pr_details dry n : quiet (W:=W) dry (get_pr_details n).
Proof. unfold get_pr_details. quiet_auto. Qed.

Lemma quiet_get_check_status dry n : quiet (W:=W) dry (get_check_status n).
Proof. unfold get_check_status. quiet_auto. Qed.

Lemma quiet_update_pr_branch dry n : quiet (W:=W) dry (update_pr_branch n).
Proof. unfold update_pr_branch. quiet_auto. Qed.

Lemma quiet_merge_pr dry n : quiet (W:=W) dry (merge_pr n dry).
Proof. unfold merge_pr. destruct dry; quiet_auto. Qed.

Lemma quiet_verify_main_health dry base verbose :
  quiet (W:=W) dry (verify_main_health base verbose).
Proof.
  unfold verify_main_health.
  apply quiet_bind; [apply quiet_fetch_origin|intros ?].
  quiet_auto.
Qed.

End Quiet.

(** ** The check poller returns *)

Section Poller.

Context {W : Type} `{Host W}.

Lemma time_sleep_run seconds (st : St W) :
  time_sleep seconds st
  = Some (tt, mkSt (world st) (clock st + seconds) (trace st ++ [EvSleep seconds])
                   (prs st) (merged st) (skipped st)).
Proof. reflexivity. Qed.

(** With [fuel] polls left and the clock at [clock st], the loop returns
    provided the polls left cover the time left. *)
Lemma wait_loop_quiet dry fuel n start tm verbose (st : St W) :
  (0 < fuel)%nat ->
  tm * 60 - (clock st - start) < poll_interval * (Z.of_nat fuel - 1) ->
  wp (wait_loop fuel n start tm verbose) (fun _ st' => ext dry st st') st.
Proof.
  revert st. induction fuel as [|fuel IH]; intros st Hpos Hleft; [lia|].
  cbn [wait_loop]. apply wp_bind. exists (clock st), st. split; [reflexivity|].
  destruct (tm * 60 <? clock st - start) eqn:Hover.
  { apply wp_ret, ext_refl. }
  apply Z.ltb_ge in Hover.
  apply wp_bind. eapply wp_mono; [apply (quiet_get_check_status dry)|].
  intros [status checks] st1 H1. cbv beta iota.
  destruct (Py.eq_str status "SUCCESS"); [by apply wp_ret|].
  destruct (Py.eq_str status "FAILURE"); [by apply wp_ret|].
  apply wp_bind.
  assert (Hlog : quiet (W:=W) dry
            (if verbose
             then log (MsgWaiting
                         (map CheckRun.name
                            (filter (fun c => Py.get_in (CheckRun.state c)
                                                ["PENDING"; "IN_PROGRESS"]%string = true)
                                    checks))
                         (tm * 60 - (clock st - start))) info
             else ret tt)) by quiet_auto.
  eapply wp_mono; [apply Hlog|]. intros [] st2 H2. cbv beta.
  apply wp_bind. eexists tt, _. split; [apply time_sleep_run|].
  assert (Hc : clock st + poll_interval <= clock st2 + poll_interval).
  { destruct H1 as (_ & _ & _ & Hc1 & _), H2 as (_ & _ & _ & Hc2 & _). lia. }
  eapply wp_mono.
  - apply IH; simpl; unfold poll_interval in *; lia.
  - intros r st3 H3. cbv beta in H3.
    eapply ext_trans; [exact H1|]. eapply ext_trans; [exact H2|].
    eapply ext_trans; [|exact H3].
    repeat split; simpl; unfold poll_interval; try lia.
    exists [EvSleep 30]. split; [done|]. by repeat constructor.
Qed.

Lemma polls_cover tm : tm * 60 < poll_interval * (Z.of_nat (polls tm) - 1).
Proof.
  unfold polls, poll_interval.
  destruct (Z.le_gt_cases 0 (tm * 60)) as [Hnn|Hneg].
  - pose proof (Z.mod_pos_bound (tm * 60) 30 ltac:(lia)) as Hmod.
    pose proof (Z.div_mod (tm * 60) 30 ltac:(lia)) as Hdiv.
    assert (0 <= tm * 60 / 30) by (apply Z.div_pos; lia).
    lia.
  - lia.
Qed.

Lemma quiet_wait_for_checks dry n tm verbose :
  quiet (W:=W) dry (wait_for_checks n tm verbose).
Proof.
  intros st. unfold wait_for_checks.
  apply wp_bind. exists (clock st), st. split; [reflexivity|].
  apply wait_loop_quiet.
  - unfold polls. lia.
  - pose proof (polls_cover tm). lia.
Qed.

End Poller.

(** ** One iteration touches one list *)

Section Iteration.

Context {W : Type} `{Host W}.

Lemma ext_after dry (st st' : St W) : ext dry st st' -> after dry st st' [] [].
Proof.
  intros (Hp & Hm & Hs & Hc & Ht). unfold after.
  rewrite Hp, Hm, Hs, !app_nil_r. done.
Qed.

Lemma after_trans dry (st1 st2 st3 : St W) dm1 ds1 dm2 ds2 :
  after dry st1 st2 dm1 ds1 -> after dry st2 st3 dm2 ds2 ->
  after dry st1 st3 (dm1 ++ dm2) (ds1 ++ ds2).
Proof.
  intros (Hm & Hs & Hp & Hr & Hc & evs & Ht & Hf)
         (Hm' & Hs' & Hp' & Hr' & Hc' & evs' & Ht' & Hf').
  unfold after. rewrite Hm', Hm, Hs', Hs, Hp', Hp, !app_assoc.
  split_and!; try done; try lia.
  { intros [-> ->]%app_eq_nil. by rewrite Hr', Hr. }
  exists (evs ++ evs'). split.
  - by rewrite Ht', Ht, app_assoc.
  - by apply Forall_app.
Qed.

Lemma gate_after dry i on_proceed {A : Type} (f : Flow A) (st st1 st' : St W) :
  after dry st st1 [] [] -> gate dry i on_proceed f st1 st' ->
  gate dry i on_proceed f st st'.
Proof.
  intros H1 H2. destruct f; simpl in *;
    exact (after_trans _ _ _ _ _ _ _ _ H1 H2).
Qed.

Lemma map_ident_set_reason msg i (l : list PR.t) :
  map ident (alter (PR.set_reason msg) i l) = map ident l.
Proof.
  revert i. induction l as [|pr l IH]; intros [|i]; simpl; try done.
  f_equal. apply IH.
Qed.

Lemma map_ident_set_result res i (l : list PR.t) :
  map ident (alter (PR.set_result res) i l) = map ident l.
Proof.
  revert i. induction l as [|pr l IH]; intros [|i]; simpl; try done.
  f_equal. apply IH.
Qed.

Lemma map_reason_set_result res i (l : list PR.t) :
  map PR.reason (alter (PR.set_result res) i l) = map PR.reason l.
Proof.
  revert i. induction l as [|pr l IH]; intros [|i]; simpl; try done.
  f_equal. apply IH.
Qed.

Lemma gated_bind_quiet dry i on_proceed {A B : Type} (m : M W A) (k : A -> M W (Flow B)) :
  quiet dry m -> (forall a, gated dry i on_proceed (k a)) ->
  gated dry i on_proceed (bind m k).
Proof.
  intros Hm Hk st. apply wp_bind.
  eapply wp_mono; [apply Hm|]. intros a st1 H1.
  eapply wp_mono; [apply Hk|]. intros f st2 H2.
  eapply gate_after; [apply ext_after, H1|exact H2].
Qed.

Lemma gated_proceed dry i {A : Type} (a : A) : gated (W:=W) dry i [] (ret (Proceed a)).
Proof. intros st. apply wp_ret. simpl. apply ext_after, ext_refl. Qed.

Lemma gated_skip dry i on_proceed {A : Type} msg (f : Flow A) :
  f = Continue \/ f = Break ->
  gated (W:=W) dry i on_proceed (skip i msg ;;; ret f).
Proof.
  intros Hf st. eexists f, _. split; [reflexivity|].
  assert (after dry st
            (mkSt (world st) (clock st) (trace st)
                  (alter (PR.set_reason msg) i (prs st)) (merged st) (skipped st ++ [i]))
            [] [i]) as Hskip.
  { unfold after. simpl. rewrite map_ident_set_reason, !app_nil_r.
    split_and!; try done; try lia. exists []. by rewrite app_nil_r. }
  by destruct Hf as [-> | ->].
Qed.

Lemma gated_merged dry i res :
  gated (W:=W) dry i [i] (set_result i res ;;; merged_append i ;;; ret (Proceed tt)).
Proof.
  intros st. eexists (Proceed tt), _. split; [reflexivity|].
  unfold gate, after. simpl.
  rewrite map_ident_set_result, map_reason_set_result, !app_nil_r.
  split_and!; try done; try lia. exists []. by rewrite app_nil_r.
Qed.

Lemma gated_and_then dry i on_proceed {A B : Type}
    (m : M W (Flow A)) (k : A -> M W (Flow B)) :
  gated dry i [] m -> (forall a, gated dry i on_proceed (k a)) ->
  gated dry i on_proceed (and_then m k).
Proof.
  intros Hm Hk st. unfold and_then. apply wp_bind.
  eapply wp_mono; [apply Hm|]. intros [a| |] st1 H1; simpl in H1.
  - eapply wp_mono; [apply Hk|]. intros f st2 H2.
    eapply gate_after; eauto.
  - by apply wp_ret.
  - by apply wp_ret.
Qed.

Lemma visit_and_then dry i {A B : Type} (m : M W (Flow A)) (k : A -> M W (Flow B)) :
  gated dry i [] m -> (forall a, visit dry i (k a)) -> visit dry i (and_then m k).
Proof.
  intros Hm Hk st. unfold and_then. apply wp_bind.
  eapply wp_mono; [apply Hm|]. intros [a| |] st1 H1; simpl in H1.
  - eapply wp_mono; [apply Hk|]. intros f st2 [H2|H2]; [left|right];
      exact (after_trans _ _ _ _ _ _ _ _ H1 H2).
  - apply wp_ret. by right.
  - apply wp_ret. by right.
Qed.

Lemma visit_last dry i {A B : Type} (m : M W (Flow A)) (k : A -> M W (Flow B)) :
  gated dry i [i] m -> (forall a, quiet dry (k a)) -> visit dry i (and_then m k).
Proof.
  intros Hm Hk st. unfold and_then. apply wp_bind.
  eapply wp_mono; [apply Hm|]. intros [a| |] st1 H1; simpl in H1.
  - eapply wp_mono; [apply Hk|]. intros f st2 H2. left.
    pose proof (after_trans _ _ _ _ _ _ _ _ H1 (ext_after _ _ _ H2)) as H3.
    by rewrite !app_nil_r in H3.
  - apply wp_ret. by right.
  - apply wp_ret. by right.
Qed.

End Iteration.

(** Steps through a block of the loop body. *)
Ltac gated_step :=
  lazymatch goal with
  | |- gated _ _ _ (bind (skip _ _) _) => apply gated_skip; auto
  | |- gated _ _ _ (bind (set_result _ _) _) => apply gated_merged
  | |- gated _ _ _ (ret (Proceed _)) => apply gated_proceed
  | |- gated _ _ _ (and_then _ _) => apply gated_and_then; [|intros ?]
  | |- gated _ _ _ (bind _ _) =>
      apply gated_bind_quiet;
      [first [apply quiet_get_pr_details | apply quiet_update_pr_branch
             | apply quiet_wait_for_checks | apply quiet_merge_pr
             | quiet_auto]
      |intros ?]
  | |- gated _ _ _ (if ?b then _ else _) => destruct b
  | |- gated _ _ _ (match ?x with _ => _ end) => destruct x
  end.

Section Blocks.

Context {W : Type} `{Host W}.

Lemma gated_triage dry i n : gated (W:=W) dry i [] (triage i n).
Proof. unfold triage. repeat gated_step. Qed.

Lemma gated_settle_merge_state dry args i n details :
  gated (W:=W) dry i [] (settle_merge_state args i n details).
Proof. unfold settle_merge_state. repeat gated_step. Qed.

Lemma gated_review_gate dry i details : gated (W:=W) dry i [] (review_gate i details).
Proof. unfold review_gate. repeat gated_step. Qed.

Lemma gated_checks_gate dry args i n : gated (W:=W) dry i [] (checks_gate args i n).
Proof. unfold checks_gate. repeat gated_step. Qed.

Lemma gated_readiness dry args i n : gated (W:=W) dry i [] (readiness args i n).
Proof.
  unfold readiness.
  apply gated_and_then; [apply gated_triage|intros details].
  apply gated_and_then; [apply gated_settle_merge_state|intros details'].
  apply gated_and_then; [apply gated_review_gate|intros _].
  apply gated_checks_gate.
Qed.

Lemma gated_merge_gate args i n :
  gated (W:=W) (dry_run args) i [i] (merge_gate args i n).
Proof. unfold merge_gate. repeat gated_step. Qed.

Lemma quiet_health_gate dry args i total : quiet (W:=W) dry (health_gate args i total).
Proof.
  unfold health_gate.
  apply quiet_bind; [quiet_auto|intros ?].
  apply quiet_bind; [apply quiet_verify_main_health|intros ?].
  quiet_auto.
Qed.

End Blocks.

(** ** The loop *)

Section Loop.

Context {W : Type} `{Host W}.

Lemma visit_bind_quiet dry i {A B : Type} (m : M W A) (k : A -> M W B) :
  quiet dry m -> (forall a, visit dry i (k a)) -> visit dry i (bind m k).
Proof.
  intros Hm Hk st. apply wp_bind.
  eapply wp_mono; [apply Hm|]. intros a st1 H1.
  eapply wp_mono; [apply Hk|]. intros b st2 [H2|H2]; [left|right];
    exact (after_trans _ _ _ _ _ _ _ _ (ext_after _ _ _ H1) H2).
Qed.

Lemma visited_app (tr1 tr2 : list Event) : visited (tr1 ++ tr2) = visited tr1 ++ visited tr2.
Proof. unfold visited. apply flat_map_app. Qed.

Lemma tame_safe dry e : tame dry e -> safe dry e.
Proof. destruct e as [[[]|]| |[]| | | | |]; simpl; tauto. Qed.

Lemma visited_tame dry (evs : list Event) : Forall (tame dry) evs -> visited evs = [].
Proof.
  induction 1 as [|e evs He _ IH]; [done|].
  unfold visited in *. simpl. rewrite IH.
  destruct e as [| |[]| | | | |]; simpl in *; tauto.
Qed.

Lemma visited_processing n i total level (evs : list Event) :
  visited (EvLog (MsgProcessing n i total) level :: evs) = n :: visited evs.
Proof. reflexivity. Qed.

Lemma numbers_at_ident (l l' : list PR.t) idxs :
  map ident l = map ident l' -> numbers_at l idxs = numbers_at l' idxs.
Proof.
  intros Heq. unfold numbers_at.
  change (ident <$> l = ident <$> l') in Heq.
  induction idxs as [|i idxs IH]; [done|].
  assert (ident <$> l !! i = ident <$> l' !! i) as Hi.
  { by rewrite <- !list_lookup_fmap, Heq. }
  simpl. destruct (l !! i) as [pr|], (l' !! i) as [pr'|]; simpl in *; try done.
  injection Hi as Hi _ _ _. rewrite Hi. f_equal. apply IH.
Qed.

(** An iteration at a position of the queue returns; it logs the position
    first, then puts it in exactly one of [merged] and [skipped]. *)
Lemma process_pr_visits args total idx pr (st : St W) :
  prs st !! idx = Some pr ->
  wp (process_pr args total idx)
     (fun _ st' =>
        exists dm ds evs,
          (dm = [idx] /\ ds = [] \/ dm = [] /\ ds = [idx]) /\
          merged st' = merged st ++ dm /\ skipped st' = skipped st ++ ds /\
          map ident (prs st') = map ident (prs st) /\
          clock st <= clock st' /\
          trace st' = trace st ++ EvLog (MsgProcessing (PR.number pr) (S idx) total) info :: evs /\
          Forall (tame (dry_run args)) evs) st.
Proof.
  intros Hpr. unfold process_pr.
  apply wp_bind. exists pr, st. split; [unfold deref; by rewrite Hpr|].
  apply wp_bind. eexists tt, _. split; [reflexivity|].
  set (st0 := mkSt _ _ _ _ _ _).
  assert (visit (W:=W) (dry_run args) idx
            (log (MsgTitle (PR.title pr)) info ;;;
             and_then (readiness args idx (PR.number pr)) (fun _ =>
             and_then (merge_gate args idx (PR.number pr)) (fun _ =>
             health_gate args (S idx) total)))) as Hvisit.
  { apply visit_bind_quiet; [quiet_auto|intros _].
    apply visit_and_then; [apply gated_readiness|intros _].
    apply visit_last; [apply gated_merge_gate|intros _].
    apply quiet_health_gate. }
  eapply wp_mono; [apply Hvisit|]. intros flow st' Hafter. cbv beta.
  assert (exists dm ds, (dm = [idx] /\ ds = [] \/ dm = [] /\ ds = [idx])
                        /\ after (dry_run args) st0 st' dm ds) as (dm & ds & Hone & Ha).
  { destruct Hafter as [Ha|Ha]; [exists [idx], []|exists [], [idx]]; auto. }
  destruct Ha as (Hm & Hs & Hp & _ & Hc & evs & Ht & Hf).
  exists dm, ds, evs. subst st0. simpl in *.
  rewrite <- app_assoc in Ht. done.
Qed.

Lemma lookup_numbers_at (l : list PR.t) idx pr idxs :
  l !! idx = Some pr -> numbers_at l (idx :: idxs) = PR.number pr :: numbers_at l idxs.
Proof. intros Hpr. unfold numbers_at. simpl. by rewrite Hpr. Qed.

Lemma merge_loop_looped args total todo (st : St W) :
  (forall i, i ∈ todo -> (i < length (prs st))%nat) ->
  wp (merge_loop args total todo) (fun k st' => looped (dry_run args) todo st k st') st.
Proof.
  revert st. induction todo as [|idx todo IH]; intros st Hin.
  { apply wp_ret. split; [done|]. exists [], [], [].
    rewrite !app_nil_r. repeat split; try done; lia. }
  destruct (lookup_lt_is_Some_2 (prs st) idx) as [pr Hpr].
  { apply Hin. by left. }
  cbn [merge_loop]. apply wp_bind.
  eapply wp_mono; [apply (process_pr_visits args total idx pr st Hpr)|].
  intros flow st1 (dm & ds & evs & Hone & Hm & Hs & Hp & Hc & Ht & Hf).
  assert (Hvis : visited (EvLog (MsgProcessing (PR.number pr) (S idx) total) info :: evs)
                 = [PR.number pr]).
  { by rewrite visited_processing, (visited_tame _ _ Hf). }
  assert (Hsafe : Forall (safe (dry_run args))
                    (EvLog (MsgProcessing (PR.number pr) (S idx) total) info :: evs)).
  { constructor; [exact I|]. eapply Forall_impl; [exact Hf|]. apply tame_safe. }
  assert (Hstop : looped (dry_run args) (idx :: todo) st 1 st1).
  { split; [simpl; lia|].
    exists dm, ds, (EvLog (MsgProcessing (PR.number pr) (S idx) total) info :: evs).
    rewrite firstn_cons, take_0.
    repeat split; try done.
    - destruct Hone as [[-> ->]|[-> ->]]; done.
    - rewrite Hvis. by rewrite (lookup_numbers_at _ _ _ _ Hpr). }
  assert (Hgo : wp (let* n := merge_loop args total todo in ret (S n))
                   (fun k st' => looped (dry_run args) (idx :: todo) st k st') st1).
  { apply wp_bind. eapply wp_mono.
    - apply IH. intros i Hi.
      assert (length (prs st1) = length (prs st)) as ->.
      { by rewrite <- (length_map ident), Hp, length_map. }
      apply Hin. by right.
    - intros k st2 (Hk & dm' & ds' & evs' & Hm' & Hs' & Hperm & Hp' & Hc' & Ht' & Hv' & Hf').
      apply wp_ret. split; [simpl; lia|].
      exists (dm ++ dm'), (ds ++ ds'),
        ((EvLog (MsgProcessing (PR.number pr) (S idx) total) info :: evs) ++ evs').
      rewrite Hm', Hm, Hs', Hs, Hp', Hp, Ht', Ht, <- !app_assoc.
      repeat split; try done; try lia.
      + rewrite firstn_cons.
        destruct Hone as [[-> ->]|[-> ->]]; simpl.
        * by constructor.
        * rewrite <- Permutation_middle. by constructor.
      + rewrite visited_app, Hvis, Hv', firstn_cons.
        rewrite (lookup_numbers_at _ _ _ _ Hpr). simpl. f_equal.
        by apply numbers_at_ident.
      + by apply Forall_app. }
  destruct flow; [exact Hgo|exact Hgo|by apply wp_ret].
Qed.

End Loop.

(** ** Discovery *)

Section Discovery.

Context {W : Type} `{Host W}.

Lemma insert_by_number_perm pr l : insert_by_number pr l ≡ₚ pr :: l.
Proof.
  induction l as [|q l IH]; simpl; [done|].
  destruct (PR.number pr <=? PR.number q); [done|].
  rewrite IH. apply Permutation_swap.
Qed.

Lemma sort_by_number_perm l : sort_by_number l ≡ₚ l.
Proof.
  induction l as [|pr l IH]; simpl; [done|].
  by rewrite insert_by_number_perm, IH.
Qed.

Lemma insert_by_number_sorted pr l :
  StronglySorted by_number l -> StronglySorted by_number (insert_by_number pr l).
Proof.
  induction 1 as [|q l Hl IH Hq]; simpl.
  { repeat constructor. }
  destruct (PR.number pr <=? PR.number q) eqn:Hle.
  - apply Z.leb_le in Hle. constructor; [by constructor|].
    constructor; [done|].
    eapply Forall_impl; [exact Hq|]. unfold by_number. intros; lia.
  - apply Z.leb_gt in Hle. constructor; [done|].
    rewrite insert_by_number_perm. constructor; [|done].
    unfold by_number. lia.
Qed.

Lemma sort_by_number_sorted l : StronglySorted by_number (sort_by_number l).
Proof.
  induction l as [|pr l IH]; simpl; [constructor|].
  by apply insert_by_number_sorted.
Qed.

Lemma insert_by_number_stable n pr l :
  filter (fun q => PR.number q = n) (insert_by_number pr l)
  = filter (fun q => PR.number q = n) (pr :: l).
Proof.
  induction l as [|q l IH]; simpl; [done|].
  destruct (Z.leb_spec (PR.number pr) (PR.number q)) as [Hle|Hgt]; [done|].
  rewrite filter_cons, IH, !filter_cons.
  repeat case_decide; try done; lia.
Qed.

(** The sort is stable: pull requests with the same number keep the order
    in which they were listed. *)
Lemma sort_by_number_stable n l :
  filter (fun q => PR.number q = n) (sort_by_number l)
  = filter (fun q => PR.number q = n) l.
Proof.
  induction l as [|pr l IH]; simpl; [done|].
  by rewrite insert_by_number_stable, !filter_cons, IH.
Qed.

Lemma filter_all {A : Type} (P : A -> Prop) `{forall x, Decision (P x)} (l : list A) :
  (forall x, P x) -> filter P l = l.
Proof.
  intros HP. induction l as [|x l IH]; [done|].
  by rewrite filter_cons_True, IH.
Qed.

(** The truth value of a string: the empty string is false. *)
Lemma truthy_nonempty (s : string) : Py.truthy s = true <-> s <> ""%string.
Proof.
  unfold Py.truthy, Py.eq_str. rewrite negb_true_iff. apply String.eqb_neq.
Qed.

Lemma truthy_label (label : string) :
  (if Py.truthy label then Some label else None) = label_option label.
Proof.
  unfold label_option. pose proof (truthy_nonempty label) as Hl.
  destruct (decide (label = ""%string)) as [->|Hne]; [done|].
  apply Hl in Hne. by rewrite Hne.
Qed.

(** The test of the session filter finds the label among the names of
    the labels of the pull request. *)
Lemma has_label_carries (s : string) (pr : PR.t) :
  has_label s pr = true <-> s ∈ PR.labels pr.
Proof.
  unfold has_label. induction (PR.labels pr) as [|lbl lbls IH]; simpl.
  - split; [done|]. by intros ?%elem_of_nil.
  - rewrite orb_true_iff, IH, elem_of_cons. unfold Py.eq_str.
    rewrite String.eqb_eq. split; intros [?|?]; [left|right|left|right]; done.
Qed.

Lemma filter_in_session session (found : list PR.t) :
  filter (in_session session) found
  = match session with
    | Some s => if Py.truthy s then filter (fun pr => has_label s pr = true) found
                else found
    | None => found
    end.
Proof.
  destruct session as [s|].
  - pose proof (truthy_nonempty s) as Hs. destruct (Py.truthy s).
    + apply list_filter_iff. intros pr. unfold in_session.
      rewrite has_label_carries. split; [|by right].
      intros [Hempty|?]; [|done]. exfalso. by apply Hs.
    + apply filter_all. intros pr. left.
      destruct (decide (s = ""%string)) as [?|Hne]; [done|].
      apply Hs in Hne. done.
  - by apply filter_all.
Qed.

(** [get_open_prs] asks the host once and returns [open_prs_of] its answer. *)
Lemma get_open_prs_run dry args (st : St W) :
  exists st1,
    get_open_prs (label args) (session args) (base args) st
    = Some (open_prs_of (session args) (listing args (world st)), st1)
    /\ prs st1 = prs st /\ merged st1 = merged st /\ skipped st1 = skipped st
    /\ clock st <= clock st1
    /\ exists evs,
         trace st1
         = trace st ++ EvRun (Gh (GhPrList "open" (base args)
                                     (label_option (label args)))) :: evs
         /\ Forall (tame dry) evs.
Proof.
  unfold get_open_prs. rewrite truthy_label.
  unfold open_prs_of, listing, listed, bind, run_gh, subprocess_run.
  destruct (respond _ (world st)) as [[code out err] w']. cbn.
  destruct (code =? 0); cbn.
  - destruct out as [found|]; cbn.
    + rewrite filter_in_session. eexists. split; [reflexivity|].
      repeat split; simpl; try lia. by exists [].
    + eexists. split; [reflexivity|].
      repeat split; simpl; try lia. eexists [_]. rewrite <- app_assoc.
      split; [done|]. by repeat constructor.
  - eexists. split; [reflexivity|].
    repeat split; simpl; try lia. eexists [_]. rewrite <- app_assoc.
    split; [done|]. by repeat constructor.
Qed.

Lemma apply_limit_nil limit : snd (apply_limit limit []) = [].
Proof.
  destruct limit as [n|]; simpl; [|done].
  destruct (_ && _); [|done].
  unfold Py.slice_to. cbn [snd]. destruct (0 <=? n); apply take_nil.
Qed.

Lemma numbers_at_seq (l : list PR.t) a k :
  (a + k <= length l)%nat ->
  numbers_at l (seq a k) = take k (drop a (map PR.number l)).
Proof.
  revert a. induction k as [|k IH]; intros a Hk; [done|].
  destruct (lookup_lt_is_Some_2 l a) as [pr Hpr]; [lia|].
  cbn [seq]. rewrite (lookup_numbers_at _ _ _ _ Hpr), IH by lia.
  assert (map PR.number l !! a = Some (PR.number pr)) as Hn.
  { change (map PR.number l) with (PR.number <$> l).
    by rewrite list_lookup_fmap, Hpr. }
  by rewrite (drop_S _ _ _ Hn).
Qed.

End Discovery.

(** ** The session *)

Section Concluding.

Context {W : Type} `{Host W}.

Lemma mapM_rows (row : nat -> M W (Z * string)) (l : list nat) (st : St W) :
  (forall i, i ∈ l -> exists r, row i st = Some (r, st)) ->
  exists rows, mapM row l st = Some (rows, st).
Proof.
  induction l as [|i l IH]; intros Hrow; simpl.
  { by exists []. }
  destruct (Hrow i) as [r Hr]; [by left|].
  destruct IH as [rows Hrows]; [intros j Hj; apply Hrow; by right|].
  exists (r :: rows). unfold bind. by rewrite Hr, Hrows.
Qed.

Lemma merged_row_run i (st : St W) :
  (i < length (prs st))%nat -> exists r, merged_row i st = Some (r, st).
Proof.
  intros Hi. destruct (lookup_lt_is_Some_2 _ _ Hi) as [pr Hpr].
  eexists. unfold merged_row, bind, deref. by rewrite Hpr.
Qed.

Lemma skipped_row_run i (st : St W) :
  (i < length (prs st))%nat -> exists r, skipped_row i st = Some (r, st).
Proof.
  intros Hi. destruct (lookup_lt_is_Some_2 _ _ Hi) as [pr Hpr].
  eexists. unfold skipped_row, bind, deref. by rewrite Hpr.
Qed.

Lemma still_emit dry (e : Event) (st : St W) :
  tame dry e ->
  wp (emit e) (fun _ st' => world st' = world st /\ ext dry st st') st.
Proof.
  intros He. eexists tt, _. split; [reflexivity|]. split; [reflexivity|].
  repeat split; simpl; try lia. exists [e]. split; [done|]. by constructor.
Qed.

Lemma generate_report_run dry report_dir (st : St W) :
  (forall i, i ∈ merged st ++ skipped st -> (i < length (prs st))%nat) ->
  wp (generate_report report_dir)
     (fun written st' =>
        written = writable report_dir (world st) /\ world st' = world st /\
        ext dry st st') st.
Proof.
  intros Hin.
  destruct (mapM_rows merged_row (merged st) st) as [mrows Hm].
  { intros i Hi. apply merged_row_run, Hin, elem_of_app. by left. }
  destruct (mapM_rows skipped_row (skipped st) st) as [srows Hs].
  { intros i Hi. apply skipped_row_run, Hin, elem_of_app. by right. }
  destruct (writable report_dir (world st)) eqn:Hw.
  - eexists true, _. split.
    { unfold generate_report, bind, get_prs, get_merged, get_skipped, write_text.
      rewrite Hm, Hs, Hw. reflexivity. }
    split; [done|]. split; [done|].
    repeat split; simpl; try lia. eexists [_]. split; [done|]. by repeat constructor.
  - eexists false, st. split.
    { unfold generate_report, bind, get_prs, get_merged, get_skipped, write_text.
      rewrite Hm, Hs, Hw. reflexivity. }
    split; [done|]. split; [done|]. apply ext_refl.
Qed.

Lemma conclude_run dry report_dir started (st : St W) :
  (forall i, i ∈ merged st ++ skipped st -> (i < length (prs st))%nat) ->
  wp (conclude report_dir started)
     (fun r st' =>
        r = (if writable report_dir (world st)
             then exit_code (merged st) (skipped st) else 1, started) /\
        world st' = world st /\ ext dry st st') st.
Proof.
  intros Hin. unfold conclude.
  apply wp_bind. eapply wp_mono; [apply (still_emit dry); exact I|].
  intros [] st1 (Hw1 & H1).
  assert (E1 : prs st1 = prs st /\ merged st1 = merged st /\ skipped st1 = skipped st).
  { destruct H1 as (? & ? & ? & _). done. }
  destruct E1 as (Ep1 & Em1 & Es1).
  apply wp_bind. eapply wp_mono.
  { apply (generate_report_run dry). by rewrite Ep1, Em1, Es1. }
  intros written st2 (-> & Hw2 & H2). cbv beta.
  rewrite Hw1.
  pose proof (ext_trans _ _ _ _ H1 H2) as H12.
  destruct (writable report_dir (world st)); cbn [negb].
  2:{ apply wp_bind. eapply wp_mono; [apply (still_emit dry); exact I|].
      intros [] st3 (Hw3 & H3). apply wp_ret.
      split; [done|]. split; [congruence|]. exact (ext_trans _ _ _ _ H12 H3). }
  apply wp_bind. eapply wp_mono; [apply (still_emit dry); exact I|].
  intros [] st3 (Hw3 & H3).
  pose proof (ext_trans _ _ _ _ H12 H3) as H13.
  assert (E3 : prs st3 = prs st /\ merged st3 = merged st /\ skipped st3 = skipped st).
  { destruct H13 as (? & ? & ? & _). done. }
  destruct E3 as (Ep3 & Em3 & Es3).
  apply wp_bind. exists (merged st3), st3. split; [reflexivity|].
  apply wp_bind. exists (skipped st3), st3. split; [reflexivity|].
  apply wp_bind. eapply wp_mono; [apply (still_emit dry); exact I|].
  intros [] st4 (Hw4 & H4).
  pose proof (ext_trans _ _ _ _ H13 H4) as H14.
  assert (E4 : prs st4 = prs st /\ skipped st4 = skipped st).
  { destruct H14 as (? & ? & ? & _). done. }
  destruct E4 as (Ep4 & Es4).
  apply wp_bind.
  assert (wp (if Py.nonempty (skipped st3)
              then log MsgSkippedHeader warn ;;;
                   (let* rows := mapM skipped_row (skipped st3) in emit (EvSkipped rows))
              else ret tt)
             (fun _ st' => world st' = world st4 /\ ext dry st4 st') st4) as Hlist.
  { destruct (Py.nonempty (skipped st3)); [|by apply wp_ret; split; [|apply ext_refl]].
    apply wp_bind. eapply wp_mono; [apply (still_emit dry); exact I|].
    intros [] st5 (Hw5 & H5).
    assert (E5 : prs st5 = prs st /\ skipped st3 = skipped st).
    { destruct H5 as (-> & _). done. }
    destruct E5 as (Ep5 & Es5).
    destruct (mapM_rows skipped_row (skipped st3) st5) as [rows Hrows].
    { intros i Hi. apply skipped_row_run. rewrite Ep5. apply Hin, elem_of_app.
      right. by rewrite <- Es5. }
    apply wp_bind. exists rows, st5. split; [done|].
    eapply wp_mono; [apply (still_emit dry); exact I|].
    intros [] st6 (Hw6 & H6). split; [congruence|]. exact (ext_trans _ _ _ _ H5 H6). }
  eapply wp_mono; [exact Hlist|]. intros [] st5 (Hw5 & H5).
  apply wp_ret. split; [by rewrite Em3, Es3|].
  split; [congruence|].
  exact (ext_trans _ _ _ _ H14 H5).
Qed.

End Concluding.

Section Sessions.

Context {W : Type} `{Host W}.

Lemma tame_all_safe dry (evs : list Event) : Forall (tame dry) evs -> Forall (safe dry) evs.
Proof. intros Hf. eapply Forall_impl; [exact Hf|]. apply tame_safe. Qed.

(** A session returns, whatever the host answers. *)
Lemma merge_session_concluded args (st : St W) :
  fresh st ->
  wp (merge_session args) (fun r st' => concluded args st r st') st.
Proof.
  intros (Hprs & Hmerged & Hskipped). unfold merge_session.
  set (dry := dry_run args).
  apply wp_bind. eexists tt, _. split; [reflexivity|].
  set (st0 := mkSt _ _ _ _ _ _).
  destruct (get_open_prs_run dry args st0)
    as (st1 & Hrun & Hp1 & Hm1 & Hs1 & Hc1 & evs1 & Ht1 & Hf1).
  apply wp_bind. eexists _, st1. split; [exact Hrun|].
  change (world st0) with (world st).
  unfold concluded, queue_of.
  destruct (open_prs_of (session args) (listing args (world st))) as [|pr found] eqn:Hfound.
  { apply wp_bind. eapply wp_mono; [apply (quiet_log dry); exact I|].
    intros [] st2 (Hp2 & Hm2 & Hs2 & Hc2 & evs2 & Ht2 & Hf2).
    apply wp_ret. rewrite apply_limit_nil. cbn [fst snd].
    rewrite Hp2, Hm2, Hs2, Hp1, Hm1, Hs1. subst st0. simpl in *.
    rewrite Hprs, Hmerged, Hskipped.
    split_and!; try done; try lia.
    exists (evs1 ++ evs2). rewrite Ht2, Ht1, <- !app_assoc. split; [done|].
    rewrite visited_app, (visited_tame _ _ Hf1), (visited_tame _ _ Hf2).
    split; [done|]. apply Forall_app. split; by apply tame_all_safe. }
  destruct (apply_limit (limit args) (pr :: found)) as [limited queue].
  cbn [snd].
  apply wp_bind.
  assert (quiet (W:=W) dry
            (if limited
             then log (MsgLimiting (default 0 (limit args)) (length (pr :: found))) info
             else ret tt)) as Hlimiting by quiet_auto.
  eapply wp_mono; [apply Hlimiting|].
  intros [] st2 (Hp2 & Hm2 & Hs2 & Hc2 & evs2 & Ht2 & Hf2).
  apply wp_bind. eexists tt, _. split; [reflexivity|].
  apply wp_bind. eexists tt, _. split; [reflexivity|].
  apply wp_bind. eexists tt, _. split; [reflexivity|].
  set (st3 := mkSt _ _ _ _ _ _).
  apply wp_bind. eapply wp_mono.
  { apply (merge_loop_looped args (length queue) (seq 0 (length queue)) st3).
    intros i Hi. apply elem_of_seq in Hi. simpl. lia. }
  intros k st4 (Hk & dm & ds & evs & Hm4 & Hs4 & Hperm & Hp4 & Hc4 & Ht4 & Hv4 & Hf4).
  rewrite length_seq in Hk.
  rewrite take_seq, Nat.min_l in Hperm, Hv4 by done.
  subst st3. simpl in Hm4, Hs4, Hp4, Hc4, Ht4, Hv4.
  rewrite numbers_at_seq, drop_0 in Hv4 by (simpl; lia).
  eapply wp_mono.
  { apply (conclude_run dry (report_dir args) k st4). intros i Hi.
    rewrite Hm4, Hs4, Hperm in Hi. apply elem_of_seq in Hi.
    assert (length (prs st4) = length queue) as ->; [|lia].
    by rewrite <- (length_map ident), Hp4, length_map. }
  intros r st5 (-> & Hw5 & Hp5 & Hm5 & Hs5 & Hc5 & evs5 & Ht5 & Hf5).
  cbn [fst snd outcome]. rewrite Hw5, Hp5, Hm5, Hs5, Hm4, Hs4.
  subst st0. simpl in *.
  split_and!; try done; try lia.
  exists (evs1 ++ evs2 ++ [EvPlan (map PR.number queue)] ++ evs ++ evs5).
  split; [by rewrite Ht5, Ht4, Ht2, Ht1, <- !app_assoc|].
  rewrite !visited_app, (visited_tame _ _ Hf1), (visited_tame _ _ Hf2),
    (visited_tame _ _ Hf5), Hv4, app_nil_r.
  split; [done|].
  repeat (apply Forall_app; split); try by apply tame_all_safe.
  - by repeat constructor.
  - done.
Qed.

(** A session that discovers nothing leaves both lists empty. *)
Lemma nothing_found_nothing_listed args (st : St W) (r : Z * nat) (st' : St W) :
  concluded args st r st' ->
  open_prs_of (session args) (listing args (world st)) = [] ->
  merged st' = [] /\ skipped st' = [].
Proof.
  unfold concluded, queue_of.
  intros (_ & Hk & Hperm & _) Hfound. rewrite Hfound, apply_limit_nil in Hk.
  simpl in Hk. assert (r.2 = O) as Hr by lia. rewrite Hr in Hperm. simpl in Hperm.
  apply Permutation_nil_r in Hperm. apply app_eq_nil in Hperm as [-> ->]. done.
Qed.

(** [main] returns: either a preflight check failed and nothing else
    happened, or the session ran from the state the preflight left. *)
Lemma main_concluded args (st : St W) :
  fresh st ->
  wp (main args)
     (fun r st' =>
        (r = (1, O) /\ ext (dry_run args) st st') \/
        (exists st1, ext (dry_run args) st st1 /\ concluded args st1 r st')) st.
Proof.
  intros Hfresh. unfold main.
  assert (forall {A} (m : M W A) (k : A -> M W (Z * nat)) (st0 : St W),
            ext (dry_run args) st st0 -> quiet (dry_run args) m ->
            (forall a st1, ext (dry_run args) st st1 ->
               wp (k a) (fun r st' =>
                  (r = (1, O) /\ ext (dry_run args) st st') \/
                  (exists st1, ext (dry_run args) st st1 /\ concluded args st1 r st')) st1) ->
            wp (bind m k) (fun r st' =>
                  (r = (1, O) /\ ext (dry_run args) st st') \/
                  (exists st1, ext (dry_run args) st st1 /\ concluded args st1 r st')) st0) as Hstep.
  { intros A m k st0 H0 Hm Hk. apply wp_bind.
    eapply wp_mono; [apply Hm|]. intros a st1 H1. apply Hk.
    exact (ext_trans _ _ _ _ H0 H1). }
  assert (forall st0 : St W, ext (dry_run args) st st0 ->
            wp (ret (1, O)) (fun r st' =>
                  (r = (1, O) /\ ext (dry_run args) st st') \/
                  (exists st1, ext (dry_run args) st st1 /\ concluded args st1 r st')) st0) as Hfail.
  { intros st0 H0. apply wp_ret. by left. }
  apply Hstep; [apply ext_refl| |].
  { assert (forall dry, quiet (W:=W) dry (if dry_run args then log MsgDryRunMode warn
                                         else ret tt)) as Hbanner by (intros; quiet_auto).
    apply Hbanner. }
  intros _ st1 H1. apply Hstep; [done|quiet_auto|].
  intros _ st2 H2. apply Hstep; [done|apply quiet_check_gh_auth|].
  intros [] st3 H3; cbn [negb].
  2:{ apply Hstep; [done|quiet_auto|]. intros _ st4 H4. by apply Hfail. }
  apply Hstep; [done|quiet_auto|].
  intros _ st4 H4. apply Hstep; [done|apply quiet_check_clean_working_tree|].
  intros [] st5 H5; cbn [negb].
  2:{ apply Hstep; [done|quiet_auto|]. intros _ st6 H6. by apply Hfail. }
  apply Hstep; [done|quiet_auto|].
  intros _ st6 H6. apply Hstep; [done|apply quiet_fetch_origin|].
  intros [] st7 H7; cbn [negb].
  2:{ apply Hstep; [done|quiet_auto|]. intros _ st8 H8. by apply Hfail. }
  apply Hstep; [done|quiet_auto|].
  intros _ st8 H8.
  eapply wp_mono.
  { apply merge_session_concluded.
    destruct Hfresh as (? & ? & ?), H8 as (? & ? & ? & _).
    unfold fresh. split_and!; congruence. }
  intros r st9 H9. right. by exists st8.
Qed.

End Sessions.

(** * Properties of the session *)

Section Claims.

Context {W : Type} `{Host W}.

(** ** Running a block *)

Lemma log_then {A : Type} msg level (m : M W A) (st : St W) :
  (log msg level ;;; m) st = m (logged (EvLog msg level) st).
Proof. reflexivity. Qed.

Lemma and_then_proceed {A B : Type} (m : M W (Flow A)) (k : A -> M W (Flow B)) st a st' :
  m st = Some (Proceed a, st') -> and_then m k st = k a st'.
Proof. intros Hm. unfold and_then, bind. by rewrite Hm. Qed.

Lemma and_then_continue {A B : Type} (m : M W (Flow A)) (k : A -> M W (Flow B)) st st' :
  m st = Some (Continue, st') -> and_then m k st = Some (Continue, st').
Proof. intros Hm. unfold and_then, bind. by rewrite Hm. Qed.

Lemma and_then_break {A B : Type} (m : M W (Flow A)) (k : A -> M W (Flow B)) st st' :
  m st = Some (Break, st') -> and_then m k st = Some (Break, st').
Proof. intros Hm. unfold and_then, bind. by rewrite Hm. Qed.

(** ** Preflight *)

Lemma world_preflighted (args : Args) (st : St W) :
  world (preflighted args st) = after_preflight (world st).
Proof. unfold preflighted. by destruct (dry_run args). Qed.

Lemma ret_then {A B : Type} (a : A) (m : M W B) (st : St W) : (ret a ;;; m) st = m st.
Proof. reflexivity. Qed.

Lemma check_gh_auth_run (st : St W) :
  check_gh_auth st
  = Some (returncode (fst (respond (Gh GhAuthStatus) (world st))) =? 0,
          ran (Gh GhAuthStatus) st).
Proof.
  unfold check_gh_auth, bind, run_gh, subprocess_run, ran, ret.
  by destruct (respond (Gh GhAuthStatus) (world st)) as [[code out err] w'].
Qed.

Lemma check_clean_working_tree_run (st : St W) :
  check_clean_working_tree st
  = Some ((returncode (fst (respond (Git GitStatusPorcelain) (world st))) =? 0)
          && Py.eq_str (Py.strip (stdout (fst (respond (Git GitStatusPorcelain) (world st)))))
                       "",
          ran (Git GitStatusPorcelain) st).
Proof.
  unfold check_clean_working_tree, bind, run_git, subprocess_run, ran, ret.
  by destruct (respond (Git GitStatusPorcelain) (world st)) as [[code out err] w'].
Qed.

Lemma fetch_origin_run (st : St W) :
  fetch_origin st
  = Some (returncode (fst (respond (Git GitFetchOrigin) (world st))) =? 0,
          ran (Git GitFetchOrigin) st).
Proof.
  unfold fetch_origin, bind, run_git, subprocess_run, ran, ret.
  by destruct (respond (Git GitFetchOrigin) (world st)) as [[code out err] w'].
Qed.

(** When the preflight checks pass, [main] is the session run from the
    state the checks leave. *)
Lemma main_preflighted (args : Args) (st : St W) :
  preflight_passes (world st) -> main args st = merge_session args (preflighted args st).
Proof.
  unfold preflight_passes, after_status, after_auth.
  intros (Hauth & Hstatus & Hclean & Hfetch).
  assert (forall s : St W, world s = world st ->
            check_gh_auth s = Some (true, ran (Gh GhAuthStatus) s)) as Hgh.
  { intros s Hs. by rewrite check_gh_auth_run, Hs, Hauth. }
  assert (forall s : St W, world s = snd (respond (Gh GhAuthStatus) (world st)) ->
            check_clean_working_tree s = Some (true, ran (Git GitStatusPorcelain) s)) as Hct.
  { intros s Hs. by rewrite check_clean_working_tree_run, Hs, Hstatus, Hclean. }
  assert (forall s : St W,
            world s = snd (respond (Git GitStatusPorcelain)
                             (snd (respond (Gh GhAuthStatus) (world st)))) ->
            fetch_origin s = Some (true, ran (Git GitFetchOrigin) s)) as Hfo.
  { intros s Hs. by rewrite fetch_origin_run, Hs, Hfetch. }
  unfold main, preflighted.
  destruct (dry_run args).
  all: rewrite ?ret_then, ?log_then.
  all: unfold bind at 1; rewrite Hgh by reflexivity; cbn [negb]; rewrite log_then.
  all: unfold bind at 1; rewrite Hct by reflexivity; cbn [negb]; rewrite log_then.
  all: unfold bind at 1; rewrite Hfo by reflexivity; cbn [negb]; rewrite log_then.
  all: reflexivity.
Qed.

Lemma session_after_preflight (args : Args) (w : W) (now : Z) :
  preflight_passes w ->
  exists r st',
    main args (initial w now) = Some (r, st') /\
    concluded args (preflighted args (initial w now)) r st'.
Proof.
  intros Hpass. rewrite (main_preflighted args (initial w now) Hpass).
  destruct (merge_session_concluded args (preflighted args (initial w now)))
    as (r & st' & Hrun & Hpost).
  { unfold preflighted. by destruct (dry_run args). }
  by exists r, st'.
Qed.


(** C1. For every session, [merged] and [skipped] are disjoint and the
    positions found in either list are exactly the first [k] positions of
    the queue, where [k] is the number of iterations the loop started
    before it halted: every queued item from position [k] on is in neither
    list. The run from a fresh state always returns. *)
Theorem merged_skipped_prefix (args : Args) (w : W) (now : Z) :
  exists code k st',
    main args (initial w now) = Some ((code, k), st') /\
    (k <= length (prs st'))%nat /\
    NoDup (merged st') /\ NoDup (skipped st') /\
    (forall i, i ∈ merged st' -> i ∉ skipped st') /\
    (forall i, (i ∈ merged st' \/ i ∈ skipped st') <-> (i < k)%nat) /\
    (forall i, (k <= i)%nat -> (i ∉ merged st') /\ (i ∉ skipped st')).
Proof.
  destruct (main_concluded args (initial w now)) as ([code k] & st' & Hrun & Hpost).
  { done. }
  exists code, k, st'. split; [exact Hrun|].
  assert (k <= length (prs st') /\ merged st' ++ skipped st' ≡ₚ seq 0 k)%nat
    as [Hk Hperm].
  { destruct Hpost as [[Hr (Hp & Hm & Hs & _)]|(st1 & _ & Hp & Hk & Hperm & _)].
    - injection Hr as _ ->. rewrite Hm, Hs. simpl. split; [lia|done].
    - cbn [snd] in *. split; [|done].
      by rewrite <- (length_map ident), Hp, length_map. }
  assert (NoDup (merged st' ++ skipped st')) as Hnodup.
  { rewrite Hperm. apply NoDup_seq. }
  apply NoDup_app in Hnodup as (Hnm & Hdisj & Hns).
  assert (forall i, (i ∈ merged st' \/ i ∈ skipped st') <-> (i < k)%nat) as Hrange.
  { intros i. rewrite <- elem_of_app, Hperm, elem_of_seq. lia. }
  split_and!; try done.
  intros i Hi. split; intros Hin.
  - assert (i < k)%nat by (apply Hrange; by left). lia.
  - assert (i < k)%nat by (apply Hrange; by right). lia.
Qed.

(** For every run of [main] whose preflight checks pass and whose report
    is written, the exit status is 0 if every discovered item was merged
    and none was skipped, 1 if nothing was merged and at least one item
    was skipped, and 2 if some items were merged and some were skipped.
    The run always returns. *)
Lemma exit_status_mapping (args : Args) (w : W) (now : Z) :
  preflight_passes w ->
  exists code k st',
    main args (initial w now) = Some ((code, k), st') /\
    (writable (report_dir args) (world st') = true ->
     ((forall i, (i < length (prs st'))%nat -> i ∈ merged st') /\ skipped st' = [] ->
      code = 0) /\
     (merged st' = [] /\ skipped st' <> [] -> code = 1) /\
     (merged st' <> [] /\ skipped st' <> [] -> code = 2)).
Proof.
  intros Hpass.
  destruct (session_after_preflight args w now Hpass) as ([code k] & st' & Hrun & Hpost).
  exists code, k, st'. split; [exact Hrun|]. intros Hwritten.
  pose proof (nothing_found_nothing_listed _ _ _ _ Hpost) as Hnone.
  destruct Hpost as (_ & _ & _ & Hcode & _). cbn [fst] in Hcode. rewrite Hcode.
  unfold outcome.
  destruct (open_prs_of _ _) as [|pr found].
  - destruct Hnone as [-> ->]; [done|]. split_and!; intros [? ?]; done.
  - rewrite Hwritten. unfold exit_code.
    destruct (merged st'), (skipped st'); simpl; split_and!; intros [? ?]; done.
Qed.

(** ** Checks and reviews *)

Lemma is_failure_failed c : is_failure c = true <-> failed c.
Proof.
  unfold is_failure, failed, Py.get_in, Py.get_eq, Py.eq_str. simpl.
  destruct (CheckRun.conclusion c) as [s|]; simpl.
  - rewrite !orb_true_iff, !String.eqb_eq. split.
    + intros [->|[->|[->|[->|?]]]]; auto. done.
    + intros [?|[?|[?|?]]]; simplify_eq; auto.
  - split; [done|]. intros [?|[?|[?|?]]]; done.
Qed.

Lemma is_pending_pending c : is_pending c = true <-> pending c.
Proof.
  unfold is_pending, pending, Py.get_eq, Py.eq_str.
  destruct (CheckRun.state c) as [s|]; simpl.
  - rewrite orb_true_iff, !String.eqb_eq. split.
    + intros [->| ->]; auto.
    + intros [?|?]; simplify_eq; auto.
  - split; [done|]. intros [?|?]; done.
Qed.

Lemma existsb_Exists {A : Type} (f : A -> bool) (P : A -> Prop) (l : list A) :
  (forall a, f a = true <-> P a) -> existsb f l = true <-> Exists P l.
Proof.
  intros Hf. induction l as [|a l IH]; simpl.
  - split; [done|]. by intros ?%Exists_nil.
  - rewrite orb_true_iff, Exists_cons, IH, Hf. done.
Qed.

Lemma aggregate_follows_rule checks : aggregate_rule checks (aggregate checks).1.
Proof.
  unfold aggregate_rule, aggregate.
  destruct checks as [|c checks]; [by split_and!|].
  pose proof (existsb_Exists is_failure failed (c :: checks) is_failure_failed) as Hf.
  pose proof (existsb_Exists is_pending pending (c :: checks) is_pending_pending) as Hp.
  destruct (existsb is_failure (c :: checks)), (existsb is_pending (c :: checks));
    cbn [fst]; split_and!; try done; intros _.
  all: try (intros Hno; exfalso; apply Hno, Hf; done).
  all: try (intros _ Hno; exfalso; apply Hno, Hp; done).
  all: try (intros _ Hyes; apply Hp in Hyes; done).
  all: try (intros Hyes; apply Hf in Hyes; done).
Qed.

Lemma aggregate_checks checks : (aggregate checks).2 = checks.
Proof.
  unfold aggregate. destruct checks as [|c checks]; [done|].
  by destruct (existsb is_failure (c :: checks)), (existsb is_pending (c :: checks)).
Qed.

(** C5. For every set of check runs that the host returns, the aggregate
    status is SUCCESS when the set is empty; otherwise FAILURE when some
    conclusion is FAILURE, ERROR, CANCELLED or TIMED_OUT (whatever is still
    pending); otherwise PENDING when some state is PENDING or IN_PROGRESS;
    otherwise SUCCESS. *)
Theorem check_status_aggregate (pr_number : Z) (st : St W) (checks : list CheckRun.t) :
  returncode (checks_answer pr_number (world st)) = 0 ->
  stdout (checks_answer pr_number (world st)) = Some checks ->
  exists status,
    get_check_status pr_number st
    = Some ((status, checks), ran (Gh (GhPrChecks pr_number)) st) /\
    aggregate_rule checks status.
Proof.
  unfold checks_answer. intros Hcode Hout.
  exists (aggregate checks).1. split; [|apply aggregate_follows_rule].
  unfold get_check_status, bind, run_gh, subprocess_run, ran.
  destruct (respond (Gh (GhPrChecks pr_number)) (world st)) as [[code out err] w'].
  cbn in *. subst code out. cbn.
  unfold ret. by rewrite (surjective_pairing (aggregate checks)), aggregate_checks.
Qed.

Lemma readiness_run {B : Type} (args : Args) (idx : nat) (n : Z)
    (k : unit -> M W (Flow B)) (st0 st1 : St W) (details : Details.t) :
  and_then (triage idx n) (settle_merge_state args idx n) st0 = Some (Proceed details, st1) ->
  and_then (readiness args idx n) k st0
  = and_then (review_gate idx details) (fun _ => and_then (checks_gate args idx n) k) st1.
Proof.
  unfold readiness, and_then at 1 2 3 4 5, bind at 1 2 3 4 5.
  destruct (triage idx n st0) as [[[d| |] stA]|]; try done.
  destruct (settle_merge_state args idx n d stA) as [[[d'| |] stB]|]; try done.
  intros [= -> ->]. unfold and_then, bind.
  destruct (review_gate idx details st1) as [[[[]| |] stC]|]; try done.
Qed.

(** C6. For every snapshot of a pull request that reaches the review
    block, the block skips the item and ends the loop when the decision is
    CHANGES_REQUESTED or REVIEW_REQUIRED, and the iteration goes on to the
    status checks, with nothing recorded, when the decision is APPROVED or
    when there is none. *)
Theorem review_decision_gate (args : Args) (total idx : nat) (pr : PR.t)
    (st st1 : St W) (details : Details.t) :
  prs st !! idx = Some pr ->
  and_then (triage idx (PR.number pr)) (settle_merge_state args idx (PR.number pr))
    (logged (EvLog (MsgTitle (PR.title pr)) info)
       (logged (EvLog (MsgProcessing (PR.number pr) (S idx) total) info) st))
  = Some (Proceed details, st1) ->
  (blocking details ->
   exists msg,
     check_review_approval details = (false, msg) /\
     let st' := skipping idx msg (logged (EvLog (MsgReviewFailed msg) error) st1) in
     process_pr args total idx st = Some (Break, st') /\
     forall todo, merge_loop args total (idx :: todo) st = Some (1%nat, st')) /\
  (approved_or_undecided details ->
   exists msg,
     check_review_approval details = (true, msg) /\
     process_pr args total idx st
     = and_then (checks_gate args idx (PR.number pr))
         (fun _ => and_then (merge_gate args idx (PR.number pr))
                     (fun _ => health_gate args (S idx) total))
         (logged (EvLog (MsgOk msg) success) st1)).
Proof.
  intros Hpr Hready.
  assert (process_pr args total idx st
          = and_then (review_gate idx details)
              (fun _ => and_then (checks_gate args idx (PR.number pr))
                          (fun _ => and_then (merge_gate args idx (PR.number pr))
                                      (fun _ => health_gate args (S idx) total))) st1)
    as Hrun.
  { unfold process_pr, bind at 1, deref. rewrite Hpr, !log_then.
    by apply readiness_run. }
  unfold blocking, approved_or_undecided. split.
  - intros Hblock.
    assert (exists msg, check_review_approval details = (false, msg) /\
                        review_gate idx details st1
                        = Some (Break, skipping idx msg
                                         (logged (EvLog (MsgReviewFailed msg) error) st1)))
      as (msg & Hmsg & Hgate).
    { unfold review_gate, check_review_approval.
      destruct Hblock as [-> | ->]; simpl; eexists; split; reflexivity. }
    exists msg. split; [exact Hmsg|]. cbv zeta.
    rewrite (and_then_break _ _ _ _ Hgate) in Hrun. split; [exact Hrun|].
    intros todo. cbn [merge_loop]. unfold bind. by rewrite Hrun.
  - intros Hgo.
    assert (exists msg, check_review_approval details = (true, msg) /\
                        review_gate idx details st1
                        = Some (Proceed tt, logged (EvLog (MsgOk msg) success) st1))
      as (msg & Hmsg & Hgate).
    { unfold review_gate, check_review_approval.
      destruct Hgo as [-> | [-> | ->]]; simpl; eexists; split; reflexivity. }
    exists msg. split; [exact Hmsg|].
    by rewrite (and_then_proceed _ _ _ _ _ Hgate) in Hrun.
Qed.

(** ** Items that are skipped without ending the loop *)

Lemma get_pr_details_run (n : Z) (st : St W) :
  get_pr_details n st = Some (details_answer n (world st), ran (Gh (GhPrView n)) st).
Proof.
  unfold get_pr_details, details_answer, ran, bind, run_gh, subprocess_run.
  destruct (respond (Gh (GhPrView n)) (world st)) as [[code out err] w'].
  cbn. destruct (code =? 0); [destruct out as [parsed|]|]; reflexivity.
Qed.

Lemma details_answer_none (n : Z) (w : W) :
  no_details (view_answer n w) -> details_answer n w = None.
Proof.
  unfold no_details, details_answer, view_answer.
  destruct (fst (respond (Gh (GhPrView n)) w)) as [code out err]. cbn.
  intros [Hcode|[-> | ->]].
  - by destruct (Z.eqb_spec code 0).
  - by destruct (code =? 0).
  - by destruct (code =? 0).
Qed.

Lemma details_answer_some (n : Z) (w : W) details :
  has_details (view_answer n w) details -> details_answer n w = Some details.
Proof.
  unfold has_details, details_answer, view_answer.
  destruct (fst (respond (Gh (GhPrView n)) w)) as [code out err]. cbn.
  by intros [-> ->].
Qed.

Lemma triage_nonfatal (i : nat) (n : Z) (st : St W) why :
  nonfatal (view_answer n (world st)) why ->
  exists e,
    triage i n st = Some (Continue, skipping i why (logged e (ran (Gh (GhPrView n)) st))).
Proof.
  intros Hnf. unfold triage, bind. rewrite get_pr_details_run.
  inversion Hnf as [p Hno|p details Hd Hdraft|p details Hd Hdraft Hstate]; subst.
  - rewrite (details_answer_none _ _ Hno). eexists. reflexivity.
  - rewrite (details_answer_some _ _ _ Hd), Hdraft. eexists. reflexivity.
  - rewrite (details_answer_some _ _ _ Hd), Hdraft, Hstate. eexists. reflexivity.
Qed.

(** C7. For every item of the queue, at any position, a failed fetch of
    its details (the command fails, its output cannot be parsed, or it is
    the empty dictionary), a set draft flag and a lifecycle state MERGED
    each put the item in [skipped], leave [merged] alone, and write the
    reason of the condition on the item: "Failed to fetch PR details",
    "PR is a draft" (also when the item is both draft and merged) and
    "Already merged". Nothing else of the queue changes, and the iteration
    only ends: the loop goes on with the items that follow. *)
Theorem nonfatal_skip_continues (args : Args) (total idx : nat) (pr : PR.t)
    (st : St W) (why : string) :
  prs st !! idx = Some pr ->
  nonfatal (view_answer (PR.number pr) (world st)) why ->
  exists st',
    process_pr args total idx st = Some (Continue, st') /\
    skipped st' = skipped st ++ [idx] /\
    merged st' = merged st /\
    (exists pr', prs st' !! idx = Some pr' /\
                 PR.reason pr' = Some why /\
                 ident pr' = ident pr /\ PR.result pr' = PR.result pr) /\
    (forall j, j <> idx -> prs st' !! j = prs st !! j) /\
    forall todo,
      merge_loop args total (idx :: todo) st
      = (let* n := merge_loop args total todo in ret (S n)) st'.
Proof.
  intros Hpr Hnf.
  set (st0 := logged (EvLog (MsgTitle (PR.title pr)) info)
                (logged (EvLog (MsgProcessing (PR.number pr) (S idx) total) info) st)).
  destruct (triage_nonfatal idx (PR.number pr) st0 why Hnf) as [e He].
  assert (process_pr args total idx st
          = Some (Continue, skipping idx why (logged e (ran (Gh (GhPrView (PR.number pr))) st0))))
    as Hrun.
  { unfold process_pr, bind at 1, deref. rewrite Hpr, !log_then.
    apply and_then_continue. unfold readiness. by apply and_then_continue. }
  eexists. split; [exact Hrun|]. split_and!; try reflexivity.
  - exists (PR.set_reason why pr). split_and!; try reflexivity.
    cbn. by rewrite list_lookup_alter_eq, Hpr.
  - intros j Hj. cbn. by rewrite list_lookup_alter_ne.
  - intros todo. cbn [merge_loop]. unfold bind at 1. by rewrite Hrun.
Qed.

(** ** Trunk health *)

Lemma eq_str_completed (r : Run.t) :
  Py.eq_str (default ""%string (Run.status r)) "completed" = true <-> completed r.
Proof.
  unfold completed, Py.eq_str. destruct (Run.status r) as [s|]; simpl.
  - rewrite String.eqb_eq. split; [by intros ->|by intros [=]].
  - done.
Qed.

Lemma eq_str_succeeded (r : Run.t) :
  Py.eq_str (default ""%string (Run.conclusion r)) "success" = true <-> succeeded r.
Proof.
  unfold succeeded, Py.eq_str. destruct (Run.conclusion r) as [s|]; simpl.
  - rewrite String.eqb_eq. split; [by intros ->|by intros [=]].
  - done.
Qed.

(** C9, as the code has it. Every post-merge trunk-health query returns a
    verdict, and the verdict is unhealthy exactly when the head of the
    trunk cannot be resolved, or the most recent workflow run is completed
    with a conclusion other than success. In particular, when the head
    resolves, the trunk is judged healthy when there is no run to look at
    and when the most recent run is not completed. *)
Theorem trunk_health_verdict (base : string) (verbose : bool) (st : St W) :
  exists healthy msg st',
    verify_main_health base verbose st = Some ((healthy, msg), st') /\
    (healthy = false <-> unhealthy base (world st)) /\
    (returncode (head_answer base (world st)) = 0 ->
     latest_run (runs_answer base (world st)) = None -> healthy = true) /\
    (returncode (head_answer base (world st)) = 0 ->
     forall latest, latest_run (runs_answer base (world st)) = Some latest ->
                    ~ completed latest -> healthy = true).
Proof.
  unfold unhealthy, head_answer, runs_answer, latest_run.
  unfold verify_main_health, fetch_origin, bind, run_git, run_gh, subprocess_run.
  destruct (respond (Git GitFetchOrigin) (world st)) as [[code0 out0 err0] w1]. cbn.
  destruct (respond (Git (GitRevParse ("origin/" +:+ base))) w1)
    as [[code1 out1 err1] w2]. cbn.
  destruct (Z.eqb_spec code1 0) as [->|Hhead]; cbn.
  2:{ eexists _, _, _. split; [reflexivity|]. split_and!; try done. split; auto. }
  destruct (respond (Gh (GhRunList base)) w2) as [[code2 out2 err2] w3]. cbn.
  destruct (code2 =? 0); cbn.
  2:{ destruct verbose; eexists _, _, _; (split; [reflexivity|]);
        (split_and!; try done); (split; [done|]);
        intros [?|(latest & ? & _)]; done. }
  destruct out2 as [[|latest runs]|]; cbn.
  3:{ eexists _, _, _. split; [reflexivity|]. split_and!; try done. split; [done|].
      intros [?|(latest & ? & _)]; done. }
  1:{ eexists _, _, _. split; [reflexivity|]. split_and!; try done. split; [done|].
      intros [?|(latest & ? & _)]; done. }
  pose proof (eq_str_completed latest) as Hc.
  pose proof (eq_str_succeeded latest) as Hs.
  destruct (Py.eq_str (default ""%string (Run.status latest)) "completed").
  - destruct (Py.eq_str (default ""%string (Run.conclusion latest)) "success").
    + eexists _, _, _. split; [reflexivity|]. split_and!; try done. split; [done|].
      intros [?|(r & [= <-] & _ & Hno)]; [done|]. exfalso. apply Hno, Hs. done.
    + eexists _, _, _. split; [reflexivity|]. split_and!; try done.
      * split; [|done]. intros _. right. exists latest. split_and!; [done|by apply Hc|].
        intros Hyes. apply Hs in Hyes. done.
      * intros _ r [= <-] Hno. exfalso. apply Hno, Hc. done.
  - destruct verbose; eexists _, _, _; (split; [reflexivity|]);
      (split_and!; try done); (split; [done|]);
      intros [?|(r & [= <-] & Hyes & _)]; try done; apply Hc in Hyes; done.
Qed.

(** ** The trunk after a merge *)

Lemma quiet_run dry {A : Type} (m : M W A) (st : St W) a st' :
  quiet dry m -> m st = Some (a, st') -> ext dry st st'.
Proof. intros Hq Hm. exact (wp_run _ _ _ _ _ (Hq st) Hm). Qed.

Lemma gated_run dry i on_proceed {A : Type} (m : M W (Flow A)) (st : St W) f st' :
  gated dry i on_proceed m -> m st = Some (f, st') -> gate dry i on_proceed f st st'.
Proof. intros Hg Hm. exact (wp_run _ _ _ _ _ (Hg st) Hm). Qed.

Lemma merge_gate_merged (args : Args) (i : nat) (n : Z) (st st1 : St W) msg :
  merge_pr n (dry_run args) (logged (EvLog MsgMerging info) st) = Some ((true, msg), st1) ->
  merge_gate args i n st
  = Some (Proceed tt,
          merging i (if negb (dry_run args) then "merged" else "would merge")
            (logged (EvLog (MsgOk msg) success) st1)).
Proof.
  intros Hmerge. unfold merge_gate. rewrite log_then. unfold bind at 1.
  rewrite Hmerge. reflexivity.
Qed.

Lemma health_gate_unhealthy (args : Args) (i total : nat) (st st1 : St W) msg :
  verify_main_health (base args) (verbose args)
    (logged (EvLog (MsgVerifying (base args)) info) st) = Some ((false, msg), st1) ->
  health_gate args i total st
  = Some (Break, logged (EvLog MsgStopping error)
                   (logged (EvLog (MsgUnhealthy msg) error) st1)).
Proof.
  intros Hverify. unfold health_gate. rewrite log_then. unfold bind at 1.
  rewrite Hverify. reflexivity.
Qed.

(** What lines 639-653 do with an item that comes through the readiness
    blocks, whose merge succeeds and whose post-merge verification judges
    the trunk unhealthy: the iteration ends the loop (no later item is
    evaluated) with the item in [merged]; unlike every other halt of the
    loop, this one adds nothing to [skipped] and writes no reason. *)
Lemma unhealthy_trunk_halts_after_merge (args : Args) (total idx : nat) (pr : PR.t)
    (st ready merged_st verified : St W) (merge_msg health_msg : string) :
  let res := (if negb (dry_run args) then "merged" else "would merge")%string in
  prs st !! idx = Some pr ->
  readiness args idx (PR.number pr)
    (logged (EvLog (MsgTitle (PR.title pr)) info)
       (logged (EvLog (MsgProcessing (PR.number pr) (S idx) total) info) st))
  = Some (Proceed tt, ready) ->
  merge_pr (PR.number pr) (dry_run args) (logged (EvLog MsgMerging info) ready)
  = Some ((true, merge_msg), merged_st) ->
  verify_main_health (base args) (verbose args)
    (logged (EvLog (MsgVerifying (base args)) info)
       (merging idx res (logged (EvLog (MsgOk merge_msg) success) merged_st)))
  = Some ((false, health_msg), verified) ->
  let st' := logged (EvLog MsgStopping error)
               (logged (EvLog (MsgUnhealthy health_msg) error) verified) in
  process_pr args total idx st = Some (Break, st') /\
  (forall todo, merge_loop args total (idx :: todo) st = Some (1%nat, st')) /\
  merged st' = merged st ++ [idx] /\
  skipped st' = skipped st /\
  map PR.reason (prs st') = map PR.reason (prs st) /\
  prs st' = alter (PR.set_result res) idx (prs ready).
Proof.
  intros res Hpr Hready Hmerge Hverify st'.
  assert (process_pr args total idx st = Some (Break, st')) as Hrun.
  { unfold process_pr, bind at 1, deref. rewrite Hpr, !log_then.
    rewrite (and_then_proceed _ _ _ _ _ Hready).
    rewrite (and_then_proceed _ _ _ _ _ (merge_gate_merged args idx _ _ _ _ Hmerge)).
    by apply health_gate_unhealthy. }
  split; [exact Hrun|]. split.
  { intros todo. cbn [merge_loop]. unfold bind. by rewrite Hrun. }
  pose proof (gated_run (dry_run args) idx [] _ _ _ _
                (gated_readiness (dry_run args) args idx (PR.number pr)) Hready)
    as (Hm0 & Hs0 & _ & Hr0 & _).
  pose proof (quiet_run _ _ _ _ _ (quiet_merge_pr (dry_run args) (PR.number pr)) Hmerge)
    as (Hp1 & Hm1 & Hs1 & _).
  pose proof (quiet_run _ _ _ _ _
                (quiet_verify_main_health (dry_run args) (base args) (verbose args)) Hverify)
    as (Hp2 & Hm2 & Hs2 & _).
  subst st'. simpl in *.
  rewrite Hp2, Hm2, Hs2, Hp1, Hm1, Hs1, Hm0, Hs0, !app_nil_r, map_reason_set_result.
  split_and!; try done. by apply Hr0.
Qed.

(** ** Query errors in the poller *)

Lemma get_check_status_run (n : Z) (st : St W) :
  get_check_status n st
  = Some (status_of (checks_answer n (world st)), ran (Gh (GhPrChecks n)) st).
Proof.
  unfold get_check_status, status_of, checks_answer, ran, bind, run_gh, subprocess_run.
  destruct (respond (Gh (GhPrChecks n)) (world st)) as [[code out err] w'].
  cbn. destruct (code =? 0); [|done]. by destruct out.
Qed.

Lemma status_of_failed_query (n : Z) (w : W) :
  query_fails n w -> status_of (checks_answer n w) = ("UNKNOWN"%string, []).
Proof.
  unfold query_fails, status_of. intros [Hcode|Hout].
  - by destruct (Z.eqb_spec (returncode (checks_answer n w)) 0).
  - rewrite Hout. by destruct (returncode (checks_answer n w) =? 0).
Qed.

Lemma wait_loop_step fuel n start tm verbose (st : St W) :
  wait_loop (S fuel) n start tm verbose st
  = if tm * 60 <? clock st - start then Some ((false, timeout_message tm), st)
    else
      let '(status, checks) := status_of (checks_answer n (world st)) in
      let st1 := ran (Gh (GhPrChecks n)) st in
      if Py.eq_str status "SUCCESS" then Some ((true, "All checks passed"%string), st1)
      else if Py.eq_str status "FAILURE" then Some ((false, failed_message checks), st1)
      else
        wait_loop fuel n start tm verbose
          (slept poll_interval
             (if verbose
              then logged (EvLog (MsgWaiting
                                    (map CheckRun.name
                                       (filter (fun c => Py.get_in (CheckRun.state c)
                                                  ["PENDING"; "IN_PROGRESS"]%string = true)
                                               checks))
                                    (tm * 60 - (clock st - start))) info) st1
              else st1)).
Proof.
  cbn [wait_loop]. unfold bind at 1, time_time.
  destruct (tm * 60 <? clock st - start); [done|].
  unfold bind at 1. rewrite get_check_status_run.
  destruct (status_of (checks_answer n (world st))) as [status checks].
  destruct (Py.eq_str status "SUCCESS"); [done|].
  destruct (Py.eq_str status "FAILURE"); [done|].
  by destruct verbose.
Qed.

Lemma wait_loop_decided fuel n start tm verbose (st : St W) ok msg st' :
  wait_loop fuel n start tm verbose st = Some ((ok, msg), st') ->
  ok = false /\ msg = timeout_message tm \/ decided_by_checks n ok msg st'.
Proof.
  revert st. induction fuel as [|fuel IH]; intros st; [done|].
  rewrite wait_loop_step.
  destruct (tm * 60 <? clock st - start).
  { intros [= <- <- <-]. by left. }
  unfold status_of.
  destruct (Z.eqb_spec (returncode (checks_answer n (world st))) 0) as [Hcode|Hcode];
    cbn [negb].
  2:{ cbn. apply IH. }
  destruct (stdout (checks_answer n (world st))) as [checks|] eqn:Hout.
  2:{ cbn. apply IH. }
  destruct (aggregate checks) as [status checks'] eqn:Hagg.
  assert (checks' = checks) as ->.
  { by rewrite <- (aggregate_checks checks), Hagg. }
  destruct (Py.eq_str status "SUCCESS") eqn:Hsucc.
  { intros [= <- <- <-]. right. exists st, checks. rewrite Hagg.
    apply String.eqb_eq in Hsucc. split_and!; try done. by left. }
  destruct (Py.eq_str status "FAILURE") eqn:Hfail.
  { intros [= <- <- <-]. right. exists st, checks. rewrite Hagg.
    apply String.eqb_eq in Hfail. split_and!; try done. by right. }
  apply IH.
Qed.

Lemma poller_verdict (n tm : Z) (verbose : bool) (st : St W) :
  exists ok msg st',
    wait_for_checks n tm verbose st = Some ((ok, msg), st') /\
    (ok = false /\ msg = timeout_message tm \/ decided_by_checks n ok msg st').
Proof.
  destruct (quiet_wait_for_checks false n tm verbose st) as ([ok msg] & st' & Hrun & _).
  exists ok, msg, st'. split; [exact Hrun|].
  unfold wait_for_checks, bind, time_time in Hrun.
  by apply wait_loop_decided in Hrun.
Qed.

(** C10. A query for the checks that fails, at the transport level or with
    output that cannot be parsed, is classified UNKNOWN with no checks,
    which is neither SUCCESS nor FAILURE; a poll that has not timed out
    and whose query fails then sleeps the poll interval and polls again;
    and the poller always returns, either with the timeout failure or with
    a verdict that comes from a set of checks the host did return to the
    last query: a query error never surfaces as a check failure. *)
Theorem query_errors_only_time_out (n tm : Z) (verbose : bool) (st : St W) :
  (query_fails n (world st) ->
   get_check_status n st = Some (("UNKNOWN"%string, []), ran (Gh (GhPrChecks n)) st)) /\
  (forall fuel start,
     query_fails n (world st) -> clock st - start <= tm * 60 ->
     wait_loop (S fuel) n start tm verbose st
     = wait_loop fuel n start tm verbose
         (slept poll_interval
            (if verbose
             then logged (EvLog (MsgWaiting [] (tm * 60 - (clock st - start))) info)
                    (ran (Gh (GhPrChecks n)) st)
             else ran (Gh (GhPrChecks n)) st))) /\
  (exists ok msg st',
     wait_for_checks n tm verbose st = Some ((ok, msg), st') /\
     (ok = false /\ msg = timeout_message tm \/ decided_by_checks n ok msg st')).
Proof.
  split_and!.
  - intros Hfails. by rewrite get_check_status_run, status_of_failed_query.
  - intros fuel start Hfails Htime. rewrite wait_loop_step.
    destruct (Z.ltb_spec (tm * 60) (clock st - start)); [lia|].
    by rewrite status_of_failed_query.
  - apply poller_verdict.
Qed.

(** When no query ever gets through, the poller returns the timeout. *)
Lemma unanswered_queries_time_out (n tm : Z) (verbose : bool) (st : St W) :
  (forall w, query_fails n w) ->
  exists st', wait_for_checks n tm verbose st = Some ((false, timeout_message tm), st').
Proof.
  intros Hfails.
  destruct (poller_verdict n tm verbose st) as (ok & msg & st' & Hrun & Hwhy).
  destruct Hwhy as [[-> ->]|(st1 & checks & Hcode & Hout & _)]; [by exists st'|].
  destruct (Hfails (world st1)) as [?|?]; congruence.
Qed.

(** ** The work queue *)

Lemma apply_limit_positive (n : Z) (l : list PR.t) :
  0 < n -> snd (apply_limit (Some n) l) = take (Z.to_nat n) l.
Proof.
  intros Hn. unfold apply_limit.
  destruct (Z.eqb_spec n 0) as [|_]; [lia|]. cbn [negb andb].
  destruct (Z.ltb_spec n (Z.of_nat (length l))) as [Hlt|Hge]; cbn [snd].
  - unfold Py.slice_to. destruct (Z.leb_spec 0 n); [done|lia].
  - symmetry. apply take_ge. lia.
Qed.

Lemma map_number_ident (l l' : list PR.t) :
  map ident l = map ident l' -> map PR.number l = map PR.number l'.
Proof.
  intros Heq.
  assert (forall k : list PR.t, map PR.number k = map (fun x => x.1.1.1) (map ident k)) as Hk.
  { intros k. rewrite map_map. done. }
  by rewrite !Hk, Heq.
Qed.

Lemma visited_preflighted (args : Args) (w : W) (now : Z) :
  visited (trace (preflighted args (initial w now))) = [].
Proof. unfold preflighted. by destruct (dry_run args). Qed.

(** C8. For every session (a run of [main] whose preflight checks pass)
    whose limit, if one is set, is positive: the queue holds the pull
    requests that the host lists for the query "open, on the base branch,
    with the label" (without a label when the label filter is the empty
    string) and that carry the session label if a non-empty one is given,
    in ascending order of number (pull requests with equal numbers in the
    order listed), cut to the limit; the loop visits the queue in exactly
    that order, from its first item to the one where it halts, and the
    queue is the same when the session ends. *)
Theorem queue_sorted_and_visited_in_order (args : Args) (w : W) (now : Z) :
  preflight_passes w ->
  limit args = None \/ (exists n, limit args = Some n /\ 0 < n) ->
  exists code k st' sorted,
    main args (initial w now) = Some ((code, k), st') /\
    sorted ≡ₚ filter (in_session (session args))
                (listed (listing args (after_preflight w))) /\
    StronglySorted by_number sorted /\
    (forall n, filter (fun pr => PR.number pr = n) sorted
               = filter (fun pr => PR.number pr = n)
                   (filter (in_session (session args))
                      (listed (listing args (after_preflight w))))) /\
    map ident (prs st')
    = map ident (match limit args with
                 | Some n => take (Z.to_nat n) sorted
                 | None => sorted
                 end) /\
    (k <= length (prs st'))%nat /\
    visited (trace st') = take k (map PR.number (prs st')) /\
    exists evs,
      trace st'
      = trace (preflighted args (initial w now))
          ++ EvLog (MsgDiscovering (label args)) info
          :: EvRun (Gh (GhPrList "open" (base args) (label_option (label args))))
          :: evs.
Proof.
  intros Hpass Hlimit.
  destruct (session_after_preflight args w now Hpass) as ([code k] & st' & Hrun & Hpost).
  destruct Hpost as (Hp & Hk & _ & _ & _ & evs & Ht & Hv & _).
  rewrite world_preflighted in Hp, Hk, Hv.
  cbn [fst snd initial world] in *.
  set (found := open_prs_of (session args) (listing args (after_preflight w))) in *.
  exists code, k, st', found.
  assert (queue_of args (listing args (after_preflight w))
          = match limit args with
            | Some n => take (Z.to_nat n) found
            | None => found
            end) as Hqueue.
  { unfold queue_of. fold found. destruct Hlimit as [-> |(n & -> & Hn)]; [done|].
    by apply apply_limit_positive. }
  split_and!.
  - exact Hrun.
  - apply sort_by_number_perm.
  - apply sort_by_number_sorted.
  - intros n. apply sort_by_number_stable.
  - by rewrite Hp, Hqueue.
  - by rewrite <- (length_map ident), Hp, length_map.
  - rewrite Ht, visited_app, visited_preflighted, (map_number_ident _ _ Hp). exact Hv.
  - by exists evs.
Qed.

(** ** Dry runs *)

(** The blocks before the merge do not look at the dry-run flag. *)
Lemma readiness_ignores_dry_run (args : Args) (i : nat) (n : Z) :
  readiness (W:=W) (with_dry_run args) i n = readiness args i n.
Proof. reflexivity. Qed.

(** X16. A dry run always returns and never runs the merge command,
    whatever the host answers. *)
Lemma dry_run_never_merges (args : Args) (w : W) (now : Z) :
  dry_run args = true ->
  exists r st',
    main args (initial w now) = Some (r, st') /\
    forall n, EvRun (Gh (GhPrMerge n)) ∉ trace st'.
Proof.
  intros Hdry.
  destruct (main_concluded args (initial w now)) as (r & st' & Hrun & Hpost); [done|].
  exists r, st'. split; [exact Hrun|]. intros n Hin.
  assert (Forall (safe true) (trace st')) as Hsafe.
  { destruct Hpost as [[_ (_ & _ & _ & _ & evs & -> & Hf)]
                      |(st1 & (_ & _ & _ & _ & evs1 & Ht1 & Hf1)
                            & _ & _ & _ & _ & _ & evs & -> & _ & Hf)];
      rewrite Hdry in *.
    - by apply tame_all_safe.
    - rewrite Ht1. apply Forall_app. split; [by apply tame_all_safe|].
      by repeat (constructor; [exact I|]). }
  rewrite Forall_forall in Hsafe. by specialize (Hsafe _ Hin).
Qed.

End Claims.

(** * Runs on scripted hosts *)

(** The scenario of the design: 101 and 102 are merged, 103 has conflicts
    and ends the session, 104 is never evaluated; the exit status is 2. *)
Example scenario_of_the_design :
  exists st',
    main (H:=scripted scenario 0) default_args (initial 0%nat 0) = Some ((2, 3%nat), st') /\
    map PR.number (prs st') = [101; 102; 103; 104] /\
    merged st' = [0; 1]%nat /\ skipped st' = [2]%nat /\
    map PR.reason (prs st')
    = [None; None; Some "Merge conflicts - manual resolution required"%string; None].
Proof. eexists. split; [vm_compute; reflexivity|]. by vm_compute. Qed.

(** Four drafts: all are skipped, the session runs to the end of the queue
    and exits with status 1. *)
Example scenario_all_drafts :
  exists st',
    main (H:=scripted all_drafts 0) default_args (initial 0%nat 0) = Some ((1, 4%nat), st') /\
    merged st' = [] /\ skipped st' = [0; 1; 2; 3]%nat /\
    map PR.reason (prs st') = replicate 4 (Some "PR is a draft"%string).
Proof. eexists. split; [vm_compute; reflexivity|]. by vm_compute. Qed.

(** A limit of zero is no limit, and a negative limit drops items from the
    end of the queue. *)
Example limit_zero_and_negative :
  snd (apply_limit (Some 0) [pr_of 7; pr_of 8; pr_of 9]) = [pr_of 7; pr_of 8; pr_of 9] /\
  snd (apply_limit (Some (-1)) [pr_of 7; pr_of 8; pr_of 9]) = [pr_of 7; pr_of 8].
Proof. by vm_compute. Qed.

(** C2, on the code: in a dry run on a pull request that is behind its
    base branch, the session runs the branch update command on the host. *)
Theorem dry_run_updates_branch :
  exists r st',
    main (H:=scripted behind_host 0) (with_dry_run default_args) (initial 0%nat 0)
    = Some (r, st') /\
    EvLog MsgDryRunMode warn ∈ trace st' /\
    EvRun (Gh (GhPrUpdateBranch 7)) ∈ trace st'.
Proof.
  eexists _, _. split; [vm_compute; reflexivity|].
  split; repeat constructor.
Qed.

(** C3, on the code: the merge of the first of two pull requests
    succeeds, the verification run on the trunk has failed, and the
    session logs the failure and that it is stopping, before the second
    pull request. The halt is not recorded as a skip: nothing is in
    [skipped], no reason is written on any item, and the exit status is
    0, the status of a full success. *)
Theorem unhealthy_trunk_is_not_a_skip :
  exists st',
    main (H:=scripted broken_trunk 0) default_args (initial 0%nat 0) = Some ((0, 1%nat), st') /\
    EvRun (Gh (GhPrMerge 5)) ∈ trace st' /\
    EvLog (MsgUnhealthy "CI failed: ci - failure (commit: )") error ∈ trace st' /\
    EvLog MsgStopping error ∈ trace st' /\
    visited (trace st') = [5] /\
    map PR.number (prs st') = [5; 6] /\
    merged st' = [0%nat] /\
    skipped st' = [] /\
    map PR.reason (prs st') = [None; None].
Proof.
  eexists. split; [vm_compute; reflexivity|].
  split_and!; try (by vm_compute); repeat constructor.
Qed.

Lemma unhealthy_trunk_halts_after_merge_witness :
  exists st',
    process_pr (H:=scripted broken_trunk 0) default_args 2 0 (queued [pr_of 5; pr_of 6])
    = Some (Break, st') /\
    merged st' = [0%nat] /\ skipped st' = [] /\
    map PR.reason (prs st') = [None; None].
Proof.
  edestruct (unhealthy_trunk_halts_after_merge (H:=scripted broken_trunk 0)
               default_args 2 0 (pr_of 5) (queued [pr_of 5; pr_of 6]))
    as (Hrun & _ & Hm & Hs & Hr & _).
  - reflexivity.
  - vm_compute. reflexivity.
  - vm_compute. reflexivity.
  - vm_compute. reflexivity.
  - eexists. split; [exact Hrun|]. split_and!; [exact Hm|exact Hs|exact Hr].
Defined.

(** One failed check and one pending check: the aggregate is FAILURE. *)
Lemma check_status_aggregate_witness :
  exists status,
    get_check_status (H:=scripted (fun _ => serving [] (fun _ => clean_details)
                                              red_and_running []) 0) 7 (initial 0%nat 0)
    = Some ((status, red_and_running),
            ran (H:=scripted (fun _ => serving [] (fun _ => clean_details)
                                         red_and_running []) 0)
                (Gh (GhPrChecks 7)) (initial 0%nat 0)) /\
    aggregate_rule red_and_running status.
Proof.
  apply (check_status_aggregate
           (H:=scripted (fun _ => serving [] (fun _ => clean_details) red_and_running []) 0)
           7 (initial 0%nat 0) red_and_running); reflexivity.
Defined.

Example failure_takes_precedence : (aggregate red_and_running).1 = "FAILURE"%string.
Proof. reflexivity. Qed.

Lemma nonfatal_skip_continues_witness :
  exists st',
    process_pr (H:=scripted all_drafts 0) default_args 4 0
      (queued [pr_of 101; pr_of 102; pr_of 103; pr_of 104]) = Some (Continue, st') /\
    skipped st' = [0%nat] /\ merged st' = [] /\
    map PR.reason (prs st') = [Some "PR is a draft"%string; None; None; None].
Proof.
  destruct (nonfatal_skip_continues (H:=scripted all_drafts 0) default_args 4 0 (pr_of 101)
              (queued [pr_of 101; pr_of 102; pr_of 103; pr_of 104]) "PR is a draft")
    as (st' & Hrun & Hs & Hm & (pr' & Hpr' & Hwhy & _) & Hrest & _).
  - reflexivity.
  - apply (is_draft _ draft_details); [split|]; reflexivity.
  - exists st'. split_and!; [exact Hrun|exact Hs|exact Hm|].
    pose proof (Hrest 1%nat ltac:(lia)) as H1.
    pose proof (Hrest 2%nat ltac:(lia)) as H2.
    pose proof (Hrest 3%nat ltac:(lia)) as H3.
    pose proof (Hrest 4%nat ltac:(lia)) as H4.
    destruct (prs st') as [|p0 [|p1 [|p2 [|p3 [|p4 l]]]]]; try done.
    simplify_eq/=. by rewrite Hwhy.
Defined.

(** An answer that parses to the empty dictionary is a failed fetch: the
    item is skipped with that reason and the next item is processed. *)
Example empty_details_are_a_failed_fetch :
  exists k st',
    main (H:=scripted no_keys 0) default_args (initial 0%nat 0) = Some ((1, k), st') /\
    k = 2%nat /\ merged st' = [] /\ skipped st' = [0; 1]%nat /\
    map PR.reason (prs st')
    = [Some "Failed to fetch PR details"%string; Some "Failed to fetch PR details"%string].
Proof. eexists _, _. split; [vm_compute; reflexivity|]. by vm_compute. Qed.

Lemma queue_sorted_and_visited_in_order_witness :
  exists st',
    main (H:=scripted tagged 0) session_a (initial 0%nat 0) = Some ((0, 2%nat), st') /\
    map PR.number (prs st') = [8; 9] /\
    visited (trace st') = [8; 9] /\
    EvRun (Gh (GhPrList "open" "main" (Some "workflow-ready"%string))) ∈ trace st'.
Proof.
  destruct (queue_sorted_and_visited_in_order (H:=scripted tagged 0) session_a 0%nat 0)
    as (code & k & st' & sorted & Hrun & _).
  - split_and!; reflexivity.
  - by left.
  - exists st'.
    assert (main (H:=scripted tagged 0) session_a (initial 0%nat 0)
            = Some ((code, k), st')) as Hrun' by exact Hrun.
    vm_compute in Hrun. injection Hrun as <- <- <-.
    split_and!; [exact Hrun'|by vm_compute|by vm_compute|].
    apply list_elem_of_In. vm_compute. tauto.
Defined.

(** The scenario of the design ends with some items merged and one
    skipped: the exit status is 2. *)
(** C4, on the code: the only discovered pull request is merged and
    nothing is skipped, but the directory of the report cannot be created.
    The run ends on the traceback of the [OSError], without a summary, and
    with exit status 1, where lines 679-685 give 0 for these lists. *)
Theorem unwritable_report_exits_1 :
  exists st',
    main (H:=read_only one_clean 0) unwritable_args (initial 0%nat 0)
    = Some ((1, 1%nat), st') /\
    map PR.number (prs st') = [5] /\
    merged st' = [0%nat] /\
    skipped st' = [] /\
    EvRun (Gh (GhPrMerge 5)) ∈ trace st' /\
    last (trace st') = Some EvTraceback /\
    exit_code (merged st') (skipped st') = 0.
Proof.
  eexists. split; [vm_compute; reflexivity|].
  split_and!; try (by vm_compute).
  apply list_elem_of_In. vm_compute. tauto.
Qed.

(** The scenario of the design, where every report can be written: some
    items are merged, some are skipped, and the exit status is 2. *)
Lemma exit_status_mapping_witness :
  exists k st',
    main (H:=scripted scenario 0) default_args (initial 0%nat 0) = Some ((2, k), st') /\
    merged st' <> [] /\ skipped st' <> [].
Proof.
  destruct (exit_status_mapping (H:=scripted scenario 0) default_args 0%nat 0)
    as (code & k & st' & Hrun & Hcodes).
  - split_and!; reflexivity.
  - assert (main (H:=scripted scenario 0) default_args (initial 0%nat 0)
            = Some ((code, k), st')) as Hrun' by exact Hrun.
    vm_compute in Hrun. injection Hrun as <- <- <-.
    eexists _, _. split; [exact Hrun'|]. split; by vm_compute.
Defined.

(** C9, as stated, fails: there is no workflow run at all, and the trunk
    is judged unhealthy, because its head could not be resolved. *)
Lemma unresolved_head_is_unhealthy :
  exists st',
    verify_main_health (H:=scripted headless 0) "main" false (initial 0%nat 0)
    = Some ((false, "Failed to get main HEAD"%string), st') /\
    latest_run (runs_answer (H:=scripted headless 0) "main" 0%nat) = None /\
    (forall e, e ∈ trace st' -> e <> EvRun (Gh (GhRunList "main"))).
Proof.
  eexists. split; [vm_compute; reflexivity|]. split; [reflexivity|].
  cbn [trace]. intros e He.
  apply elem_of_cons in He as [->|He]; [done|].
  apply elem_of_cons in He as [->|He]; [done|].
  by apply elem_of_nil in He.
Qed.

(** A completed run whose conclusion is not a failure, here a cancelled
    run, is judged unhealthy as well. *)
Example cancelled_run_is_unhealthy :
  exists msg st',
    verify_main_health
      (H:=scripted (fun _ => serving [] (fun _ => clean_details) []
                               [Run.mk (Some "completed"%string) (Some "cancelled"%string)
                                       (Some "ci"%string)]) 0)
      "main" false (initial 0%nat 0)
    = Some ((false, msg), st').
Proof. eexists _, _. vm_compute. reflexivity. Qed.

(** A session on a host that never answers the query for the checks: the
    pull request is skipped with the timeout as its reason, and the exit
    status is 1. *)
Example unreachable_checks_skip :
  exists st',
    main (H:=scripted unreachable_checks 0) (with_timeout 1 default_args) (initial 0%nat 0)
    = Some ((1, 1%nat), st') /\
    merged st' = [] /\ skipped st' = [0%nat] /\
    map PR.reason (prs st') = [Some "Timeout after 1 minutes waiting for checks"%string].
Proof. eexists. split; [vm_compute; reflexivity|]. by vm_compute. Qed.

(** The poller on a host that never answers the query for the checks:
    three polls, ninety seconds, then the timeout. *)
Example unreachable_checks_time_out :
  exists st',
    wait_for_checks (H:=scripted unreachable_checks 0) 5 1 false (initial 0%nat 0)
    = Some ((false, "Timeout after 1 minutes waiting for checks"%string), st') /\
    clock st' = 90 /\
    trace st' = [EvRun (Gh (GhPrChecks 5)); EvSleep 30;
                 EvRun (Gh (GhPrChecks 5)); EvSleep 30;
                 EvRun (Gh (GhPrChecks 5)); EvSleep 30].
Proof. eexists. split; [vm_compute; reflexivity|]. by vm_compute. Qed.

(** A pull request with changes requested ends the loop. *)
Lemma review_decision_gate_witness :
  exists st',
    process_pr (H:=scripted (fun _ => serving [pr_of 7]
                               (fun _ => Details.mk false (Some "OPEN"%string)
                                           (Some "CLEAN"%string) (Some "MERGEABLE"%string)
                                           (Some "CHANGES_REQUESTED"%string)) [] []) 0)
      default_args 1 0 (queued [pr_of 7]) = Some (Break, st') /\
    skipped st' = [0%nat] /\
    map PR.reason (prs st')
    = [Some "Changes requested - needs update and re-approval"%string].
Proof.
  edestruct (review_decision_gate
               (H:=scripted (fun _ => serving [pr_of 7]
                               (fun _ => Details.mk false (Some "OPEN"%string)
                                           (Some "CLEAN"%string) (Some "MERGEABLE"%string)
                                           (Some "CHANGES_REQUESTED"%string)) [] []) 0)
               default_args 1 0 (pr_of 7) (queued [pr_of 7])) as [Hblock _].
  - reflexivity.
  - vm_compute. reflexivity.
  - destruct Hblock as (msg & Hmsg & Hrun & _); [left; reflexivity|].
    vm_compute in Hmsg. injection Hmsg as <-.
    eexists. split; [exact Hrun|]. split; reflexivity.
Defined.

(** On a host that never answers the query for the checks, the first poll
    is classified UNKNOWN and the poller ends with the timeout. *)
Lemma query_errors_only_time_out_witness :
  get_check_status (H:=scripted unreachable_checks 0) 5 (initial 0%nat 0)
  = Some (("UNKNOWN"%string, []),
          ran (H:=scripted unreachable_checks 0) (Gh (GhPrChecks 5)) (initial 0%nat 0)) /\
  exists ok msg st',
    wait_for_checks (H:=scripted unreachable_checks 0) 5 1 false (initial 0%nat 0)
    = Some ((ok, msg), st') /\
    (ok = false /\ msg = timeout_message 1 \/
     decided_by_checks (H:=scripted unreachable_checks 0) 5 ok msg st').
Proof.
  destruct (query_errors_only_time_out (H:=scripted unreachable_checks 0) 5 1 false
              (initial 0%nat 0)) as (Hunknown & _ & Hreturns).
  split; [|exact Hreturns].
  apply Hunknown. left. vm_compute. discriminate.
Defined.

(** * More of the script *)

Section Strings.

(** [c.isspace()] holds of the white space characters. *)
Lemma is_space_whitespace (c : Ascii.ascii) : Py.is_space c = true <-> whitespace c.
Proof.
  unfold whitespace, Py.is_space. rewrite !elem_of_cons, elem_of_nil.
  cbv zeta. generalize (Ascii.N_of_ascii c). intros n.
  rewrite !orb_true_iff, !andb_true_iff, !N.leb_le, !N.eqb_eq. lia.
Qed.

Lemma lstrip_blank (s : string) : Py.lstrip s = EmptyString <-> blank s.
Proof.
  induction s as [|c s IH]; simpl; [done|].
  pose proof (is_space_whitespace c) as Hc.
  destruct (Py.is_space c).
  - rewrite IH. split; [|by intros [_ ?]]. intros Hs. split; [by apply Hc|done].
  - split; [done|]. intros [Hw _]. apply Hc in Hw. done.
Qed.

Lemma lstrip_head (s : string) c s' : Py.lstrip s = String c s' -> Py.is_space c = false.
Proof.
  induction s as [|d s IH]; simpl; [done|].
  destruct (Py.is_space d) eqn:Hd; [exact IH|]. by intros [= <- _].
Qed.

Lemma blank_rev_onto (s acc : string) : blank (Py.rev_onto s acc) <-> blank s /\ blank acc.
Proof.
  revert acc. induction s as [|c s IH]; intros acc; simpl; [tauto|].
  rewrite IH. simpl. tauto.
Qed.

Lemma rev_onto_empty (s acc : string) :
  Py.rev_onto s acc = EmptyString -> s = EmptyString /\ acc = EmptyString.
Proof.
  revert acc. induction s as [|c s IH]; intros acc; simpl; [done|].
  intros Hrev. by destruct (IH _ Hrev) as [_ ?].
Qed.

(** [s.strip() == ""] exactly when [s] is whitespace only. *)
Lemma strip_blank (s : string) : Py.strip s = EmptyString <-> blank s.
Proof.
  unfold Py.strip, Py.rev. split.
  - intros Hrev. apply rev_onto_empty in Hrev as [Hl _].
    apply lstrip_blank, blank_rev_onto in Hl as [Hl _].
    destruct (Py.lstrip s) as [|c s'] eqn:Hs; [by apply lstrip_blank|].
    apply lstrip_head in Hs. destruct Hl as [Hc _].
    apply is_space_whitespace in Hc. congruence.
  - intros Hs. apply lstrip_blank in Hs. by rewrite Hs.
Qed.

End Strings.

Section Preflight.

Context {W : Type} `{Host W}.

(** X1. A run whose preflight fails (no authentication, a working tree
    that is not clean, or a failed fetch) exits with status 1 and has not
    touched the host: no pull request was listed, viewed, updated or
    merged, no check or workflow run was queried, and the three lists are
    empty. *)
Theorem preflight_failure_touches_nothing (args : Args) (w : W) (now : Z) :
  ~ preflight_passes w ->
  exists st',
    main args (initial w now) = Some ((1, O), st') /\
    prs st' = [] /\ merged st' = [] /\ skipped st' = [] /\
    Forall (fun e => ~ touches_host e) (trace st').
Proof.
  unfold preflight_passes, after_status, after_auth. intros Hfail.
  unfold main, initial.
  unfold check_gh_auth, check_clean_working_tree, fetch_origin, run_gh, run_git,
    subprocess_run, bind, log, emit, ret.
  destruct (dry_run args); cbn -[merge_session Py.strip Py.eq_str].
  all: destruct (respond (Gh GhAuthStatus) w) as [[c0 o0 e0] w1];
    cbn -[merge_session Py.strip Py.eq_str] in *.
  all: destruct (Z.eqb_spec c0 0) as [->|Hauth]; cbn -[merge_session Py.strip Py.eq_str];
    [|eexists; split; [reflexivity|]; cbn; split_and!; try done;
      repeat (constructor; [by intros []|]); constructor].
  all: destruct (respond (Git GitStatusPorcelain) w1) as [[c1 o1 e1] w2];
    cbn -[merge_session Py.strip Py.eq_str] in *.
  all: destruct (Z.eqb_spec c1 0) as [->|Hstatus]; cbn -[merge_session Py.strip Py.eq_str];
    [|eexists; split; [reflexivity|]; cbn; split_and!; try done;
      repeat (constructor; [by intros []|]); constructor].
  all: destruct (Py.eq_str (Py.strip o1) "") eqn:Hclean;
    cbn -[merge_session Py.strip Py.eq_str];
    [|eexists; split; [reflexivity|]; cbn; split_and!; try done;
      repeat (constructor; [by intros []|]); constructor].
  all: apply String.eqb_eq in Hclean.
  all: destruct (respond (Git GitFetchOrigin) w2) as [[c2 o2 e2] w3];
    cbn -[merge_session Py.strip Py.eq_str] in *.
  all: destruct (Z.eqb_spec c2 0) as [->|Hfetch]; cbn -[merge_session Py.strip Py.eq_str];
    [|eexists; split; [reflexivity|]; cbn; split_and!; try done;
      repeat (constructor; [by intros []|]); constructor].
  all: exfalso; apply Hfail; by split_and!.
Qed.

(** X2. The working tree counts as clean exactly when [git status
    --porcelain] succeeds and prints nothing but white space, that of
    Unicode and not only of ASCII: the tab, the line feed, the vertical
    tab, the form feed, the carriage return, the separators 28 to 31, the
    space, the next-line control and the no-break space. *)
Theorem clean_tree_is_blank_status (st : St W) :
  exists clean,
    check_clean_working_tree st = Some (clean, ran (Git GitStatusPorcelain) st) /\
    (clean = true <->
     returncode (fst (respond (Git GitStatusPorcelain) (world st))) = 0 /\
     blank (stdout (fst (respond (Git GitStatusPorcelain) (world st))))).
Proof.
  unfold check_clean_working_tree, bind, run_git, subprocess_run, ran, ret.
  destruct (respond (Git GitStatusPorcelain) (world st)) as [[code out err] w'].
  cbn -[Py.strip]. eexists. split; [reflexivity|].
  rewrite andb_true_iff, Z.eqb_eq. unfold Py.eq_str. rewrite String.eqb_eq.
  by rewrite strip_blank.
Qed.

End Preflight.

(** A status made of a no-break space and a line feed is a clean tree. *)
Example no_break_space_is_clean :
  exists st',
    check_clean_working_tree (H:=scripted no_break_status 0) (initial 0%nat 0)
    = Some (true, st').
Proof. eexists. vm_compute. reflexivity. Qed.

Lemma preflight_failure_touches_nothing_witness :
  exists st',
    main (H:=scripted unauthenticated 0) default_args (initial 0%nat 0) = Some ((1, O), st') /\
    trace st' = [EvLog MsgPreflight info; EvRun (Gh GhAuthStatus);
                 EvLog MsgNotAuthenticated error].
Proof.
  destruct (preflight_failure_touches_nothing (H:=scripted unauthenticated 0)
              default_args 0%nat 0) as (st' & Hrun & _).
  - intros (Hauth & _). vm_compute in Hauth. discriminate.
  - exists st'. split; [exact Hrun|].
    vm_compute in Hrun. by injection Hrun as <-.
Defined.

Section Outcome.

Context {W : Type} `{Host W}.


Lemma fresh_preflighted (args : Args) (w : W) (now : Z) :
  fresh (preflighted args (initial w now)).
Proof. unfold preflighted. by destruct (dry_run args). Qed.

(** X3. A listing that fails, or whose output cannot be parsed, is taken
    for an empty one: the session logs the error and "No matching PRs
    found", runs nothing else, writes no report, and exits with status
    0. *)
Theorem failed_listing_exits_0 (args : Args) (w : W) (now : Z) :
  preflight_passes w ->
  listing_fails (listing args (after_preflight w)) ->
  exists msg st',
    main args (initial w now) = Some ((0, O), st') /\
    prs st' = [] /\ merged st' = [] /\ skipped st' = [] /\
    trace st'
    = trace (preflighted args (initial w now))
        ++ [EvLog (MsgDiscovering (label args)) info;
            EvRun (Gh (GhPrList "open" (base args)
                         (if Py.truthy (label args) then Some (label args) else None)));
            EvLog msg error;
            EvLog MsgNoMatching warn].
Proof.
  intros Hpass Hfails.
  rewrite (main_preflighted args (initial w now) Hpass).
  destruct (fresh_preflighted args w now) as (Hp & Hm & Hs).
  rewrite <- (world_preflighted args (initial w now)) in Hfails.
  set (st0 := preflighted args (initial w now)) in *.
  unfold listing_fails, listing in Hfails. rewrite <- truthy_label in Hfails.
  unfold merge_session. rewrite log_then.
  unfold get_open_prs, bind, run_gh, subprocess_run, log, emit, ret, logged.
  cbn [world clock trace prs merged skipped].
  destruct (respond _ (world st0)) as [[code out err] w']. cbn in Hfails |- *.
  destruct (Z.eqb_spec code 0) as [->|Hcode]; cbn.
  - destruct Hfails as [?|Hout]; [done|]. subst out. cbn.
    eexists _, _. split; [reflexivity|]. cbn. rewrite <- !app_assoc. by split_and!.
  - eexists _, _. split; [reflexivity|]. cbn. rewrite <- !app_assoc. by split_and!.
Qed.

Lemma apply_limit_nonpositive (n : Z) (l : list PR.t) :
  n <= 0 ->
  snd (apply_limit (Some n) l)
  = if n =? 0 then l else take (length l - Z.to_nat (- n)) l.
Proof.
  intros Hn. unfold apply_limit.
  destruct (Z.eqb_spec n 0) as [->|Hn0]; [done|]. cbn [negb andb].
  destruct (Z.ltb_spec n (Z.of_nat (length l))) as [_|Hge]; [|lia]. cbn [snd].
  unfold Py.slice_to. destruct (Z.leb_spec 0 n); [lia|].
  f_equal. lia.
Qed.

(** X4. A limit of zero is no limit, and a negative limit [-k] does not
    refuse the run: the session works on the discovered pull requests
    without the last [k] of them (on none, when [k] is at least their
    number). *)
Theorem nonpositive_limit_queue (args : Args) (w : W) (now : Z) (n : Z) :
  preflight_passes w ->
  limit args = Some n ->
  n <= 0 ->
  exists r st',
    main args (initial w now) = Some (r, st') /\
    let found := open_prs_of (session args) (listing args (after_preflight w)) in
    map ident (prs st')
    = map ident (if n =? 0 then found else take (length found - Z.to_nat (- n)) found).
Proof.
  intros Hpass Hlimit Hn.
  destruct (session_after_preflight args w now Hpass) as (r & st' & Hrun & Hpost).
  exists r, st'. split; [exact Hrun|]. cbv zeta.
  destruct Hpost as (Hp & _). rewrite world_preflighted in Hp.
  rewrite Hp. unfold queue_of. rewrite Hlimit. by rewrite apply_limit_nonpositive.
Qed.


End Outcome.

Lemma failed_listing_exits_0_witness :
  exists st',
    main (H:=scripted unlisted 0) default_args (initial 0%nat 0) = Some ((0, O), st') /\
    EvLog (MsgFailedToList "HTTP 502") error ∈ trace st'.
Proof.
  destruct (failed_listing_exits_0 (H:=scripted unlisted 0) default_args 0%nat 0)
    as (msg & st' & Hrun & _).
  - split_and!; reflexivity.
  - left. vm_compute. discriminate.
  - exists st'. split; [exact Hrun|].
    vm_compute in Hrun. injection Hrun as <-. cbn [trace].
    repeat constructor.
Defined.

Lemma nonpositive_limit_queue_witness :
  exists r st',
    main (H:=scripted unordered 0) (with_limit (-1) default_args) (initial 0%nat 0)
    = Some (r, st') /\
    map PR.number (prs st') = [7; 8].
Proof.
  destruct (nonpositive_limit_queue (H:=scripted unordered 0)
              (with_limit (-1) default_args) 0%nat 0 (-1))
    as (r & st' & Hrun & _).
  - split_and!; reflexivity.
  - reflexivity.
  - lia.
  - exists r, st'. split; [exact Hrun|].
    vm_compute in Hrun. injection Hrun as _ <-. reflexivity.
Defined.

Section MergeState.

Context {W : Type} `{Host W}.

Lemma only_logged_refl (st : St W) : only_logged st st.
Proof. unfold only_logged. split_and!; try done. exists []. by rewrite app_nil_r. Qed.

Lemma only_logged_log msg level (st st' : St W) :
  only_logged st st' -> only_logged st (logged (EvLog msg level) st').
Proof.
  intros (Hw & Hc & Hp & Hm & Hs & evs & Ht & Hf). unfold only_logged. simpl.
  split_and!; try done. exists (evs ++ [EvLog msg level]).
  rewrite Ht, <- app_assoc. split; [done|].
  apply Forall_app. split; [done|]. by repeat constructor.
Qed.

(** An iteration whose first fetch of the details falls through goes on
    with the merge state block. *)
Lemma process_pr_settling (args : Args) (total idx : nat) (pr : PR.t)
    (st st1 : St W) (details : Details.t) :
  prs st !! idx = Some pr ->
  triage idx (PR.number pr) (entering pr idx total st) = Some (Proceed details, st1) ->
  process_pr args total idx st
  = and_then (settle_merge_state args idx (PR.number pr) details)
      (from_review args total idx (PR.number pr)) st1.
Proof.
  intros Hpr Htriage. unfold entering in Htriage.
  unfold process_pr, bind at 1, deref. rewrite Hpr, !log_then.
  unfold readiness, from_review, from_checks.
  unfold and_then at 1 2, bind at 1 2. rewrite Htriage.
  unfold and_then, bind.
  destruct (settle_merge_state args idx (PR.number pr) details st1)
    as [[[d| |] stB]|]; try done.
  destruct (review_gate idx d stB) as [[[[]| |] stC]|]; try done.
Qed.

Lemma halts (args : Args) (total idx : nat) (st st' : St W) :
  process_pr args total idx st = Some (Break, st') ->
  forall todo, merge_loop args total (idx :: todo) st = Some (1%nat, st').
Proof. intros Hrun todo. cbn [merge_loop]. unfold bind. by rewrite Hrun. Qed.

Lemma eq_str_some (o : option string) (d lit : string) :
  d <> lit -> Py.eq_str (default d o) lit = true <-> o = Some lit.
Proof.
  intros Hd. unfold Py.eq_str. destruct o as [s|]; simpl.
  - rewrite String.eqb_eq. split; [by intros ->|by intros [=]].
  - split; [|done]. intros Heq%String.eqb_eq. done.
Qed.

Lemma conflict_test (merge_state : option string) (details : Details.t) :
  Py.eq_str (default "UNKNOWN"%string merge_state) "DIRTY"
  || Py.eq_str (default "UNKNOWN"%string (Details.mergeable details)) "CONFLICTING" = true
  <-> merge_state = Some "DIRTY"%string \/
      Details.mergeable details = Some "CONFLICTING"%string.
Proof. by rewrite orb_true_iff, !eq_str_some. Qed.

Lemma settle_not_behind (args : Args) (i : nat) (n : Z) (details : Details.t) (st : St W) :
  ~ behind details ->
  exists st2,
    only_logged st st2 /\
    (in_conflict details ->
     settle_merge_state args i n details st
     = Some (Break, skipping i "Merge conflicts - manual resolution required" st2)) /\
    (~ in_conflict details ->
     settle_merge_state args i n details st = Some (Proceed details, st2)).
Proof.
  intros Hbehind. unfold behind, in_conflict in *.
  pose proof (eq_str_some (Details.mergeStateStatus details) "UNKNOWN" "BEHIND") as Hb.
  pose proof (conflict_test (Details.mergeStateStatus details) details) as Hc.
  unfold settle_merge_state.
  destruct (Py.eq_str (default "UNKNOWN"%string (Details.mergeStateStatus details)) "BEHIND").
  { exfalso. apply Hbehind, Hb; done. }
  set (merge_state := default "UNKNOWN"%string (Details.mergeStateStatus details)) in *.
  set (mergeable := default "UNKNOWN"%string (Details.mergeable details)) in *.
  set (st0 := if verbose args then logged (EvLog (MsgMergeState merge_state mergeable) info) st
              else st).
  assert (only_logged st st0) as Hst0.
  { subst st0. destruct (verbose args); [apply only_logged_log|]; apply only_logged_refl. }
  exists (if Py.eq_str merge_state "DIRTY" || Py.eq_str mergeable "CONFLICTING"
          then logged (EvLog MsgConflicts error) st0
          else if negb (Py.eq_str merge_state "CLEAN" || Py.eq_str merge_state "HAS_HOOKS")
               then logged (EvLog (MsgUnexpectedState merge_state) warn) st0
               else st0).
  unfold and_then, bind, log, emit, ret. subst st0.
  destruct (Py.eq_str merge_state "DIRTY" || Py.eq_str mergeable "CONFLICTING").
  - split; [by apply only_logged_log|].
    split; [intros _|intros Hno; exfalso; apply Hno, Hc; done].
    by destruct (verbose args).
  - split.
    { destruct (negb _); [by apply only_logged_log|done]. }
    split; [intros Hyes; apply Hc in Hyes; done|intros _].
    by destruct (verbose args), (negb _).
Qed.

(** X6. A pull request whose branch is not behind its base: the merge
    state block runs no command. When the snapshot shows a conflict (merge
    state DIRTY, or mergeable CONFLICTING), the item is skipped with the
    conflict reason and the loop ends; otherwise the iteration goes on to
    the review block with the same snapshot, whatever the merge state is
    (BLOCKED, UNSTABLE, unknown or absent only log a warning). *)
Theorem merge_state_gate (args : Args) (total idx : nat) (pr : PR.t)
    (st st1 : St W) (details : Details.t) :
  prs st !! idx = Some pr ->
  triage idx (PR.number pr) (entering pr idx total st) = Some (Proceed details, st1) ->
  ~ behind details ->
  exists st2,
    only_logged st1 st2 /\
    (in_conflict details ->
     let st' := skipping idx "Merge conflicts - manual resolution required" st2 in
     process_pr args total idx st = Some (Break, st') /\
     forall todo, merge_loop args total (idx :: todo) st = Some (1%nat, st')) /\
    (~ in_conflict details ->
     process_pr args total idx st
     = from_review args total idx (PR.number pr) details st2).
Proof.
  intros Hpr Htriage Hbehind.
  destruct (settle_not_behind args idx (PR.number pr) details st1 Hbehind)
    as (st2 & Hlogged & Hyes & Hno).
  exists st2. split; [exact Hlogged|].
  rewrite (process_pr_settling args total idx pr st st1 details Hpr Htriage).
  split.
  - intros Hconflict. cbv zeta.
    assert (process_pr args total idx st
            = Some (Break, skipping idx "Merge conflicts - manual resolution required" st2))
      as Hrun.
    { rewrite (process_pr_settling args total idx pr st st1 details Hpr Htriage).
      apply and_then_break. by apply Hyes. }
    split; [|by apply halts].
    by rewrite <- (process_pr_settling args total idx pr st st1 details Hpr Htriage).
  - intros Hclear. apply and_then_proceed. by apply Hno.
Qed.

(** ** Branch updates *)

Lemma contains_occurs (needle hay : string) :
  needle <> EmptyString ->
  Py.contains needle hay = true <-> occurs_in needle hay.
Proof.
  intros Hneedle. unfold Py.contains, occurs_in.
  destruct (String.index 0 needle hay) as [k|] eqn:Hindex.
  - split; [intros _|done]. exists k. by apply (String.index_correct1 0).
  - split; [done|]. intros [k Hk]. exfalso.
    apply (String.index_correct3 0 k needle hay Hindex Hneedle); [lia|done].
Qed.

Lemma settle_behind_refused (args : Args) (i : nat) (n : Z) (details : Details.t) (st : St W) :
  behind details ->
  returncode (update_answer n (world st)) <> 0 ->
  let msg := (if Py.contains "conflict" (Py.lower (stderr (update_answer n (world st))))
              then "Merge conflicts detected - manual resolution required"
              else "Failed to update branch: " +:+ stderr (update_answer n (world st)))%string in
  settle_merge_state args i n details st
  = Some (Break,
          skipping i msg
            (logged (EvLog (MsgUpdateFailed msg) error)
               (ran (Gh (GhPrUpdateBranch n)) (updating args details st)))).
Proof.
  unfold behind, update_answer. intros Hbehind Hcode.
  unfold settle_merge_state, updating. rewrite Hbehind.
  unfold and_then, update_pr_branch, skip, run_gh, subprocess_run, log, set_reason,
    skipped_append, ran, logged, skipping, bind, emit, ret.
  destruct (verbose args); cbn -[Py.contains Py.lower String.append].
  all: destruct (respond (Gh (GhPrUpdateBranch n)) (world st)) as [[code out err] w1];
    cbn -[Py.contains Py.lower String.append] in *.
  all: destruct (Z.eqb_spec code 0) as [|_]; [done|].
  all: by destruct (Py.contains "conflict" (Py.lower err)).
Qed.

Lemma sleep_then {A : Type} seconds (m : M W A) (st : St W) :
  (time_sleep seconds ;;; m) st = m (slept seconds st).
Proof. reflexivity. Qed.

Lemma update_pr_branch_ok (n : Z) (st : St W) :
  returncode (update_answer n (world st)) = 0 ->
  update_pr_branch n st
  = Some ((true, "Branch updated successfully"%string), ran (Gh (GhPrUpdateBranch n)) st).
Proof.
  unfold update_answer, update_pr_branch, bind, run_gh, subprocess_run, ran, ret.
  destruct (respond (Gh (GhPrUpdateBranch n)) (world st)) as [[code out err] w'].
  cbn. by intros ->.
Qed.

Lemma settle_behind_updated (args : Args) (i : nat) (n : Z) (details : Details.t) (st : St W) :
  behind details ->
  returncode (update_answer n (world st)) = 0 ->
  let refreshed :=
    default Details.empty
      (details_answer n (snd (respond (Gh (GhPrUpdateBranch n)) (world st)))) in
  let merge_state := default "UNKNOWN"%string (Details.mergeStateStatus refreshed) in
  let st2 := updated n (updating args details st) in
  settle_merge_state args i n details st
  = if Py.eq_str merge_state "DIRTY"
       || Py.eq_str (default "UNKNOWN"%string (Details.mergeable details)) "CONFLICTING"
    then Some (Break,
               skipping i "Merge conflicts - manual resolution required"
                 (logged (EvLog MsgConflicts error) st2))
    else Some (Proceed refreshed,
               if negb (Py.eq_str merge_state "CLEAN" || Py.eq_str merge_state "HAS_HOOKS")
               then logged (EvLog (MsgUnexpectedState merge_state) warn) st2
               else st2).
Proof.
  unfold behind. intros Hbehind Hcode. cbv zeta.
  unfold settle_merge_state, updated, updating. rewrite Hbehind.
  change (default "UNKNOWN"%string (Some "BEHIND"%string)) with "BEHIND"%string.
  change (Py.eq_str "BEHIND" "BEHIND") with true. cbv iota.
  destruct (verbose args).
  all: rewrite ?ret_then, ?log_then.
  all: unfold and_then at 1; unfold bind at 1; rewrite log_then; unfold bind at 1.
  all: rewrite update_pr_branch_ok by exact Hcode; cbn [negb].
  all: rewrite log_then, sleep_then; unfold bind at 1; rewrite get_pr_details_run.
  all: unfold ret at 1; cbv beta iota.
  all: destruct (_ || _); [reflexivity|].
  all: by destruct (negb _).
Qed.

(** X7. A pull request behind its base whose branch update fails is
    skipped and ends the loop, without a second fetch: the reason is
    "Merge conflicts detected - manual resolution required" exactly when
    the error output of the command, in lower case, contains "conflict",
    and "Failed to update branch: " followed by the error output
    otherwise. *)
Theorem failed_update_halts (args : Args) (total idx : nat) (pr : PR.t)
    (st st1 : St W) (details : Details.t) :
  prs st !! idx = Some pr ->
  triage idx (PR.number pr) (entering pr idx total st) = Some (Proceed details, st1) ->
  behind details ->
  returncode (update_answer (PR.number pr) (world st1)) <> 0 ->
  exists msg,
    (occurs_in "conflict" (Py.lower (stderr (update_answer (PR.number pr) (world st1)))) ->
     msg = "Merge conflicts detected - manual resolution required"%string) /\
    (~ occurs_in "conflict" (Py.lower (stderr (update_answer (PR.number pr) (world st1)))) ->
     msg = ("Failed to update branch: "
            +:+ stderr (update_answer (PR.number pr) (world st1)))%string) /\
    let st' := skipping idx msg
                 (logged (EvLog (MsgUpdateFailed msg) error)
                    (ran (Gh (GhPrUpdateBranch (PR.number pr)))
                       (updating args details st1))) in
    process_pr args total idx st = Some (Break, st') /\
    forall todo, merge_loop args total (idx :: todo) st = Some (1%nat, st').
Proof.
  intros Hpr Htriage Hbehind Hcode.
  pose proof (settle_behind_refused args idx (PR.number pr) details st1 Hbehind Hcode)
    as Hsettle. cbv zeta in Hsettle.
  pose proof (contains_occurs "conflict"
                (Py.lower (stderr (update_answer (PR.number pr) (world st1))))) as Hocc.
  eexists. split_and!; [| |cbv zeta; split].
  3:{ rewrite (process_pr_settling args total idx pr st st1 details Hpr Htriage).
      apply and_then_break. exact Hsettle. }
  3:{ apply halts.
      rewrite (process_pr_settling args total idx pr st st1 details Hpr Htriage).
      apply and_then_break. exact Hsettle. }
  - intros Hyes. apply Hocc in Hyes; [|done]. by rewrite Hyes.
  - intros Hno.
    destruct (Py.contains "conflict"
                (Py.lower (stderr (update_answer (PR.number pr) (world st1))))); [|done].
    exfalso. apply Hno, Hocc; done.
Qed.

(** X8. A pull request behind its base whose branch update succeeds: the
    block waits three seconds and fetches the details again (an answer
    that fails counts as an empty snapshot). The conflict test then reads
    the merge state of the second snapshot but the mergeable flag of the
    first one: a flag CONFLICTING from before the update still skips the
    item and ends the loop. Without a conflict the iteration goes on to
    the review block with the second snapshot. *)
Theorem conflict_test_after_update (args : Args) (total idx : nat) (pr : PR.t)
    (st st1 : St W) (details : Details.t) :
  prs st !! idx = Some pr ->
  triage idx (PR.number pr) (entering pr idx total st) = Some (Proceed details, st1) ->
  behind details ->
  returncode (update_answer (PR.number pr) (world st1)) = 0 ->
  let refreshed :=
    default Details.empty
      (details_answer (PR.number pr)
         (snd (respond (Gh (GhPrUpdateBranch (PR.number pr))) (world st1)))) in
  let st2 := updated (PR.number pr) (updating args details st1) in
  (Details.mergeStateStatus refreshed = Some "DIRTY"%string \/
   Details.mergeable details = Some "CONFLICTING"%string ->
   let st' := skipping idx "Merge conflicts - manual resolution required"
                (logged (EvLog MsgConflicts error) st2) in
   process_pr args total idx st = Some (Break, st') /\
   forall todo, merge_loop args total (idx :: todo) st = Some (1%nat, st')) /\
  (~ (Details.mergeStateStatus refreshed = Some "DIRTY"%string \/
      Details.mergeable details = Some "CONFLICTING"%string) ->
   exists st3,
     only_logged st2 st3 /\
     process_pr args total idx st
     = from_review args total idx (PR.number pr) refreshed st3).
Proof.
  intros Hpr Htriage Hbehind Hcode refreshed st2.
  pose proof (settle_behind_updated args idx (PR.number pr) details st1 Hbehind Hcode)
    as Hsettle. cbv zeta in Hsettle. fold refreshed st2 in Hsettle.
  pose proof (conflict_test (Details.mergeStateStatus refreshed) details) as Hc.
  destruct (_ || _).
  - split; [intros _; cbv zeta|intros Hno; exfalso; apply Hno, Hc; done].
    assert (process_pr args total idx st
            = Some (Break, skipping idx "Merge conflicts - manual resolution required"
                             (logged (EvLog MsgConflicts error) st2))) as Hrun.
    { rewrite (process_pr_settling args total idx pr st st1 details Hpr Htriage).
      apply and_then_break. exact Hsettle. }
    split; [exact Hrun|by apply halts].
  - split; [intros Hyes; apply Hc in Hyes; done|intros _].
    eexists. split.
    2:{ rewrite (process_pr_settling args total idx pr st st1 details Hpr Htriage).
        apply and_then_proceed. exact Hsettle. }
    destruct (negb _); [apply only_logged_log|]; apply only_logged_refl.
Qed.


(** ** A merge that fails *)

(** X10. When the merge command fails (outside a dry run), the item is
    skipped with the reason "Merge failed: " followed by the error output,
    nothing is added to [merged], the trunk is not verified and the loop
    ends. *)
Theorem failed_merge_halts (args : Args) (total idx : nat) (pr : PR.t)
    (st ready : St W) :
  prs st !! idx = Some pr ->
  readiness args idx (PR.number pr) (entering pr idx total st) = Some (Proceed tt, ready) ->
  dry_run args = false ->
  returncode (merge_answer (PR.number pr) (world ready)) <> 0 ->
  let msg := ("Merge failed: " +:+ stderr (merge_answer (PR.number pr) (world ready)))%string in
  let st' := skipping idx msg
               (logged (EvLog (MsgMergeFailed msg) error)
                  (ran (Gh (GhPrMerge (PR.number pr)))
                     (logged (EvLog MsgMerging info) ready))) in
  process_pr args total idx st = Some (Break, st') /\
  (forall todo, merge_loop args total (idx :: todo) st = Some (1%nat, st')) /\
  merged st' = merged st /\
  skipped st' = skipped st ++ [idx].
Proof.
  intros Hpr Hready Hdry Hcode msg st'.
  assert (merge_gate args idx (PR.number pr) ready = Some (Break, st')) as Hgate.
  { subst st' msg. unfold merge_answer in *.
    unfold merge_gate, merge_pr, skip, run_gh, subprocess_run, log, set_reason,
      skipped_append, ran, logged, skipping, bind, emit, ret.
    rewrite Hdry. cbn -[String.append].
    destruct (respond (Gh (GhPrMerge (PR.number pr))) (world ready)) as [[code out err] w1].
    cbn -[String.append] in *. by destruct (Z.eqb_spec code 0). }
  assert (process_pr args total idx st = Some (Break, st')) as Hrun.
  { unfold entering in Hready.
    unfold process_pr, bind at 1, deref. rewrite Hpr, !log_then.
    rewrite (and_then_proceed _ _ _ _ _ Hready).
    by apply and_then_break. }
  split; [exact Hrun|]. split; [by apply halts|].
  pose proof (gated_run (dry_run args) idx [] _ _ _ _
                (gated_readiness (dry_run args) args idx (PR.number pr)) Hready)
    as (Hm0 & Hs0 & _).
  subst st'. simpl. simpl in Hm0, Hs0.
  by rewrite Hm0, Hs0, !app_nil_r.
Qed.

End MergeState.

Lemma merge_state_gate_witness :
  exists st',
    process_pr (H:=scripted dirty_host 0) default_args 1 0 (queued [pr_of 7])
    = Some (Break, st') /\
    skipped st' = [0%nat] /\
    map PR.reason (prs st') = [Some "Merge conflicts - manual resolution required"%string].
Proof.
  edestruct (merge_state_gate (H:=scripted dirty_host 0) default_args 1 0 (pr_of 7)
               (queued [pr_of 7])) as (st2 & Hlogged & Hconflict & _).
  - reflexivity.
  - vm_compute. reflexivity.
  - intros Hbehind. vm_compute in Hbehind. discriminate.
  - destruct Hconflict as [Hrun _]; [left; reflexivity|].
    destruct Hlogged as (_ & _ & Hp & _ & Hs & _).
    eexists. split; [exact Hrun|]. simpl. rewrite Hp, Hs. split; reflexivity.
Defined.

Lemma failed_update_halts_witness :
  exists st',
    process_pr (H:=scripted update_refused 0) default_args 1 0 (queued [pr_of 7])
    = Some (Break, st') /\
    skipped st' = [0%nat] /\
    map PR.reason (prs st')
    = [Some "Merge conflicts detected - manual resolution required"%string].
Proof.
  edestruct (failed_update_halts (H:=scripted update_refused 0) default_args 1 0 (pr_of 7)
               (queued [pr_of 7])) as (msg & Hconflict & _ & Hrest).
  - reflexivity.
  - vm_compute. reflexivity.
  - reflexivity.
  - vm_compute. discriminate.
  - cbv zeta in Hrest. destruct Hrest as [Hrun _].
    rewrite Hconflict in Hrun; [|exists 0%nat; vm_compute; reflexivity].
    eexists. split; [exact Hrun|]. split; reflexivity.
Defined.

Lemma conflict_test_after_update_witness :
  exists st',
    process_pr
      (H:=scripted (fun _ => serving [pr_of 7]
                     (fun _ => Details.mk false (Some "OPEN"%string) (Some "BEHIND"%string)
                                 (Some "CONFLICTING"%string) None) [] []) 0)
      default_args 1 0 (queued [pr_of 7])
    = Some (Break, st') /\
    EvRun (Gh (GhPrUpdateBranch 7)) ∈ trace st' /\
    map PR.reason (prs st') = [Some "Merge conflicts - manual resolution required"%string].
Proof.
  edestruct (conflict_test_after_update
               (H:=scripted (fun _ => serving [pr_of 7]
                     (fun _ => Details.mk false (Some "OPEN"%string) (Some "BEHIND"%string)
                                 (Some "CONFLICTING"%string) None) [] []) 0)
               default_args 1 0 (pr_of 7) (queued [pr_of 7])) as [Hconflict _].
  - reflexivity.
  - vm_compute. reflexivity.
  - reflexivity.
  - reflexivity.
  - destruct Hconflict as [Hrun _]; [right; reflexivity|].
    eexists. split; [exact Hrun|]. split; [|reflexivity].
    cbn [trace skipping logged updated ran slept updating verbose default_args queued].
    repeat constructor.
Defined.


Lemma failed_merge_halts_witness :
  exists st',
    process_pr (H:=scripted merge_refused 0) default_args 1 0 (queued [pr_of 7])
    = Some (Break, st') /\
    merged st' = [] /\ skipped st' = [0%nat] /\
    map PR.reason (prs st') = [Some "Merge failed: not mergeable"%string].
Proof.
  edestruct (failed_merge_halts (H:=scripted merge_refused 0) default_args 1 0 (pr_of 7)
               (queued [pr_of 7])) as (Hrun & _ & Hm & Hs).
  - reflexivity.
  - vm_compute. reflexivity.
  - reflexivity.
  - vm_compute. discriminate.
  - eexists. split; [exact Hrun|]. split_and!; [exact Hm|exact Hs|reflexivity].
Defined.

(** ** The check poller *)

Section Polling.

Context {W : Type} `{Host W}.

Lemma queries_app (tr1 tr2 : list Event) : queries (tr1 ++ tr2) = (queries tr1 + queries tr2)%nat.
Proof. unfold queries. by rewrite filter_app, length_app. Qed.

(** With the clock at [clock st], the polls left are bounded by the time
    left: one poll, and one more for every poll interval that fits. *)
Lemma wait_loop_queries fuel n start tm verbose (st : St W) r st' :
  wait_loop fuel n start tm verbose st = Some (r, st') ->
  exists evs,
    trace st' = trace st ++ evs /\
    Z.of_nat (queries evs)
    <= (if tm * 60 <? clock st - start then 0
        else (tm * 60 - (clock st - start)) / poll_interval + 1).
Proof.
  revert st. induction fuel as [|fuel IH]; intros st; [done|].
  rewrite wait_loop_step.
  destruct (Z.ltb_spec (tm * 60) (clock st - start)) as [Hover|Hleft].
  { intros [= <- <-]. exists []. by rewrite app_nil_r. }
  assert (0 <= (tm * 60 - (clock st - start)) / poll_interval) as Hdiv.
  { apply Z.div_pos; unfold poll_interval; lia. }
  destruct (status_of (checks_answer n (world st))) as [status checks].
  destruct (Py.eq_str status "SUCCESS").
  { intros [= <- <-]. exists [EvRun (Gh (GhPrChecks n))]. split; [done|].
    unfold queries. simpl. lia. }
  destruct (Py.eq_str status "FAILURE").
  { intros [= <- <-]. exists [EvRun (Gh (GhPrChecks n))]. split; [done|].
    unfold queries. simpl. lia. }
  cbv zeta. set (st2 := slept (W:=W) poll_interval _).
  assert (exists logs,
            trace st2 = trace st ++ EvRun (Gh (GhPrChecks n)) :: logs /\ queries logs = O /\
            clock st + poll_interval <= clock st2) as (logs & Ht1 & Hq1 & Hc1).
  { subst st2.
    destruct verbose; simpl; eexists; rewrite <- ?app_assoc; (split; [reflexivity|]);
      (split; [reflexivity|]); lia. }
  clearbody st2.
  intros Hrun. apply IH in Hrun as (evs & Ht & Hq).
  rewrite Ht1 in Ht.
  exists (EvRun (Gh (GhPrChecks n)) :: logs ++ evs). split.
  { by rewrite Ht, <- app_assoc. }
  change (EvRun (Gh (GhPrChecks n)) :: logs ++ evs)
    with ([EvRun (Gh (GhPrChecks n))] ++ logs ++ evs).
  rewrite !queries_app, Hq1.
  change (queries [EvRun (Gh (GhPrChecks n))]) with 1%nat.
  unfold poll_interval in *.
  destruct (Z.ltb_spec (tm * 60) (clock st2 - start)) as [_|Hleft1]; [lia|].
  assert ((tm * 60 - (clock st2 - start)) / 30 + 1 <= (tm * 60 - (clock st - start)) / 30);
    [|lia].
  replace ((tm * 60 - (clock st2 - start)) / 30 + 1)
    with ((tm * 60 - (clock st2 - start) + 1 * 30) / 30)
    by (rewrite Z.div_add; lia).
  apply Z.div_le_mono; lia.
Qed.

(** X11. The check poller always returns, and it queries the checks of the
    pull request at most [2 * timeout_minutes + 1] times (once per poll
    interval of 30 seconds within the timeout, and once at its start);
    with a negative timeout it never queries them. *)
Theorem poller_queries_bounded (n tm : Z) (verbose : bool) (st : St W) :
  exists r st' evs,
    wait_for_checks n tm verbose st = Some (r, st') /\
    trace st' = trace st ++ evs /\
    Z.of_nat (queries evs) <= Z.max 0 (2 * tm + 1).
Proof.
  destruct (quiet_wait_for_checks false n tm verbose st) as (r & st' & Hrun & _).
  exists r, st'.
  pose proof Hrun as Hloop. unfold wait_for_checks, bind, time_time in Hloop.
  apply wait_loop_queries in Hloop as (evs & Ht & Hq).
  exists evs. split_and!; [exact Hrun|exact Ht|].
  replace (clock st - clock st) with 0 in Hq by lia.
  unfold poll_interval in Hq.
  destruct (Z.ltb_spec (tm * 60) 0); [lia|].
  replace (tm * 60 - 0) with (2 * tm * 30) in Hq by lia.
  rewrite Z.div_mul in Hq by lia. lia.
Qed.

(** X12. With a negative timeout no pull request passes the checks block:
    the poller times out before its first query, so the item is skipped
    with the timeout as its reason, whatever its checks are, and the loop
    ends. *)
Theorem negative_timeout_skips (args : Args) (i : nat) (n : Z) (st : St W) :
  timeout args < 0 ->
  let msg := timeout_message (timeout args) in
  checks_gate args i n st
  = Some (Break,
          skipping i msg
            (logged (EvLog (MsgChecksFailed msg) error)
               (logged (EvLog MsgWaitingForChecks info) st))).
Proof.
  intros Hneg msg. unfold checks_gate. rewrite log_then. unfold bind at 1.
  assert (wait_for_checks n (timeout args) (verbose args)
            (logged (EvLog MsgWaitingForChecks info) st)
          = Some ((false, msg), logged (EvLog MsgWaitingForChecks info) st)) as ->.
  { unfold wait_for_checks, bind at 1, time_time.
    replace (polls (timeout args))
      with (S (Z.to_nat (timeout args * 60 / poll_interval) + 1)) by (unfold polls; lia).
    rewrite wait_loop_step.
    destruct (Z.ltb_spec (timeout args * 60)
                (clock (logged (EvLog MsgWaitingForChecks info) st)
                 - clock (logged (EvLog MsgWaitingForChecks info) st))); [done|lia]. }
  reflexivity.
Qed.

Lemma named_in_failure_test (c : CheckRun.t) :
  Py.get_in (CheckRun.conclusion c) ["FAILURE"; "ERROR"]%string = true <-> named_in_failure c.
Proof.
  unfold named_in_failure, Py.get_in, Py.get_eq, Py.eq_str. simpl.
  destruct (CheckRun.conclusion c) as [s|]; simpl.
  - rewrite !orb_true_iff, !String.eqb_eq. split.
    + intros [->|[->|?]]; auto. done.
    + intros [?|?]; simplify_eq; auto.
  - split; [done|]. intros [?|?]; done.
Qed.

(** X13. A set of checks with a failed check decides the first poll (for
    a timeout of at least one minute): the poller returns a failure whose
    message is "Checks failed: " followed by the names, separated by ", ",
    of the checks that concluded FAILURE or ERROR. A check that was
    cancelled or timed out fails the pull request as well, but is not
    named: when no check concluded FAILURE or ERROR the message is
    "Checks failed: " alone. *)
Theorem failed_checks_message (n tm : Z) (verbose : bool) (st : St W)
    (checks : list CheckRun.t) :
  0 < tm ->
  returncode (checks_answer n (world st)) = 0 ->
  stdout (checks_answer n (world st)) = Some checks ->
  Exists failed checks ->
  wait_for_checks n tm verbose st
  = Some ((false,
           "Checks failed: "
           +:+ Py.join ", " (map CheckRun.name (filter named_in_failure checks))),
          ran (Gh (GhPrChecks n)) st) /\
  (~ Exists named_in_failure checks ->
   wait_for_checks n tm verbose st
   = Some ((false, "Checks failed: "%string), ran (Gh (GhPrChecks n)) st)).
Proof.
  intros Htm Hcode Hout Hfailed.
  assert (filter (fun c => Py.get_in (CheckRun.conclusion c) ["FAILURE"; "ERROR"]%string = true)
            checks
          = filter named_in_failure checks) as Hnamed.
  { apply list_filter_iff. intros c. apply named_in_failure_test. }
  assert (wait_for_checks n tm verbose st
          = Some ((false, failed_message checks), ran (Gh (GhPrChecks n)) st)) as Hrun.
  { unfold wait_for_checks, bind at 1, time_time.
    replace (polls tm) with (S (Z.to_nat (tm * 60 / poll_interval) + 1))
      by (unfold polls; lia).
    rewrite wait_loop_step.
    destruct (Z.ltb_spec (tm * 60) (clock st - clock st)); [lia|].
    unfold status_of. rewrite Hcode, Hout. cbn [Z.eqb negb].
    pose proof (aggregate_follows_rule checks) as (_ & Hrule & _).
    pose proof (aggregate_checks checks) as Hsame.
    destruct (aggregate checks) as [status checks']. cbn [fst snd] in *. subst checks'.
    rewrite Hrule; [done| |done].
    intros ->. by apply Exists_nil in Hfailed. }
  unfold failed_message in Hrun. rewrite Hnamed in Hrun.
  split; [exact Hrun|].
  intros Hnone. rewrite Hrun.
  assert (filter named_in_failure checks = []) as ->; [|done].
  clear -Hnone. induction checks as [|c checks IH]; [done|].
  rewrite filter_cons. destruct (decide (named_in_failure c)) as [Hyes|_].
  - exfalso. apply Hnone. by left.
  - apply IH. intros Hlater. apply Hnone. by right.
Qed.

End Polling.

Lemma negative_timeout_skips_witness :
  exists st',
    checks_gate (H:=scripted (fun _ => calm) 0) (with_timeout (-1) default_args) 0 7
      (queued [pr_of 7])
    = Some (Break, st') /\
    trace st' = [EvLog MsgWaitingForChecks info;
                 EvLog (MsgChecksFailed "Timeout after -1 minutes waiting for checks") error] /\
    map PR.reason (prs st') = [Some "Timeout after -1 minutes waiting for checks"%string].
Proof.
  eexists. split.
  - apply (negative_timeout_skips (H:=scripted (fun _ => calm) 0)
             (with_timeout (-1) default_args) 0 7 (queued [pr_of 7])).
    simpl. lia.
  - split; by vm_compute.
Defined.

(** One cancelled check: the pull request fails its checks and the reason
    names no check. *)
Lemma failed_checks_message_witness :
  wait_for_checks
    (H:=scripted (fun _ => serving [] (fun _ => clean_details)
                    [CheckRun.mk "deploy" (Some "COMPLETED"%string) (Some "CANCELLED"%string)]
                    []) 0)
    7 30 false (initial 0%nat 0)
  = Some ((false, "Checks failed: "%string),
          ran (H:=scripted (fun _ => serving [] (fun _ => clean_details)
                    [CheckRun.mk "deploy" (Some "COMPLETED"%string) (Some "CANCELLED"%string)]
                    []) 0)
              (Gh (GhPrChecks 7)) (initial 0%nat 0)).
Proof.
  edestruct (failed_checks_message
               (H:=scripted (fun _ => serving [] (fun _ => clean_details)
                    [CheckRun.mk "deploy" (Some "COMPLETED"%string) (Some "CANCELLED"%string)]
                    []) 0)
               7 30 false (initial 0%nat 0)) as [_ Hunnamed].
  - lia.
  - reflexivity.
  - reflexivity.
  - constructor. right. right. left. reflexivity.
  - apply Hunnamed. intros Hnamed. apply Exists_cons in Hnamed as [[?|?]|Hnil]; [done|done|].
    by apply Exists_nil in Hnil.
Defined.

(** ** The notes of the session and the targets of its commands *)

Section Notes.

Context {W : Type} `{Host W}.

Lemma keeps_ret res ns {A : Type} (a : A) : keeps (W:=W) res ns (ret a).
Proof.
  intros st a' st' Hns [= <- <-]. split_and!; try done.
  exists []. by rewrite app_nil_r.
Qed.

Lemma keeps_fail res ns {A : Type} : keeps (W:=W) res ns (fail (A:=A)).
Proof. intros st a st' _ Hrun. done. Qed.

Lemma keeps_bind res ns {A B : Type} (m : M W A) (k : A -> M W B) :
  keeps res ns m -> (forall a, keeps res ns (k a)) -> keeps res ns (bind m k).
Proof.
  intros Hm Hk st b st' Hns Hrun. unfold bind in Hrun.
  destruct (m st) as [[a st1]|] eqn:Hm1; [|done].
  destruct (Hm st a st1 Hns Hm1) as (Hns1 & Ha1 & evs1 & Ht1 & Hf1).
  destruct (Hk a st1 b st' Hns1 Hrun) as (Hns2 & Ha2 & evs2 & Ht2 & Hf2).
  split_and!; [done|auto|].
  exists (evs1 ++ evs2). rewrite Ht2, Ht1, app_assoc. split; [done|].
  by apply Forall_app.
Qed.

(** A step that leaves the queue and the two lists alone. *)
Lemma keeps_still res ns {A : Type} (m : M W A) :
  (forall st a st',
     m st = Some (a, st') ->
     prs st' = prs st /\ merged st' = merged st /\ skipped st' = skipped st /\
     exists evs, trace st' = trace st ++ evs /\ Forall (about ns) evs) ->
  keeps res ns m.
Proof.
  intros Hm st a st' Hns Hrun.
  destruct (Hm st a st' Hrun) as (Hp & Hmg & Hs & Ht).
  split_and!; [by rewrite Hp| |exact Ht].
  unfold annotated. by rewrite Hp, Hmg, Hs.
Qed.

Lemma keeps_emit res ns (e : Event) : about ns e -> keeps (W:=W) res ns (emit e).
Proof.
  intros He. apply keeps_still. intros st a st' [= <- <-]. simpl.
  split_and!; try done. exists [e]. split; [done|]. by constructor.
Qed.

Lemma keeps_log res ns msg level : keeps (W:=W) res ns (log msg level).
Proof. by apply keeps_emit. Qed.

Lemma keeps_subprocess_run res ns (c : Cmd) :
  about ns (EvRun c) -> keeps (W:=W) res ns (subprocess_run c).
Proof.
  intros Hc. apply keeps_still. intros st a st'. unfold subprocess_run.
  destruct (respond c (world st)) as [answer w']. intros [= <- <-]. simpl.
  split_and!; try done. exists [EvRun c]. split; [done|]. by constructor.
Qed.

Lemma keeps_run_gh res ns (c : GhCmd) :
  about ns (EvRun (Gh c)) -> keeps (W:=W) res ns (run_gh c).
Proof. exact (keeps_subprocess_run res ns (Gh c)). Qed.

Lemma keeps_run_git res ns (c : GitCmd) : keeps (W:=W) res ns (run_git c).
Proof. exact (keeps_subprocess_run res ns (Git c) I). Qed.

Lemma keeps_time_sleep res ns seconds : keeps (W:=W) res ns (time_sleep seconds).
Proof.
  apply keeps_still. intros st a st' [= <- <-]. simpl.
  split_and!; try done. exists [EvSleep seconds]. split; [done|]. by constructor.
Qed.

Lemma keeps_read res ns {A : Type} (f : St W -> A) :
  keeps (W:=W) res ns (fun st => Some (f st, st)).
Proof.
  apply keeps_still. intros st a st' [= <- <-].
  split_and!; try done. exists []. by rewrite app_nil_r.
Qed.

Lemma keeps_deref res ns i : keeps (W:=W) res ns (deref i).
Proof.
  apply keeps_still. intros st a st'. unfold deref.
  destruct (prs st !! i); [|done]. intros [= <- <-].
  split_and!; try done. exists []. by rewrite app_nil_r.
Qed.

Lemma map_number_set_reason msg i (l : list PR.t) :
  map PR.number (alter (PR.set_reason msg) i l) = map PR.number l.
Proof. apply map_number_ident, map_ident_set_reason. Qed.

Lemma map_number_set_result res i (l : list PR.t) :
  map PR.number (alter (PR.set_result res) i l) = map PR.number l.
Proof. apply map_number_ident, map_ident_set_result. Qed.

(** [pr['reason'] = msg; skipped.append(pr)] keeps the notes complete. *)
Lemma keeps_skip res ns i msg : keeps (W:=W) res ns (skip i msg).
Proof.
  intros st a st' Hns [= <- <-]. simpl.
  split_and!; [by rewrite map_number_set_reason| |exists []; by rewrite app_nil_r].
  intros [Hreason Hresult]. split; simpl; intros j pr' Hj Hpr'.
  - destruct (decide (j = i)) as [->|Hne].
    + rewrite list_lookup_alter_eq in Hpr'.
      destruct (prs st !! i) as [pr0|]; [|done]. injection Hpr' as <-. by eexists.
    + rewrite list_lookup_alter_ne in Hpr' by done.
      apply elem_of_app in Hj as [Hj|Hj]; [by eapply Hreason|].
      apply elem_of_cons in Hj as [?|Hj]; [done|]. by apply elem_of_nil in Hj.
  - destruct (decide (j = i)) as [->|Hne].
    + rewrite list_lookup_alter_eq in Hpr'.
      destruct (prs st !! i) as [pr0|] eqn:Hpr0; [|done]. injection Hpr' as <-.
      simpl. by eapply Hresult.
    + rewrite list_lookup_alter_ne in Hpr' by done. by eapply Hresult.
Qed.

(** [pr['result'] = res; merged.append(pr)] keeps the notes complete. *)
Lemma keeps_merged res ns i {A : Type} (a : A) :
  keeps (W:=W) res ns (set_result i res ;;; merged_append i ;;; ret a).
Proof.
  intros st a' st' Hns [= <- <-]. simpl.
  split_and!; [by rewrite map_number_set_result| |exists []; by rewrite app_nil_r].
  intros [Hreason Hresult]. split; simpl; intros j pr' Hj Hpr'.
  - destruct (decide (j = i)) as [->|Hne].
    + rewrite list_lookup_alter_eq in Hpr'.
      destruct (prs st !! i) as [pr0|] eqn:Hpr0; [|done]. injection Hpr' as <-.
      simpl. by eapply Hreason.
    + rewrite list_lookup_alter_ne in Hpr' by done. by eapply Hreason.
  - destruct (decide (j = i)) as [->|Hne].
    + rewrite list_lookup_alter_eq in Hpr'.
      destruct (prs st !! i) as [pr0|]; [|done]. by injection Hpr' as <-.
    + rewrite list_lookup_alter_ne in Hpr' by done.
      apply elem_of_app in Hj as [Hj|Hj]; [by eapply Hresult|].
      apply elem_of_cons in Hj as [?|Hj]; [done|]. by apply elem_of_nil in Hj.
Qed.

Lemma keeps_and_then res ns {A B : Type} (m : M W (Flow A)) (k : A -> M W (Flow B)) :
  keeps res ns m -> (forall a, keeps res ns (k a)) -> keeps res ns (and_then m k).
Proof.
  intros Hm Hk. unfold and_then. apply keeps_bind; [exact Hm|].
  intros [a| |]; [apply Hk|apply keeps_ret|apply keeps_ret].
Qed.

Lemma keeps_mapM res ns {A B : Type} (f : A -> M W B) (l : list A) :
  (forall a, keeps res ns (f a)) -> keeps res ns (mapM f l).
Proof.
  intros Hf. induction l as [|a l IH]; simpl; [apply keeps_ret|].
  apply keeps_bind; [apply Hf|intros b].
  apply keeps_bind; [apply IH|intros bs]. apply keeps_ret.
Qed.

End Notes.

(** Steps through a computation that keeps the notes. *)
Ltac keeps_step :=
  lazymatch goal with
  | |- keeps _ _ (bind (set_result _ _) _) => apply keeps_merged
  | |- keeps _ _ (bind _ _) => apply keeps_bind; [|intros ?]
  | |- keeps _ _ (and_then _ _) => apply keeps_and_then; [|intros ?]
  | |- keeps _ _ (ret _) => apply keeps_ret
  | |- keeps _ _ fail => apply keeps_fail
  | |- keeps _ _ (log _ _) => apply keeps_log
  | |- keeps _ _ (emit _) => apply keeps_emit; exact I
  | |- keeps _ _ (run_gh _) => apply keeps_run_gh; first [exact I | assumption]
  | |- keeps _ _ (run_git _) => apply keeps_run_git
  | |- keeps _ _ (time_sleep _) => apply keeps_time_sleep
  | |- keeps _ _ time_time => apply (keeps_read _ _ clock)
  | |- keeps _ _ get_prs => apply (keeps_read _ _ prs)
  | |- keeps _ _ get_merged => apply (keeps_read _ _ merged)
  | |- keeps _ _ get_skipped => apply (keeps_read _ _ skipped)
  | |- keeps _ _ (skip _ _) => apply keeps_skip
  | |- keeps _ _ (deref _) => apply keeps_deref
  | |- keeps _ _ (if ?b then _ else _) => destruct b
  | |- keeps _ _ (match ?x with _ => _ end) => destruct x
  end.

Ltac keeps_auto := repeat keeps_step.

Section Kept.

Context {W : Type} `{Host W}.

Variable res : string.
Variable ns : list Z.

Lemma keeps_get_pr_details n : n ∈ ns -> keeps (W:=W) res ns (get_pr_details n).
Proof. intros Hn. unfold get_pr_details. keeps_auto. Qed.

Lemma keeps_get_check_status n : n ∈ ns -> keeps (W:=W) res ns (get_check_status n).
Proof. intros Hn. unfold get_check_status. keeps_auto. Qed.

Lemma keeps_wait_loop fuel n start tm verbose :
  n ∈ ns -> keeps (W:=W) res ns (wait_loop fuel n start tm verbose).
Proof.
  intros Hn. induction fuel as [|fuel IH]; cbn [wait_loop]; [apply keeps_fail|].
  apply keeps_bind; [keeps_auto|intros now].
  destruct (_ <? _); [apply keeps_ret|].
  apply keeps_bind; [by apply keeps_get_check_status|intros [status checks]].
  destruct (Py.eq_str status "SUCCESS"); [apply keeps_ret|].
  destruct (Py.eq_str status "FAILURE"); [apply keeps_ret|].
  apply keeps_bind; [destruct verbose; keeps_auto|intros _].
  apply keeps_bind; [keeps_auto|intros _]. exact IH.
Qed.

Lemma keeps_wait_for_checks n tm verbose :
  n ∈ ns -> keeps (W:=W) res ns (wait_for_checks n tm verbose).
Proof.
  intros Hn. unfold wait_for_checks.
  apply keeps_bind; [keeps_auto|intros start]. by apply keeps_wait_loop.
Qed.

Lemma keeps_update_pr_branch n : n ∈ ns -> keeps (W:=W) res ns (update_pr_branch n).
Proof. intros Hn. unfold update_pr_branch. keeps_auto. Qed.

Lemma keeps_merge_pr n dry : n ∈ ns -> keeps (W:=W) res ns (merge_pr n dry).
Proof. intros Hn. unfold merge_pr. keeps_auto. Qed.

Lemma keeps_verify_main_health base verbose :
  keeps (W:=W) res ns (verify_main_health base verbose).
Proof. unfold verify_main_health, fetch_origin. keeps_auto. Qed.

Lemma keeps_triage i n : n ∈ ns -> keeps (W:=W) res ns (triage i n).
Proof.
  intros Hn. unfold triage.
  apply keeps_bind; [by apply keeps_get_pr_details|intros fetched]. keeps_auto.
Qed.

Lemma keeps_settle_merge_state args i n details :
  n ∈ ns -> keeps (W:=W) res ns (settle_merge_state args i n details).
Proof.
  intros Hn. unfold settle_merge_state.
  apply keeps_bind; [keeps_auto|intros _].
  apply keeps_and_then; [|intros [details' merge_state]; keeps_auto].
  destruct (Py.eq_str _ _); [|keeps_auto].
  apply keeps_bind; [keeps_auto|intros _].
  apply keeps_bind; [by apply keeps_update_pr_branch|intros [ok msg]].
  destruct (negb ok); [keeps_auto|].
  apply keeps_bind; [keeps_auto|intros _].
  apply keeps_bind; [keeps_auto|intros _].
  apply keeps_bind; [by apply keeps_get_pr_details|intros fetched]. keeps_auto.
Qed.

Lemma keeps_review_gate i details : keeps (W:=W) res ns (review_gate i details).
Proof. unfold review_gate. keeps_auto. Qed.

Lemma keeps_checks_gate args i n : n ∈ ns -> keeps (W:=W) res ns (checks_gate args i n).
Proof.
  intros Hn. unfold checks_gate.
  apply keeps_bind; [keeps_auto|intros _].
  apply keeps_bind; [by apply keeps_wait_for_checks|intros [ok msg]]. keeps_auto.
Qed.

Lemma keeps_readiness args i n : n ∈ ns -> keeps (W:=W) res ns (readiness args i n).
Proof.
  intros Hn. unfold readiness.
  apply keeps_and_then; [by apply keeps_triage|intros details].
  apply keeps_and_then; [by apply keeps_settle_merge_state|intros details'].
  apply keeps_and_then; [apply keeps_review_gate|intros _].
  by apply keeps_checks_gate.
Qed.

Lemma keeps_health_gate args i total : keeps (W:=W) res ns (health_gate args i total).
Proof.
  unfold health_gate.
  apply keeps_bind; [keeps_auto|intros _].
  apply keeps_bind; [apply keeps_verify_main_health|intros [healthy msg]]. keeps_auto.
Qed.

Lemma keeps_generate_report report_dir :
  keeps (W:=W) res ns (generate_report report_dir).
Proof.
  unfold generate_report.
  apply keeps_bind; [keeps_auto|intros all].
  apply keeps_bind; [keeps_auto|intros done].
  apply keeps_bind; [keeps_auto|intros left_out].
  apply keeps_bind; [apply keeps_mapM; intros i; unfold merged_row; keeps_auto|intros rows].
  apply keeps_bind; [apply keeps_mapM; intros i; unfold skipped_row; keeps_auto|intros rows'].
  apply keeps_bind;
    [apply (keeps_read _ _ (fun st => writable report_dir (world st)))|intros written].
  keeps_auto.
Qed.

Lemma keeps_conclude report_dir started :
  keeps (W:=W) res ns (conclude report_dir started).
Proof.
  unfold conclude.
  apply keeps_bind; [keeps_auto|intros _].
  apply keeps_bind; [apply keeps_generate_report|intros written].
  destruct written; cbn [negb]; [|keeps_auto].
  apply keeps_bind; [keeps_auto|intros _].
  apply keeps_bind; [keeps_auto|intros done].
  apply keeps_bind; [keeps_auto|intros left_out].
  apply keeps_bind; [keeps_auto|intros _].
  apply keeps_bind; [|intros _; keeps_auto].
  destruct (Py.nonempty left_out); [|keeps_auto].
  apply keeps_bind; [keeps_auto|intros _].
  apply keeps_bind; [apply keeps_mapM; intros i; unfold skipped_row; keeps_auto|intros rows].
  keeps_auto.
Qed.

End Kept.

Section Settled.

Context {W : Type} `{Host W}.

Lemma keeps_merge_gate args ns i n :
  n ∈ ns -> keeps (W:=W) (result_of args) ns (merge_gate args i n).
Proof.
  intros Hn. unfold merge_gate, result_of.
  apply keeps_bind; [keeps_auto|intros _].
  apply keeps_bind; [by apply keeps_merge_pr|intros [ok msg]].
  destruct (negb ok); [keeps_auto|].
  apply keeps_bind; [keeps_auto|intros _]. apply keeps_merged.
Qed.

Lemma keeps_process_pr args ns total idx :
  keeps (W:=W) (result_of args) ns (process_pr args total idx).
Proof.
  intros st flow st' Hns Hrun.
  unfold process_pr, bind at 1, deref in Hrun.
  destruct (prs st !! idx) as [pr|] eqn:Hpr; [|done].
  assert (PR.number pr ∈ ns) as Hn.
  { rewrite <- Hns. change (PR.number pr ∈ PR.number <$> prs st).
    apply list_elem_of_fmap. exists pr. split; [done|]. by eapply list_elem_of_lookup_2. }
  revert Hrun. apply (keeps_bind (result_of args) ns); [keeps_auto| |exact Hns].
  intros _. apply keeps_bind; [keeps_auto|intros _].
  apply keeps_and_then; [by apply keeps_readiness|intros _].
  apply keeps_and_then; [by apply keeps_merge_gate|intros _].
  apply keeps_health_gate.
Qed.

Lemma keeps_merge_loop args ns total todo :
  keeps (W:=W) (result_of args) ns (merge_loop args total todo).
Proof.
  induction todo as [|idx todo IH]; cbn [merge_loop]; [apply keeps_ret|].
  apply keeps_bind; [apply keeps_process_pr|intros flow].
  destruct flow; [| |apply keeps_ret];
    (apply keeps_bind; [exact IH|intros k; apply keeps_ret]).
Qed.

Lemma about_nil ns e : about [] e -> about ns e.
Proof.
  destruct e as [[[]|]| | | | | | |]; simpl; try done; intros Hin;
    by apply elem_of_nil in Hin.
Qed.

Lemma settled_ret res {A : Type} (a : A) : settled (W:=W) res (ret a).
Proof.
  intros st a' st' Hp Ha Ht [= <- <-]. split; [done|]. by rewrite Hp.
Qed.

Lemma settled_bind res {A B : Type} (m : M W A) (k : A -> M W B) :
  keeps res [] m -> (forall a, settled res (k a)) -> settled res (bind m k).
Proof.
  intros Hm Hk st b st' Hp Ha Ht Hrun. unfold bind in Hrun.
  destruct (m st) as [[a st1]|] eqn:Hm1; [|done].
  destruct (Hm st a st1) as (Hns1 & Ha1 & evs1 & Ht1 & Hf1); [by rewrite Hp|done|].
  apply (Hk a st1 b st'); [|by apply Ha1| |exact Hrun].
  - by apply map_eq_nil in Hns1.
  - rewrite Ht1. by apply Forall_app.
Qed.

Lemma keeps_get_open_prs res label session base :
  keeps (W:=W) res [] (get_open_prs label session base).
Proof. unfold get_open_prs. keeps_auto. Qed.

Lemma settled_merge_session args : settled (W:=W) (result_of args) (merge_session args).
Proof.
  unfold merge_session.
  apply settled_bind; [keeps_auto|intros _].
  apply settled_bind; [apply keeps_get_open_prs|intros found].
  destruct found as [|pr found].
  { apply settled_bind; [keeps_auto|intros _]. apply settled_ret. }
  destruct (apply_limit (limit args) (pr :: found)) as [limited queue].
  apply settled_bind; [destruct limited; keeps_auto|intros _].
  intros st r st' Hp Ha Ht Hrun.
  change ((let* started := merge_loop args (length queue) (seq 0 (length queue)) in
           conclude (report_dir args) started)
            (mkSt (world st) (clock st) (trace st ++ [EvPlan (map PR.number queue)])
                  queue [] [])
          = Some (r, st')) in Hrun.
  assert (keeps (W:=W) (result_of args) (map PR.number queue)
            (let* started := merge_loop args (length queue) (seq 0 (length queue)) in
             conclude (report_dir args) started)) as Hkeeps.
  { apply keeps_bind; [apply keeps_merge_loop|intros started]. apply keeps_conclude. }
  edestruct Hkeeps as (Hns & Hnotes & evs & Htrace & Hevs); [|exact Hrun|]; [reflexivity|].
  split.
  - apply Hnotes. split; simpl; intros i pr' Hi; by apply elem_of_nil in Hi.
  - rewrite Hns, Htrace. simpl. rewrite !Forall_app. split_and!; [|by repeat constructor|done].
    eapply Forall_impl; [exact Ht|]. intros e. apply about_nil.
Qed.

Lemma settled_main args : settled (W:=W) (result_of args) (main args).
Proof.
  unfold main.
  apply settled_bind; [destruct (dry_run args); keeps_auto|intros _].
  apply settled_bind; [keeps_auto|intros _].
  apply settled_bind; [unfold check_gh_auth; keeps_auto|intros authenticated].
  destruct (negb authenticated).
  { apply settled_bind; [keeps_auto|intros _]. apply settled_ret. }
  apply settled_bind; [keeps_auto|intros _].
  apply settled_bind; [unfold check_clean_working_tree; keeps_auto|intros clean].
  destruct (negb clean).
  { apply settled_bind; [keeps_auto|intros _]. apply settled_ret. }
  apply settled_bind; [keeps_auto|intros _].
  apply settled_bind; [unfold fetch_origin; keeps_auto|intros fetched].
  destruct (negb fetched).
  { apply settled_bind; [keeps_auto|intros _]. apply settled_ret. }
  apply settled_bind; [keeps_auto|intros _].
  apply settled_merge_session.
Qed.

(** Every position of the two lists is a position of the queue. *)
Lemma lists_within_queue args (st : St W) r st' :
  fresh st ->
  main args st = Some (r, st') ->
  forall i, i ∈ merged st' ++ skipped st' -> (i < length (prs st'))%nat.
Proof.
  intros Hfresh Hrun.
  destruct (main_concluded args st Hfresh) as (r0 & st0 & Hrun0 & Hpost).
  rewrite Hrun in Hrun0. injection Hrun0 as <- <-.
  destruct Hpost as [[_ (Hp & Hm & Hs & _)]|(st1 & _ & Hp & Hk & Hperm & _)].
  - intros i Hi. destruct Hfresh as (_ & Hm0 & Hs0).
    rewrite Hm, Hs, Hm0, Hs0 in Hi. by apply elem_of_nil in Hi.
  - intros i Hi. rewrite Hperm in Hi. apply elem_of_seq in Hi.
    assert (length (prs st') = length (queue_of args (listing args (world st1)))) as ->.
    { by rewrite <- (length_map ident), Hp, length_map. }
    lia.
Qed.

(** X14. At the end of every run, every pull request in [skipped] carries
    a reason and every pull request in [merged] carries the result
    "merged" ("would merge" in a dry run): the report and the summary
    never fall back on "unknown" or on the default result. *)
Theorem session_notes_complete (args : Args) (w : W) (now : Z) :
  exists r st',
    main args (initial w now) = Some (r, st') /\
    (forall i, i ∈ skipped st' ->
       exists pr why, prs st' !! i = Some pr /\ PR.reason pr = Some why) /\
    (forall i, i ∈ merged st' ->
       exists pr, prs st' !! i = Some pr /\
                  PR.result pr = Some (if dry_run args then "would merge" else "merged")%string).
Proof.
  destruct (main_concluded args (initial w now)) as (r & st' & Hrun & _); [done|].
  exists r, st'. split; [exact Hrun|].
  pose proof (lists_within_queue args (initial w now) r st' ltac:(done) Hrun) as Hwithin.
  destruct (settled_main args (initial w now) r st') as [[Hreason Hresult] _];
    [done| |constructor|exact Hrun|].
  { split; simpl; intros i pr Hi; by apply elem_of_nil in Hi. }
  split.
  - intros i Hi.
    destruct (lookup_lt_is_Some_2 (prs st') i) as [pr Hpr].
    { apply Hwithin, elem_of_app. by right. }
    destruct (Hreason i pr Hi Hpr) as [why Hwhy]. by exists pr, why.
  - intros i Hi.
    destruct (lookup_lt_is_Some_2 (prs st') i) as [pr Hpr].
    { apply Hwithin, elem_of_app. by left. }
    exists pr. split; [done|].
    rewrite (Hresult i pr Hi Hpr). unfold result_of. by destruct (dry_run args).
Qed.

(** X15. Every command that a run issues on a single pull request (the
    fetch of its details, the query for its checks, the update of its
    branch, its merge) is on a pull request of the queue. *)
Theorem commands_target_the_queue (args : Args) (w : W) (now : Z) :
  exists r st',
    main args (initial w now) = Some (r, st') /\
    forall n c,
      c ∈ [GhPrView n; GhPrChecks n; GhPrUpdateBranch n; GhPrMerge n] ->
      EvRun (Gh c) ∈ trace st' ->
      n ∈ map PR.number (prs st').
Proof.
  destruct (main_concluded args (initial w now)) as (r & st' & Hrun & _); [done|].
  exists r, st'. split; [exact Hrun|].
  destruct (settled_main args (initial w now) r st') as [_ Habout];
    [done| |constructor|exact Hrun|].
  { split; simpl; intros i pr Hi; by apply elem_of_nil in Hi. }
  intros n c Hc Hin. rewrite Forall_forall in Habout. specialize (Habout _ Hin).
  repeat (apply elem_of_cons in Hc as [->|Hc]; [exact Habout|]).
  by apply elem_of_nil in Hc.
Qed.

End Settled.

Lemma dry_run_never_merges_witness :
  exists r st',
    main (H:=scripted behind_host 0) (with_dry_run default_args) (initial 0%nat 0)
    = Some (r, st') /\
    merged st' = [0%nat] /\
    forall n, EvRun (Gh (GhPrMerge n)) ∉ trace st'.
Proof.
  destruct (dry_run_never_merges (H:=scripted behind_host 0) (with_dry_run default_args)
              0%nat 0) as (r & st' & Hrun & Hnever).
  - reflexivity.
  - exists r, st'. split; [exact Hrun|]. split; [|exact Hnever].
    vm_compute in Hrun. by injection Hrun as _ <-.
Defined.

(** ** The merge plan *)

Section Plan.

Lemma length_append (s1 s2 : string) :
  String.length (s1 +:+ s2) = (String.length s1 + String.length s2)%nat.
Proof. induction s1 as [|c s1 IH]; simpl; [done|]. by rewrite IH. Qed.

Lemma length_spaces (n : nat) : String.length (spaces n) = n.
Proof. induction n as [|n IH]; simpl; [done|]. by rewrite IH. Qed.

Lemma length_take (n : nat) (s : string) :
  String.length (Py.take n s) = Nat.min n (String.length s).
Proof.
  unfold Py.take. revert n. induction s as [|c s IH]; intros [|n]; simpl; try done.
  by rewrite IH.
Qed.

Lemma length_ljust (width : nat) (s : string) :
  String.length (ljust width s) = Nat.max width (String.length s).
Proof. unfold ljust. rewrite length_append, length_spaces. lia. Qed.

(** An abbreviated cell fits its column, when the part kept and the two
    dots fit. *)
Lemma length_abbreviate (width keep : nat) (s : string) :
  (keep + 2 <= width)%nat -> (String.length (abbreviate width keep s) <= width)%nat.
Proof.
  intros Hkeep. unfold abbreviate.
  destruct (Nat.ltb_spec width (String.length s)); [|done].
  rewrite length_append, length_take. simpl. lia.
Qed.

(** X17. In every row of the merge plan the title and the branch take
    exactly 35 and 15 characters, however long they are in the pull
    request (a long one is cut and ends in ".."). The number cell and the
    state are padded to 6 and 10 characters and never cut, so the row is
    53 characters plus the larger of 6 and the length of the number cell,
    plus the larger of 10 and the length of the state: exactly 69
    characters when both fit their columns, within the rules of the table,
    which are 70. *)
Theorem plan_row_width (pr : PR.t) (state : option string) :
  String.length (ljust 35 (abbreviate 35 33 (PR.title pr))) = 35%nat /\
  String.length (ljust 15 (abbreviate 15 13 (PR.headRefName pr))) = 15%nat /\
  String.length (plan_row pr state)
  = (Nat.max 6 (String.length ("#" +:+ Py.str (PR.number pr))) + 53
     + Nat.max 10 (String.length (default "UNKNOWN"%string state)))%nat /\
  ((String.length ("#" +:+ Py.str (PR.number pr)) <= 6)%nat ->
   (String.length (default "UNKNOWN"%string state) <= 10)%nat ->
   String.length (plan_row pr state) = 69%nat).
Proof.
  pose proof (length_abbreviate 35 33 (PR.title pr) ltac:(lia)) as Htitle.
  pose proof (length_abbreviate 15 13 (PR.headRefName pr) ltac:(lia)) as Hbranch.
  assert (String.length (ljust 35 (abbreviate 35 33 (PR.title pr))) = 35%nat) as Ht.
  { rewrite length_ljust. lia. }
  assert (String.length (ljust 15 (abbreviate 15 13 (PR.headRefName pr))) = 15%nat) as Hb.
  { rewrite length_ljust. lia. }
  assert (String.length (plan_row pr state)
          = (Nat.max 6 (String.length ("#" +:+ Py.str (PR.number pr))) + 53
             + Nat.max 10 (String.length (default "UNKNOWN"%string state)))%nat) as Hrow.
  { unfold plan_row. rewrite !length_append, Ht, Hb, !length_ljust, !length_append.
    change (String.length " ") with 1%nat. lia. }
  split_and!; [exact Ht|exact Hb|exact Hrow|].
  intros Hnumber Hstate. rewrite Hrow. lia.
Qed.

(** A row for a number of six digits is 70 characters wide. *)
Example six_digit_row :
  String.length (plan_row (PR.mk 123456 "change" "feature" [] None None)
                   (Some "CLEAN"%string)) = 70%nat.
Proof. by vm_compute. Qed.

End Plan.

Lemma plan_row_width_witness :
  plan_row (PR.mk 101 "Add the orchestrator of the merge session to the workflow scripts"
                  "feature/merge-orchestrator" [] None None) (Some "CLEAN"%string)
  = "#101   Add the orchestrator of the merge.. feature/merge.. CLEAN     "%string /\
  String.length
    (plan_row (PR.mk 101 "Add the orchestrator of the merge session to the workflow scripts"
                     "feature/merge-orchestrator" [] None None) (Some "CLEAN"%string))
  = 69%nat.
Proof.
  split; [by vm_compute|].
  destruct (plan_row_width
              (PR.mk 101 "Add the orchestrator of the merge session to the workflow scripts"
                     "feature/merge-orchestrator" [] None None) (Some "CLEAN"%string))
    as (_ & _ & _ & Hfits).
  apply Hfits.
  - vm_compute. lia.
  - vm_compute. lia.
Defined.

(** ** The skip that ends the loop comes last *)

Section Lenient.

Context {W : Type} `{Host W}.











End Lenient.


Section Fatal.

Context {W : Type} `{Host W}.
















End Fatal.
